(** * Sanbitu FC: a shallow embedding of the club-management front end

    The development follows the TypeScript sources: the page handlers of
    [ManageMatches.tsx], [ManagePlayers.tsx] and [CreateUser.tsx], the
    view computations of the match-details and squad pages, the [toDate]
    helper, and the [bootstrap-admin] server function.

    Asynchronous handlers are functions in a state-and-exception monad
    over a world made of the document store and one chronological trace
    of everything the handler does to the outside (backend calls, dialogs,
    toasts, console output).  The answers of the backend are read from an
    oracle indexed by the number of calls issued so far, so every theorem
    that quantifies over the oracle covers every behaviour of the
    backend. *)

From stdpp Require Import base functions gmap strings list sorting pretty.
From Stdlib Require Import ZArith Lia Ascii String SpecFloat.

Open Scope string_scope.
Open Scope list_scope.
Open Scope Z_scope.

(** ** JavaScript values as the pages see them *)

Module JS.

(** Number values by their mathematical value: NaN, the integers and
    the two infinities.  The numbers of the pages are jersey numbers,
    goals and epoch seconds; fractions, and the sign of zero, which
    nothing below observes, are outside the model.  Not every integer
    beyond 2^53 is a Number: [to_Number] below gives the nearest one. *)
Inductive jsnum : Type :=
| NaN
| Num (z : Z)
| Infinity (negative : bool).

(** The values a Firestore document field (or a missing field) can
    hold: [undefined], [null], booleans, numbers, strings, instances of
    the SDK's [Timestamp] class, and plain objects. *)
#[warnings="-register-all"] Inductive jsvalue : Type :=
| VUndefined
| VNull
| VBool (b : bool)
| VNumber (n : jsnum)
| VString (s : string)
| VTimestamp (seconds nanoseconds : Z)
| VObject (fields : list (string * jsvalue)).

(** How an evaluation or an awaited promise ends. *)
Inductive completion (A : Type) : Type :=
| Normal (a : A)
| Throw (message : string).
Arguments Normal {A} a.
Arguments Throw {A} message.

(** A [Date] object is its time value: milliseconds since the epoch,
    or [None] for the NaN time value ("Invalid Date"). *)
Definition Date : Type := option Z.

(** [typeof v] *)
Definition typeof (v : jsvalue) : string :=
  match v with
  | VUndefined => "undefined"
  | VNull => "object"
  | VBool _ => "boolean"
  | VNumber _ => "number"
  | VString _ => "string"
  | VTimestamp _ _ => "object"
  | VObject _ => "object"
  end.

(** ToBoolean, the test behind [v && ...], [!v] and [v || ...]. *)
Definition truthy (v : jsvalue) : bool :=
  match v with
  | VUndefined | VNull => false
  | VBool b => b
  | VNumber NaN => false
  | VNumber (Num z) => negb (z =? 0)
  | VNumber (Infinity _) => true
  | VString s => negb (String.eqb s "")
  | VTimestamp _ _ | VObject _ => true
  end.

(** [v instanceof Timestamp] *)
Definition instanceof_Timestamp (v : jsvalue) : bool :=
  match v with
  | VTimestamp _ _ => true
  | _ => false
  end.

Fixpoint assoc (k : string) (fields : list (string * jsvalue)) : option jsvalue :=
  match fields with
  | [] => None
  | (k', v) :: rest => if String.eqb k k' then Some v else assoc k rest
  end.

(** [k in v]: a TypeError on anything that is not an object. *)
Definition js_in (k : string) (v : jsvalue) : completion bool :=
  match v with
  | VObject fields => Normal (bool_decide (is_Some (assoc k fields)))
  | VTimestamp _ _ =>
      Normal (String.eqb k "seconds" || String.eqb k "nanoseconds")
  | _ => Throw "TypeError: Cannot use 'in' operator"
  end.

(** [v.k]: a TypeError on [undefined] and [null], [undefined] for a
    property that is not there. *)
Definition get (k : string) (v : jsvalue) : completion jsvalue :=
  match v with
  | VUndefined | VNull => Throw "TypeError: Cannot read properties"
  | VObject fields => Normal (default VUndefined (assoc k fields))
  | VTimestamp s n =>
      Normal (if String.eqb k "seconds" then VNumber (Num s)
              else if String.eqb k "nanoseconds" then VNumber (Num n)
              else VUndefined)
  | _ => Normal VUndefined
  end.

(** *** Arithmetic on Number values

    Numbers are IEEE 754 binary64 values; the arithmetic is that of the
    Standard Library's specification of it ([SpecFloat], with 53 bits
    of precision and 1024 as the exponent of the infinities). *)

(** The binary64 value nearest to an integer, ties to even. *)
Definition binary64 (z : Z) : spec_float := binary_normalize 53 1024 z 0 false.

(** The integral part of a binary64 value, towards zero. *)
Definition truncate (x : spec_float) : Z :=
  match x with
  | S754_finite s m e =>
      let a := if 0 <=? e then Zpos m * 2 ^ e else Zpos m / 2 ^ (- e) in
      if s then - a else a
  | _ => 0
  end.

(** A binary64 value that is NaN, an infinity or an integer as a
    Number of the model. *)
Definition of_binary64 (x : spec_float) : jsnum :=
  match x with
  | S754_nan => NaN
  | S754_infinity s => Infinity s
  | S754_zero _ | S754_finite _ _ _ => Num (truncate x)
  end.

(** The Number value for a mathematical integer: the nearest, ties to
    even, an infinity from 2^1024 - 2^970 on. *)
Definition to_Number (z : Z) : jsnum := of_binary64 (binary64 z).

(** TimeClip of the Date constructor: NaN, the infinities and anything
    beyond 8.64e15 ms give the invalid date. *)
Definition TimeClip (n : jsnum) : Date :=
  match n with
  | Num z => if Z.abs z <=? 8640000000000000 then Some z else None
  | NaN | Infinity _ => None
  end.

(** [a * b]: the Number nearest to the product. *)
Definition mul (a b : jsnum) : jsnum :=
  match a, b with
  | NaN, _ | _, NaN => NaN
  | Num x, Num y => to_Number (x * y)
  | Infinity s, Num y | Num y, Infinity s =>
      if y =? 0 then NaN else Infinity (xorb s (y <? 0))
  | Infinity s, Infinity t => Infinity (xorb s t)
  end.

(** [Timestamp.prototype.toMillis] of the SDK:
    [this.seconds * 1e3 + this.nanoseconds / 1e6], in binary64. *)
Definition Timestamp_toMillis (seconds nanoseconds : Z) : spec_float :=
  SFadd 53 1024
    (SFmul 53 1024 (binary64 seconds) (binary64 1000))
    (SFdiv 53 1024 (binary64 nanoseconds) (binary64 1000000)).

(** [new Date(x)] for a binary64 value: the fraction of a millisecond
    is dropped. *)
Definition Date_of_binary64 (x : spec_float) : Date :=
  match x with
  | S754_nan | S754_infinity _ => None
  | S754_zero _ | S754_finite _ _ _ => TimeClip (Num (truncate x))
  end.

(** [Timestamp.prototype.toDate] of the SDK: [new Date(this.toMillis())]. *)
Definition Timestamp_toDate (seconds nanoseconds : Z) : Date :=
  Date_of_binary64 (Timestamp_toMillis seconds nanoseconds).

(** [v.toDate()] *)
Definition call_toDate (v : jsvalue) : completion Date :=
  match v with
  | VTimestamp s n => Normal (Timestamp_toDate s n)
  | VUndefined | VNull => Throw "TypeError: Cannot read properties"
  | _ => Throw "TypeError: value.toDate is not a function"
  end.

(** *** String helpers *)

(** White space of [trim] and [parseInt], restricted to the code units
    a Rocq string has (below 256). *)
Definition is_white_space (c : ascii) : bool :=
  let n := N_of_ascii c in
  ((9 <=? n) && (n <=? 13) || (n =? 32) || (n =? 160))%N.

Fixpoint trimStart (s : string) : string :=
  match s with
  | String c rest => if is_white_space c then trimStart rest else s
  | EmptyString => EmptyString
  end.

Fixpoint trimEnd (s : string) : string :=
  match s with
  | String c rest =>
      match trimEnd rest with
      | EmptyString => if is_white_space c then EmptyString else String c EmptyString
      | rest' => String c rest'
      end
  | EmptyString => EmptyString
  end.

(** [s.trim()] *)
Definition trim (s : string) : string := trimEnd (trimStart s).

Definition newline : string := String (ascii_of_nat 10) EmptyString.

(** [s || null] for a string [s] *)
Definition or_null (s : string) : jsvalue :=
  if String.eqb s "" then VNull else VString s.

(** [s || d] for strings *)
Definition or_default (s d : string) : string :=
  if String.eqb s "" then d else s.

(** [s.toLowerCase()] on the code units below 256 *)
Definition lower_char (c : ascii) : ascii :=
  let n := N_of_ascii c in
  if ((65 <=? n) && (n <=? 90) || (192 <=? n) && (n <=? 222) && negb (n =? 215))%N
  then ascii_of_N (n + 32) else c.

Fixpoint toLowerCase (s : string) : string :=
  match s with
  | String c rest => String (lower_char c) (toLowerCase rest)
  | EmptyString => EmptyString
  end.

(** *** parseInt with no radix argument *)

Definition digit_value (radix : Z) (c : ascii) : option Z :=
  let n := Z.of_N (N_of_ascii c) in
  let d :=
    if (48 <=? n) && (n <=? 57) then Some (n - 48)
    else if (97 <=? n) && (n <=? 122) then Some (n - 87)
    else if (65 <=? n) && (n <=? 90) then Some (n - 55)
    else None in
  match d with
  | Some v => if v <? radix then Some v else None
  | None => None
  end.

(** The value of the longest prefix of radix digits; [acc] is [None]
    while no digit has been read. *)
Fixpoint parse_digits (radix : Z) (acc : option Z) (s : string) : option Z :=
  match s with
  | String c rest =>
      match digit_value radix c with
      | Some d => parse_digits radix (Some (default 0 acc * radix + d)) rest
      | None => acc
      end
  | EmptyString => acc
  end.

Definition strip_sign (s : string) : Z * string :=
  match s with
  | String "-" rest => (-1, rest)
  | String "+" rest => (1, rest)
  | _ => (1, s)
  end.

Definition strip_hex_prefix (s : string) : Z * string :=
  match s with
  | String "0" (String "x" rest) => (16, rest)
  | String "0" (String "X" rest) => (16, rest)
  | _ => (10, s)
  end.

Definition parseInt (s : string) : jsnum :=
  let '(sign, s1) := strip_sign (trimStart s) in
  let '(radix, s2) := strip_hex_prefix s1 in
  match parse_digits radix None s2 with
  | None => NaN
  | Some m => to_Number (sign * m)
  end.

(** *** Number to string *)

(** [n.toString()]: the decimal digits of an integer below 2^53 in
    absolute value.  From there on the engine prints the shortest
    digits that read back as the same Number, with zeros or an exponent
    after them; that text is given by [engine]. *)
Definition Number_toString (engine : Z → string) (n : jsnum) : string :=
  match n with
  | NaN => "NaN"
  | Infinity negative => if negative then "-Infinity" else "Infinity"
  | Num z => if Z.abs z <? 2 ^ 53 then pretty z else engine z
  end.

End JS.
Export JS.

(** ** Asynchronous code: state, exceptions and promises *)

Module Async.

(** A computation over a world [W] ends normally or by a throw, and in
    both cases leaves a world behind. *)
Definition M (W A : Type) : Type := W → completion A * W.

#[export] Instance M_ret {W} : MRet (M W) := λ A a w, (Normal a, w).

#[export] Instance M_bind {W} : MBind (M W) := λ A B k m w,
  match m w with
  | (Normal a, w') => k a w'
  | (Throw e, w') => (Throw e, w')
  end.

Definition throw {W A} (message : string) : M W A := λ w, (Throw message, w).

(** [try { body } catch (error) { handler error.message }] *)
Definition try_catch {W A} (body : M W A) (handler : string → M W A) : M W A := λ w,
  match body w with
  | (Normal a, w') => (Normal a, w')
  | (Throw e, w') => handler e w'
  end.

(** [try { body } finally { final }] *)
Definition try_finally {W A} (body : M W A) (final : M W unit) : M W A := λ w,
  match body w with
  | (r, w') =>
      match final w' with
      | (Normal _, w'') => (r, w'')
      | (Throw e, w'') => (Throw e, w'')
      end
  end.

(** Starting an asynchronous operation without awaiting it gives a
    promise, here the way it will settle.  The operation is run where it
    is started: what it does later only touches what the rest of the
    caller does not. *)
Definition start {W A} (m : M W A) : M W (completion A) := λ w,
  match m w with
  | (r, w') => (Normal r, w')
  end.

(** [await p] *)
Definition await {W A} (p : completion A) : M W A := λ w, (p, w).

(** [Promise.all]: the values when every promise is fulfilled, the
    first rejection of the array otherwise. *)
Fixpoint Promise_all {A} (ps : list (completion A)) : completion (list A) :=
  match ps with
  | [] => Normal []
  | Normal a :: rest =>
      match Promise_all rest with
      | Normal l => Normal (a :: l)
      | Throw e => Throw e
      end
  | Throw e :: _ => Throw e
  end.

End Async.
Export Async.

(** ** The client side: Firestore, the browser and the page handlers *)

Module Client.

(** Collections the pages read and write; lineups and events are
    subcollections of a match document. *)
Inductive coll : Type :=
| Matches
| Players
| Competitions
| Lineups (match_id : string)
| Events (match_id : string).

#[export] Instance coll_eq_dec : EqDecision coll.
Proof. solve_decision. Defined.

(** A document is its field map; a database gives every collection its
    documents by id. *)
Abbreviation Doc := (gmap string jsvalue).
Abbreviation Firestore := (coll → gmap string Doc).

Record Toast : Type := {
  title : string;
  description : string;
  destructive : bool;
}.

(** The body sent to the create-user function. *)
Record CreateUserBody : Type := {
  body_email : string;
  body_password : string;
  body_full_name : string;
  body_role : string;
  body_idToken : string;
}.

(** What a handler does to the outside, in the order it does it. *)
Inductive effect : Type :=
| GetDocs (c : coll)
| AddDoc (c : coll) (data : Doc)
| UpdateDoc (c : coll) (id : string) (data : Doc)
| DeleteDoc (c : coll) (id : string)
| Upload (file : string)
| Reauthenticate (email password : string)
| GetIdToken
| FetchCreateUser (body : CreateUserBody)
| Confirm (message : string)
| ShowToast (t : Toast)
| ConsoleError (message : string)
| ConsoleLog (message : string)
| SetState (variable : string) (value : jsvalue)
| SetRows (variable : string) (rows : list (string * Doc)).

(** The calls that leave the browser. *)
Definition is_backend_call (e : effect) : bool :=
  match e with
  | GetDocs _ | AddDoc _ _ | UpdateDoc _ _ _ | DeleteDoc _ _ | Upload _
  | Reauthenticate _ _ | GetIdToken | FetchCreateUser _ => true
  | _ => false
  end.

Definition is_toast (e : effect) : bool :=
  match e with
  | ShowToast _ => true
  | _ => false
  end.

Record World : Type := {
  db : Firestore;
  trace : list effect;
  tick : nat;
}.

(** The answer of the create-user function: [response.ok] and the
    fields of the JSON body the page reads. *)
Record CreateUserResponse : Type := {
  response_ok : bool;
  data_error : string;
  data_user_email : string;
  data_user_full_name : string;
  data_user_role : string;
}.

(** The answers of everything outside the page.  [fails n] is the error
    message with which the [n]-th backend call is rejected, if it is;
    the other fields are what the [n]-th call yields when it is
    fulfilled, what the administrator answers to a confirm dialog, and
    the place of a document in the index of a collection on a field,
    ascending or descending. *)
Record Backend : Type := {
  fails : nat → option string;
  auto_id : nat → string;
  upload_result : nat → string * string;
  id_token : nat → string;
  response : nat → CreateUserResponse;
  confirm_answer : string → bool;
  index_rank : coll → string → bool → string * Doc → nat;
}.

(** What the language and its libraries compute for the pages: the Date
    constructor on a string, ToNumber on a string and on a Timestamp of
    the SDK, the ISO and the date-fns rendering of a time value, the
    translations, and the reading of the clock. *)
Record Host : Type := {
  Date_parse : string → Date;
  StringToNumber : string → jsnum;
  TimestampToNumber : Z → Z → jsnum;
  iso_string : Z → string;
  format_PPPp : Z → string;
  translate : string → list (string * jsvalue) → string;
  now : Z;
}.

(** *** Primitives *)

Section primitives.

Variable B : Backend.
Variable host : Host.

Definition emit (e : effect) : M World unit := λ w,
  (Normal (), {| db := db w; trace := trace w ++ [e]; tick := tick w |}).

(** A backend call is issued when the SDK function is called: it is
    written to the trace, takes the next answer of the oracle and, when
    fulfilled, acts on the store.  The result is the promise. *)
Definition call {A} (e : effect) (run : nat → Firestore → completion A * Firestore)
  : M World (completion A) := λ w,
  let n := tick w in
  match fails B n with
  | Some message =>
      (Normal (Throw message), {| db := db w; trace := trace w ++ [e]; tick := S n |})
  | None =>
      match run n (db w) with
      | (r, d) => (Normal r, {| db := d; trace := trace w ++ [e]; tick := S n |})
      end
  end.

(** The snapshot lists the documents of the collection, each once, in
    the order of the backend. *)
Definition getDocs (c : coll) : M World (completion (list (string * Doc))) :=
  call (GetDocs c) (λ _ d, (Normal (map_to_list (d c)), d)).

(** The order of the backend's index of a collection on a field. *)
Definition index_le (c : coll) (field : string) (descending : bool)
  : relation (string * Doc) :=
  λ a b, (index_rank B c field descending a ≤ index_rank B c field descending b)%nat.

#[export] Instance index_le_dec c field descending :
  RelDecision (index_le c field descending).
Proof. intros a b. unfold index_le. apply _. Defined.

(** [getDocs(query(collection, orderBy(field, direction)))]: only the
    documents that have the field are listed, in the order of the
    index. *)
Definition getDocs_orderBy (c : coll) (field : string) (descending : bool)
  : M World (completion (list (string * Doc))) :=
  call (GetDocs c)
    (λ _ d,
       (Normal
          (merge_sort (index_le c field descending)
             (filter (λ doc, is_Some (doc.2 !! field)) (map_to_list (d c)))),
        d)).

Definition deleteDoc (c : coll) (id : string) : M World (completion unit) :=
  call (DeleteDoc c id) (λ _ d, (Normal (), <[c := delete id (d c)]> d)).

Definition addDoc (c : coll) (data : Doc) : M World (completion string) :=
  call (AddDoc c data)
    (λ n d, (Normal (auto_id B n), <[c := <[auto_id B n := data]> (d c)]> d)).

(** [updateDoc] merges the given fields into a document that exists and
    is rejected when there is none. *)
Definition updateDoc (c : coll) (id : string) (data : Doc) : M World (completion unit) :=
  call (UpdateDoc c id data)
    (λ _ d, match d c !! id with
            | Some old => (Normal (), <[c := <[id := data ∪ old]> (d c)]> d)
            | None => (Throw "No document to update", d)
            end).

Definition uploadToCloudinary (file : string) : M World (completion (string * string)) :=
  call (Upload file) (λ n d, (Normal (upload_result B n), d)).

Definition toast (title description : string) (destructive : bool) : M World unit :=
  emit (ShowToast {| title := title; description := description; destructive := destructive |}).

Definition window_confirm (message : string) : M World bool :=
  emit (Confirm message) ≫= λ _, mret (confirm_answer B message).

Definition setState (variable : string) (value : jsvalue) : M World unit :=
  emit (SetState variable value).

(** [d.toISOString()]: a RangeError on the invalid date. *)
Definition toISOString (d : Date) : completion string :=
  match d with
  | Some ms => Normal (iso_string host ms)
  | None => Throw "Invalid time value"
  end.

(** [new Date().toISOString()] *)
Definition now_iso : string := iso_string host (now host).

(** date-fns [format(d, 'PPP p')]: a RangeError on the invalid date. *)
Definition format (d : Date) : completion string :=
  match d with
  | Some ms => Normal (format_PPPp host ms)
  | None => Throw "Invalid time value"
  end.

(** ToNumber.  A plain object goes through ToPrimitive, which calls
    [valueOf] and then [toString].  A field of the document with one of
    these names hides the method of [Object.prototype] and is not
    callable.  Without a [toString] of its own the object is read as
    "[object Object]", which is not a number; with one, no method is
    left to call and a TypeError is thrown.  A Timestamp is converted by
    the methods of the SDK's class. *)
Definition ToNumber (v : jsvalue) : completion jsnum :=
  match v with
  | VUndefined => Normal NaN
  | VNull => Normal (Num 0)
  | VBool b => Normal (Num (if b then 1 else 0))
  | VNumber n => Normal n
  | VString s => Normal (StringToNumber host s)
  | VTimestamp s n => Normal (TimestampToNumber host s n)
  | VObject fields =>
      if bool_decide (is_Some (assoc "toString" fields))
      then Throw "TypeError: Cannot convert object to primitive value"
      else Normal NaN
  end.

(** [new Date(n)] for the result of a conversion to a number *)
Definition new_Date (n : completion jsnum) : completion Date :=
  match n with
  | Normal n => Normal (TimeClip n)
  | Throw e => Throw e
  end.

(** [v * 1000] *)
Definition times_1000 (v : jsvalue) : completion jsnum :=
  match ToNumber v with
  | Normal n => Normal (mul n (Num 1000))
  | Throw e => Throw e
  end.

(** *** toDate (ManageMatches.tsx, and the same helper on the other pages) *)

Definition toDate (value : jsvalue) : completion Date :=
  if instanceof_Timestamp value then call_toDate value
  else if String.eqb (typeof value) "string" then
    match value with
    | VString s => Normal (Date_parse host s)
    | _ => new_Date (ToNumber value)
    end
  else
    match (if truthy value && String.eqb (typeof value) "object"
           then js_in "seconds" value else Normal false) with
    | Throw e => Throw e
    | Normal true =>
        match get "seconds" value with
        | Normal seconds => new_Date (times_1000 seconds)
        | Throw e => Throw e
        end
    | Normal false => Normal (Some (now host))
    end.

(** [!id] for an optional string *)
Definition no_id (id : option string) : bool :=
  match id with
  | Some s => String.eqb s ""
  | None => true
  end.

(** [{ id: doc.id, ...doc.data() }] *)
Definition with_id (row : string * Doc) : string * Doc :=
  (row.1, row.2 ∪ {[ "id" := VString row.1 ]}).

End primitives.

(** The player rows of firestore-types.ts. *)
Record Player : Type := {
  player_id : option string;
  full_name : string;
  position : string;
  jersey_number : jsnum;
  player_email : option string;
  avatar_url : option string;
  image_public_id : option string;
  is_active : bool;
}.

(** *** Vocabulary of the statements *)

(** What a handler added to the trace. *)
Definition effects_since (w w' : World) : list effect :=
  drop (List.length (trace w)) (trace w').

Definition backend_calls (es : list effect) : list effect :=
  filter (λ e, is_backend_call e = true) es.

Definition toasts (es : list effect) : list effect :=
  filter (λ e, is_toast e = true) es.

(** The ids of the documents of a collection, as a snapshot lists them. *)
Definition keys (d : Firestore) (c : coll) : list string := (map_to_list (d c)).*1.

(** The [len] backend calls numbered from [n] are all fulfilled. *)
Definition fulfilled_from (B : Backend) (n len : nat) : Prop :=
  ∀ i, (i < len)%nat → fails B (n + i) = None.

Definition fulfilled {A} (r : completion A) : Prop :=
  match r with
  | Normal _ => True
  | Throw _ => False
  end.

Definition all_fulfilled {A} (rs : list (completion A)) : Prop :=
  ∃ l, Promise_all rs = Normal l.

(** [m] keeps the invariant [Inv] of the store whatever the backend
    answers, and a value it returns satisfies [Q]. *)
Definition hoare (Inv : Firestore → Prop) {A} (m : M World A) (Q : A → Prop) : Prop :=
  ∀ w, Inv (db w) → Inv (db (m w).2) ∧ ∀ a, (m w).1 = Normal a → Q a.



End Client.
Export Client.

(** ** ManageMatches.tsx *)

Module ManageMatches.

Section handlers.

Variable B : Backend.
Variable host : Host.

(** The fields of a match row the handlers read. *)
Record MatchWithDetails : Type := {
  match_id : option string;
  opponent : string;
  match_date : jsvalue;
  is_visible : jsvalue;
}.

(** The form of the schedule dialog. *)
Record MatchForm : Type := {
  form_opponent : string;
  form_matchDate : string;
  form_matchTime : string;
  form_stadium : string;
  form_competitionId : string;
  form_kitColor : string;
}.

Definition competition (id name : string) : string * Doc :=
  (id, list_to_map [("id", VString id); ("name", VString name);
                    ("created_at", VString (now_iso host))]).

Definition defaultCompetitions : list (string * Doc) :=
  [ competition "league" "League Matches";
    competition "derby" "Derby Matches";
    competition "cup" "Cup Matches";
    competition "international" "International Matches";
    competition "qualification" "Qualification Matches";
    competition "final" "Final Matches";
    competition "friendly" "Friendly Matches" ].

(** [data.competition_id ? competitionsMap.get(data.competition_id) || null : null] *)
Definition joined_competition (competitionsMap : gmap string Doc) (data : Doc) : jsvalue :=
  match data !! "competition_id" with
  | Some (VString k) =>
      if String.eqb k "" then VNull
      else match competitionsMap !! k with
           | Some c => VObject (map_to_list c)
           | None => VNull
           end
  | _ => VNull
  end.

Definition fetchData : M World unit :=
  try_finally
    (try_catch
       (matchesPromise ← getDocs_orderBy B Matches "match_date" true;
        competitionsPromise ← getDocs B Competitions;
        matchesSnapshot ← await matchesPromise;
        competitionsSnapshot ← await competitionsPromise;
        let fromDb := with_id <$> competitionsSnapshot in
        let competitionsMap : gmap string Doc :=
          list_to_map (defaultCompetitions ++ fromDb) in
        let competitionsData :=
          defaultCompetitions ++
          filter (λ row, row.1 ∉ defaultCompetitions.*1) fromDb in
        let matchesData :=
          (λ row, (row.1, <["competitions" := joined_competition competitionsMap row.2]>
                            (with_id row).2)) <$> matchesSnapshot in
        emit (SetRows "matches" matchesData);;
        emit (SetRows "competitions" competitionsData))
       (λ error, emit (ConsoleError "Error fetching data:")))
    (setState "isLoading" (VBool false)).

Definition resetForm : M World unit :=
  setState "opponent" (VString "");;
  setState "matchDate" (VString "");;
  setState "matchTime" (VString "");;
  setState "stadium" (VString "");;
  setState "competitionId" (VString "");;
  setState "kitColor" (VString "").

Definition handleSubmit (f : MatchForm) : M World unit :=
  setState "isSubmitting" (VBool true);;
  try_finally
    (try_catch
       (let dateTime := Date_parse host (form_matchDate f +:+ "T" +:+ form_matchTime f) in
        match_date ← await (toISOString host dateTime);
        added ← addDoc B Matches (list_to_map
          [ ("opponent", VString (trim (form_opponent f)));
            ("match_date", VString match_date);
            ("stadium", or_null (trim (form_stadium f)));
            ("competition_id", or_null (form_competitionId f));
            ("kit_color", or_null (trim (form_kitColor f)));
            ("status", VString "upcoming");
            ("goals_scored", VNull);
            ("goals_conceded", VNull);
            ("points_earned", VNull);
            ("is_visible", VBool true);
            ("created_at", VString (now_iso host));
            ("updated_at", VString (now_iso host)) ]);
        _ ← await added;
        toast "Match Scheduled"
          ("Match against " +:+ form_opponent f +:+ " has been scheduled.") false;;
        setState "isDialogOpen" (VBool false);;
        resetForm;;
        _ ← start fetchData;
        mret ())
       (λ message,
          toast "Error" (or_default message "Failed to schedule match.") true))
    (setState "isSubmitting" (VBool false)).

(** [match.is_visible !== false] *)
Definition not_false (v : jsvalue) : bool :=
  match v with
  | VBool false => false
  | _ => true
  end.

Definition toggleVisibility (m : MatchWithDetails) : M World unit :=
  if no_id (match_id m) then mret () else
  let id := default "" (match_id m) in
  try_catch
    (let newVisibility := negb (not_false (is_visible m)) in
     updated ← updateDoc B Matches id {[ "is_visible" := VBool newVisibility ]};
     _ ← await updated;
     toast (if newVisibility then "Match Visible" else "Match Hidden")
       ("Match vs " +:+ opponent m +:+ " is now " +:+
        (if newVisibility then "visible" else "hidden") +:+ " to users.") false;;
     _ ← start fetchData;
     mret ())
    (λ message,
       toast "Error" (or_default message "Failed to update visibility.") true).

(** The text of the confirmation dialog. *)
Definition confirmation (m : MatchWithDetails) (formatted : string) : string :=
  "Are you sure you want to delete the match against " +:+ opponent m +:+ "?"
  +:+ newline +:+ newline +:+ "Date: " +:+ formatted +:+ newline
  +:+ "This will also delete all associated lineups and events." +:+ newline
  +:+ "This action cannot be undone.".

Definition deleteMatch (m : MatchWithDetails) : M World unit :=
  if no_id (match_id m) then mret () else
  let id := default "" (match_id m) in
  date ← await (toDate host (match_date m));
  formatted ← await (format host date);
  confirmed ← window_confirm B (confirmation m formatted);
  if negb confirmed then mret () else
  try_catch
    (lineupsPromise ← getDocs B (Lineups id);
     eventsPromise ← getDocs B (Events id);
     lineupsSnapshot ← await lineupsPromise;
     eventsSnapshot ← await eventsPromise;
     lineupDeletions ← mapM (λ doc, deleteDoc B (Lineups id) doc.1) lineupsSnapshot;
     eventDeletions ← mapM (λ doc, deleteDoc B (Events id) doc.1) eventsSnapshot;
     _ ← await (Promise_all (lineupDeletions ++ eventDeletions));
     deleted ← deleteDoc B Matches id;
     _ ← await deleted;
     toast "Match Deleted"
       ("Match against " +:+ opponent m +:+
        " and all associated data have been deleted successfully.") false;;
     _ ← start fetchData;
     mret ())
    (λ message,
       toast "Error" (or_default message "Failed to delete match.") true).

End handlers.

(** *** Vocabulary of the statements *)

(** How a confirmed [deleteMatch] on match [id] can end, in terms of the
    answers of the backend; [asked] is what it does before the first
    deletion. *)
Inductive delete_outcome (B : Backend) (id : string) (w w' : World) (asked : list effect)
  : Prop :=
| snapshot_failed t :
    fails B (tick w) ≠ None ∨ fails B (S (tick w)) ≠ None →
    destructive t = true →
    effects_since w w' = asked ++ [ShowToast t] →
    (∀ c, db w' c = db w c) →
    delete_outcome B id w w' asked
| cleanup_failed t :
    fulfilled_from B (tick w) 2 →
    ¬ fulfilled_from B (2 + tick w)
        (List.length (keys (db w) (Lineups id)) + List.length (keys (db w) (Events id))) →
    destructive t = true →
    effects_since w w'
    = asked ++ (DeleteDoc (Lineups id) <$> keys (db w) (Lineups id))
      ++ (DeleteDoc (Events id) <$> keys (db w) (Events id)) ++ [ShowToast t] →
    db w' Matches = db w Matches →
    delete_outcome B id w w' asked
| match_failed t :
    fulfilled_from B (tick w)
      (2 + List.length (keys (db w) (Lineups id)) + List.length (keys (db w) (Events id))) →
    fails B (2 + tick w + List.length (keys (db w) (Lineups id))
             + List.length (keys (db w) (Events id))) ≠ None →
    destructive t = true →
    effects_since w w'
    = asked ++ (DeleteDoc (Lineups id) <$> keys (db w) (Lineups id))
      ++ (DeleteDoc (Events id) <$> keys (db w) (Events id))
      ++ [DeleteDoc Matches id; ShowToast t] →
    db w' Matches = db w Matches → db w' (Lineups id) = ∅ → db w' (Events id) = ∅ →
    delete_outcome B id w w' asked
| deleted t refresh :
    fulfilled_from B (tick w)
      (3 + List.length (keys (db w) (Lineups id)) + List.length (keys (db w) (Events id))) →
    destructive t = false →
    effects_since w w'
    = asked ++ (DeleteDoc (Lineups id) <$> keys (db w) (Lineups id))
      ++ (DeleteDoc (Events id) <$> keys (db w) (Events id))
      ++ [DeleteDoc Matches id; ShowToast t] ++ refresh →
    backend_calls refresh = [GetDocs Matches; GetDocs Competitions] →
    toasts refresh = [] →
    db w' Matches = delete id (db w Matches) → db w' (Lineups id) = ∅ →
    db w' (Events id) = ∅ →
    delete_outcome B id w w' asked.

(** The three operations of the admin match page. *)
Inductive operation : Type :=
| Schedule (f : MatchForm)
| ToggleVisibility (m : MatchWithDetails)
| DeleteMatch (m : MatchWithDetails).

Definition perform (B : Backend) (host : Host) (op : operation) : M World unit :=
  match op with
  | Schedule f => handleSubmit B host f
  | ToggleVisibility m => toggleVisibility B host m
  | DeleteMatch m => deleteMatch B host m
  end.

(** The backend calls of the operation itself when each is fulfilled;
    the refresh of the list that follows a success is not among them. *)
Definition own_calls (op : operation) (w : World) : nat :=
  match op with
  | Schedule _ | ToggleVisibility _ => 1
  | DeleteMatch m =>
      let id := default "" (match_id m) in
      3 + List.length (keys (db w) (Lineups id)) + List.length (keys (db w) (Events id))
  end.

(** The operation gets as far as its first backend call. *)
Definition reaches_backend (B : Backend) (host : Host) (op : operation) : Prop :=
  match op with
  | Schedule f =>
      ∃ ms, Date_parse host (form_matchDate f +:+ "T" +:+ form_matchTime f) = Some ms
  | ToggleVisibility m => no_id (match_id m) = false
  | DeleteMatch m =>
      no_id (match_id m) = false
      ∧ ∃ date formatted,
          toDate host (match_date m) = Normal date
          ∧ format host date = Normal formatted
          ∧ confirm_answer B (confirmation m formatted) = true
  end.

(** One of the backend calls of the operation is rejected: by the
    backend, or because the document to update is not there. *)
Definition backend_failure (B : Backend) (host : Host) (op : operation) (w : World) : Prop :=
  reaches_backend B host op
  ∧ (¬ fulfilled_from B (tick w) (own_calls op w)
     ∨ match op with
       | ToggleVisibility m => db w Matches !! default "" (match_id m) = None
       | _ => False
       end).

(** A document of the match: the match document itself, or one of its
    lineup or event entries. *)
Definition of_match (id : string) (c : coll) (k : string) : Prop :=
  match c with
  | Lineups m | Events m => m = id
  | Matches => k = id
  | Players | Competitions => False
  end.

(** [d] is [d0] with some documents of the match removed. *)
Definition only_match_removed (id : string) (d0 d : Firestore) : Prop :=
  ∀ c k, d c !! k = d0 c !! k ∨ (d c !! k = None ∧ of_match id c k).

End ManageMatches.

(** ** ManagePlayers.tsx *)

Module ManagePlayers.

Section handlers.

Variable B : Backend.
Variable host : Host.

(** The form of the player dialog; [avatarFile] is the file picked, if
    any, and [editingPlayer] the row being edited, if any. *)
Record PlayerForm : Type := {
  fullName : string;
  form_position : string;
  jerseyNumber : string;
  form_email : string;
  avatarFile : option string;
  editingPlayer : option Player;
}.

(** The jersey-number input of the dialog, as the JSX declares it. *)
Record InputAttributes : Type := {
  input_type : string;
  input_min : option string;
  input_max : option string;
  input_required : bool;
}.

Definition jerseyNumberInput : InputAttributes :=
  {| input_type := "number"; input_min := Some "1"; input_max := Some "99";
     input_required := true |}.

(** [x || null] for an optional string *)
Definition opt_or_null (x : option string) : jsvalue :=
  match x with
  | Some s => or_null s
  | None => VNull
  end.

Definition fetchPlayers : M World unit :=
  try_finally
    (try_catch
       (promise ← getDocs_orderBy B Players "jersey_number" false;
        snapshot ← await promise;
        emit (SetRows "players" (with_id <$> snapshot)))
       (λ error, emit (ConsoleError "Error fetching players:")))
    (setState "isLoading" (VBool false)).

Definition resetForm : M World unit :=
  setState "fullName" (VString "");;
  setState "position" (VString "midfielder");;
  setState "jerseyNumber" (VString "");;
  setState "email" (VString "");;
  setState "editingPlayer" VNull;;
  setState "avatarFile" VNull;;
  setState "avatarPreview" VNull.

Definition playerData (f : PlayerForm) (avatarUrl imagePublicId : jsvalue) : Doc :=
  list_to_map
    [ ("full_name", VString (trim (fullName f)));
      ("position", VString (form_position f));
      ("jersey_number", VNumber (parseInt (jerseyNumber f)));
      ("email", or_null (trim (form_email f)));
      ("avatar_url", avatarUrl);
      ("image_public_id", imagePublicId);
      ("updated_at", VString (now_iso host)) ].

(** [editingPlayer && editingPlayer.id], as the id to update if any *)
Definition editing_id (f : PlayerForm) : option string :=
  match editingPlayer f with
  | Some p => if no_id (player_id p) then None else player_id p
  | None => None
  end.

Definition handleSubmit (f : PlayerForm) : M World unit :=
  setState "isSubmitting" (VBool true);;
  try_finally
    (try_catch
       (let avatarUrl0 := opt_or_null (editingPlayer f ≫= avatar_url) in
        let imagePublicId0 := opt_or_null (editingPlayer f ≫= image_public_id) in
        avatar ←
          match avatarFile f with
          | Some file =>
              uploading ← uploadToCloudinary B file;
              uploadResult ← await uploading;
              mret (VString uploadResult.1, VString uploadResult.2)
          | None => mret (avatarUrl0, imagePublicId0)
          end;
        let data := playerData f avatar.1 avatar.2 in
        match editing_id f with
        | Some id =>
            updated ← updateDoc B Players id data;
            _ ← await updated;
            toast (translate host "players.playerUpdated" [])
              (translate host "players.playerUpdatedDesc" [("name", VString (fullName f))])
              false
        | None =>
            added ← addDoc B Players
              (<["created_at" := VString (now_iso host)]> (<["is_active" := VBool true]> data));
            _ ← await added;
            toast (translate host "players.playerAdded" [])
              (translate host "players.playerAddedDesc" [("name", VString (fullName f))])
              false
        end;;
        setState "isDialogOpen" (VBool false);;
        resetForm;;
        _ ← start fetchPlayers;
        mret ())
       (λ message,
          toast (translate host "common.error" [])
            (or_default message (translate host "players.failedToSave" [])) true))
    (setState "isSubmitting" (VBool false)).

(** [lineupData.player_id === player.id], the right side a string *)
Definition references (id : string) (data : Doc) : bool :=
  match data !! "player_id" with
  | Some (VString s) => String.eqb s id
  | _ => false
  end.

(** The [forEach] over a subcollection snapshot: a deletion is started
    for every document that references the player. *)
Definition cleanup (c : coll) (id : string) (snapshot : list (string * Doc))
  : M World (list (completion unit)) :=
  mapM (λ doc, deleteDoc B c doc.1) (filter (λ doc, references id doc.2 = true) snapshot).

(** The body of the loop over the matches: the promises pushed to
    [cleanupPromises] for one match. *)
Definition cleanup_match (id : string) (matchDoc : string * Doc)
  : M World (list (completion unit)) :=
  let matchId := matchDoc.1 in
  lineupsPromise ← getDocs B (Lineups matchId);
  lineupsSnapshot ← await lineupsPromise;
  lineupDeletions ← cleanup (Lineups matchId) id lineupsSnapshot;
  eventsPromise ← getDocs B (Events matchId);
  eventsSnapshot ← await eventsPromise;
  eventDeletions ← cleanup (Events matchId) id eventsSnapshot;
  mret (lineupDeletions ++ eventDeletions).

(** The text of the confirmation dialog. *)
Definition deleteConfirmation (p : Player) : string :=
  translate host "players.deleteConfirmation"
    [ ("name", VString (full_name p));
      ("number", VNumber (jersey_number p));
      ("position", VString (translate host ("squad." +:+ position p) [])) ].

Definition deletePlayer (p : Player) : M World unit :=
  if no_id (player_id p) then mret () else
  let id := default "" (player_id p) in
  confirmed ← window_confirm B (deleteConfirmation p);
  if negb confirmed then mret () else
  try_catch
    (matchesPromise ← getDocs B Matches;
     matchesSnapshot ← await matchesPromise;
     cleanupPromises ← mapM (cleanup_match id) matchesSnapshot;
     _ ← await (Promise_all (List.concat cleanupPromises));
     deleted ← deleteDoc B Players id;
     _ ← await deleted;
     toast (translate host "players.playerDeleted" [])
       (translate host "players.playerDeletedDesc" [("name", VString (full_name p))])
       false;;
     _ ← start fetchPlayers;
     mret ())
    (λ message,
       toast (translate host "common.error" [])
         (or_default message (translate host "players.failedToDelete" [])) true).

Definition togglePlayerStatus (p : Player) : M World unit :=
  if no_id (player_id p) then mret () else
  let id := default "" (player_id p) in
  try_catch
    (updated ← updateDoc B Players id {[ "is_active" := VBool (negb (is_active p)) ]};
     _ ← await updated;
     toast (if is_active p then translate host "players.playerDeactivated" []
            else translate host "players.playerActivated" [])
       (if is_active p
        then translate host "players.playerDeactivatedDesc" [("name", VString (full_name p))]
        else translate host "players.playerActivatedDesc" [("name", VString (full_name p))])
       false;;
     _ ← start fetchPlayers;
     mret ())
    (λ message,
       toast (translate host "common.error" [])
         (or_default message (translate host "players.failedToUpdateStatus" [])) true).

End handlers.

(** The state of the dialog: the form, the preview of the picture and
    whether the dialog is open. *)
Record Dialog : Type := {
  form : PlayerForm;
  avatarPreview : jsvalue;
  isDialogOpen : bool;
}.

(** [openEditDialog] fills the form from the row; the file picked, which
    it does not set, stays what it was.  [engine] is the text the
    engine prints for a number from 2^53 on, as in [Number_toString]. *)
Definition openEditDialog (engine : Z → string) (player : Player) (d : Dialog)
  : Dialog :=
  {| form := {| fullName := full_name player;
                form_position := position player;
                jerseyNumber := Number_toString engine (jersey_number player);
                form_email := default "" (player_email player);
                avatarFile := avatarFile (form d);
                editingPlayer := Some player |};
     avatarPreview := opt_or_null (avatar_url player);
     isDialogOpen := true |}.

(** *** Vocabulary of the statements *)

(** A write of a player document carries the parsed jersey number. *)
Definition writes_jersey (f : PlayerForm) (e : effect) : Prop :=
  match e with
  | AddDoc _ data | UpdateDoc _ _ data =>
      data !! "jersey_number" = Some (VNumber (parseInt (jerseyNumber f)))
  | _ => True
  end.

(** A document of the player: a lineup or event entry that references
    the player, or the player document itself. *)
Definition belongs (id : string) (c : coll) (k : string) (data : Doc) : Prop :=
  match c with
  | Lineups _ | Events _ => references id data = true
  | Players => k = id
  | Matches | Competitions => False
  end.

(** [d] is [d0] with some documents of the player removed. *)
Definition only_removed (id : string) (d0 d : Firestore) : Prop :=
  ∀ c k, d c !! k = d0 c !! k
         ∨ (d c !! k = None ∧ ∃ data, d0 c !! k = Some data ∧ belongs id c k data).

(** The documents of a subcollection that do not reference the player. *)
Definition cleaned (id : string) (docs : gmap string Doc) : gmap string Doc :=
  filter (λ kv, references id kv.2 = false) docs.

Definition subcollection (c : coll) : Prop :=
  match c with
  | Lineups _ | Events _ => True
  | _ => False
  end.

(** The reads and deletions of the clean-up loop. *)
Definition is_cleanup (e : effect) : Prop :=
  match e with
  | GetDocs c | DeleteDoc c _ => subcollection c
  | _ => False
  end.

(** A save is rejected: the upload of the picture or the write is, or
    the document to update is not there. *)
Definition save_rejected (B : Backend) (f : PlayerForm) (w : World) : Prop :=
  match avatarFile f with
  | Some _ => fails B (tick w) ≠ None ∨ fails B (S (tick w)) ≠ None
  | None => fails B (tick w) ≠ None
  end
  ∨ ∃ id, editing_id f = Some id ∧ db w Players !! id = None.

(** The fields a save writes. *)
Definition written : list string :=
  ["full_name"; "position"; "jersey_number"; "email"; "avatar_url"; "image_public_id";
   "updated_at"].

(** From [w] to [w'] no toast was shown and no player document
    changed. *)
Definition silent (w w' : World) : Prop :=
  ∃ delta, trace w' = trace w ++ delta ∧ toasts delta = []
           ∧ db w' Players = db w Players.

End ManagePlayers.

(** ** The two admin pages on one store *)

Module Admin.

(** The operations of the admin match page and of the admin player
    page. *)
Inductive operation : Type :=
| OnMatches (op : ManageMatches.operation)
| SavePlayer (f : ManagePlayers.PlayerForm)
| TogglePlayerStatus (p : Player)
| DeletePlayer (p : Player).

Definition perform (B : Backend) (host : Host) (op : operation) : M World unit :=
  match op with
  | OnMatches op => ManageMatches.perform B host op
  | SavePlayer f => ManagePlayers.handleSubmit B host f
  | TogglePlayerStatus p => ManagePlayers.togglePlayerStatus B host p
  | DeletePlayer p => ManagePlayers.deletePlayer B host p
  end.

(** *** Vocabulary of the statements *)

(** Every lineup and event entry is of a match that exists and names,
    in [player_id], a player that exists. *)
Definition integrity (d : Firestore) : Prop :=
  ∀ m k data,
    d (Lineups m) !! k = Some data ∨ d (Events m) !! k = Some data →
    is_Some (d Matches !! m)
    ∧ ∃ player, data !! "player_id" = Some (VString player)
                ∧ is_Some (d Players !! player).

End Admin.

(** ** CreateUser.tsx *)

Module CreateUser.

Inductive AppRole : Type :=
| admin
| player
| user.

Definition role_name (r : AppRole) : string :=
  match r with
  | admin => "admin"
  | player => "player"
  | user => "user"
  end.

#[export] Instance AppRole_eq_dec : EqDecision AppRole.
Proof. solve_decision. Defined.

(** The state variables of the component. *)
Record State : Type := {
  email : string;
  password : string;
  fullName : string;
  role : AppRole;
  currentPassword : string;
  isPasswordDialogOpen : bool;
  isSubmitting : bool;
  isVerifyingPassword : bool;
  createdUser : option (string * string * string);
}.

(** The signed-in administrator: [user] of the auth context (with its
    email, which may be null) and whether [auth.currentUser] is set. *)
Record Session : Type := {
  currentUser : option (option string);
  auth_currentUser : bool;
}.

(** A handler runs on the state of the render that created it and
    schedules the next state. *)
Record Page : Type := {
  next : State;
  world : World;
}.

Inductive event : Type :=
| ChangeFullName (value : string)
| ChangeEmail (value : string)
| ChangePassword (value : string)
| ChangeRole (value : AppRole)
| Submit
| ChangeCurrentPassword (value : string)
| Verify
| DialogOpenChange (open : bool)
| Cancel.

(** One handler run: the state it saw, the event, the index of its
    first backend call, everything it did, and the state it left. *)
Record Step : Type := {
  before : State;
  trigger : event;
  at_tick : nat;
  effects : list effect;
  after : State;
}.

Section handlers.

Variable B : Backend.
Variable host : Host.
Variable session : Session.

Definition lift {A} (m : M World A) : M Page A := λ p,
  match m (world p) with
  | (r, w) => (r, {| next := next p; world := w |})
  end.

Definition set (f : State → State) : M Page unit := λ p,
  (Normal (), {| next := f (next p); world := world p |}).

Definition setEmail (v : string) (s : State) : State :=
  {| email := v; password := password s; fullName := fullName s; role := role s;
     currentPassword := currentPassword s;
     isPasswordDialogOpen := isPasswordDialogOpen s; isSubmitting := isSubmitting s;
     isVerifyingPassword := isVerifyingPassword s; createdUser := createdUser s |}.

Definition setPassword (v : string) (s : State) : State :=
  {| email := email s; password := v; fullName := fullName s; role := role s;
     currentPassword := currentPassword s;
     isPasswordDialogOpen := isPasswordDialogOpen s; isSubmitting := isSubmitting s;
     isVerifyingPassword := isVerifyingPassword s; createdUser := createdUser s |}.

Definition setFullName (v : string) (s : State) : State :=
  {| email := email s; password := password s; fullName := v; role := role s;
     currentPassword := currentPassword s;
     isPasswordDialogOpen := isPasswordDialogOpen s; isSubmitting := isSubmitting s;
     isVerifyingPassword := isVerifyingPassword s; createdUser := createdUser s |}.

Definition setRole (v : AppRole) (s : State) : State :=
  {| email := email s; password := password s; fullName := fullName s; role := v;
     currentPassword := currentPassword s;
     isPasswordDialogOpen := isPasswordDialogOpen s; isSubmitting := isSubmitting s;
     isVerifyingPassword := isVerifyingPassword s; createdUser := createdUser s |}.

Definition setCurrentPassword (v : string) (s : State) : State :=
  {| email := email s; password := password s; fullName := fullName s; role := role s;
     currentPassword := v;
     isPasswordDialogOpen := isPasswordDialogOpen s; isSubmitting := isSubmitting s;
     isVerifyingPassword := isVerifyingPassword s; createdUser := createdUser s |}.

Definition setIsPasswordDialogOpen (v : bool) (s : State) : State :=
  {| email := email s; password := password s; fullName := fullName s; role := role s;
     currentPassword := currentPassword s;
     isPasswordDialogOpen := v; isSubmitting := isSubmitting s;
     isVerifyingPassword := isVerifyingPassword s; createdUser := createdUser s |}.

Definition setIsSubmitting (v : bool) (s : State) : State :=
  {| email := email s; password := password s; fullName := fullName s; role := role s;
     currentPassword := currentPassword s;
     isPasswordDialogOpen := isPasswordDialogOpen s; isSubmitting := v;
     isVerifyingPassword := isVerifyingPassword s; createdUser := createdUser s |}.

Definition setIsVerifyingPassword (v : bool) (s : State) : State :=
  {| email := email s; password := password s; fullName := fullName s; role := role s;
     currentPassword := currentPassword s;
     isPasswordDialogOpen := isPasswordDialogOpen s; isSubmitting := isSubmitting s;
     isVerifyingPassword := v; createdUser := createdUser s |}.

Definition setCreatedUser (v : option (string * string * string)) (s : State) : State :=
  {| email := email s; password := password s; fullName := fullName s; role := role s;
     currentPassword := currentPassword s;
     isPasswordDialogOpen := isPasswordDialogOpen s; isSubmitting := isSubmitting s;
     isVerifyingPassword := isVerifyingPassword s; createdUser := v |}.

(** [auth.currentUser?.getIdToken()]: [undefined] with nobody signed in. *)
Definition getIdToken : M World (completion (option string)) :=
  if auth_currentUser session
  then call B GetIdToken (λ n d, (Normal (Some (id_token B n)), d))
  else mret (Normal None).

(** [fetch] of the create-user function followed by [response.json()]. *)
Definition fetch_create_user (body : CreateUserBody) : M World (completion CreateUserResponse) :=
  call B (FetchCreateUser body) (λ n d, (Normal (response B n), d)).

(** [reauthenticateWithCredential(auth.currentUser!, credential)]: the
    SDK throws on a null user before anything is sent. *)
Definition reauthenticateWithCredential (email : option string) (password : string)
  : M World (completion unit) :=
  if auth_currentUser session
  then call B (Reauthenticate (default "" email) password) (λ _ d, (Normal (), d))
  else mret (Throw "TypeError: Cannot read properties of null").

Definition proceedWithUserCreation (s : State) : M Page unit :=
  set (setIsSubmitting true);;
  set (setCreatedUser None);;
  try_finally
    (try_catch
       (tokenPromise ← lift getIdToken;
        idToken ← await tokenPromise;
        token ←
          match idToken with
          | Some tok => if String.eqb tok "" then throw "Not authenticated" else mret tok
          | None => throw "Not authenticated"
          end;
        responsePromise ← lift (fetch_create_user
          {| body_email := email s; body_password := password s;
             body_full_name := fullName s; body_role := role_name (role s);
             body_idToken := token |});
        response ← await responsePromise;
        if negb (response_ok response)
        then throw (or_default (data_error response)
                      (translate host "users.failedToCreateUser" []))
        else
          set (setCreatedUser (Some (data_user_email response,
                                     data_user_full_name response,
                                     data_user_role response)));;
          lift (toast (translate host "users.userCreatedSuccessfully" [])
                  (translate host "users.userAddedAsRole"
                     [ ("name", VString (fullName s));
                       ("role", VString (translate host
                                  ("users.roles." +:+ role_name (role s)) [])) ])
                  false);;
          set (setEmail "");;
          set (setPassword "");;
          set (setFullName "");;
          set (setRole user);;
          set (setCurrentPassword ""))
       (λ message,
          lift (emit (ConsoleError "Error creating user:"));;
          lift (toast (translate host "common.error" [])
                  (or_default message (translate host "common.operationFailed" []))
                  true)))
    (set (setIsSubmitting false)).

Definition verifyCurrentPassword (s : State) : M Page unit :=
  match currentUser session with
  | Some user_email =>
      if String.eqb (trim (currentPassword s)) ""
      then lift (toast (translate host "common.error" [])
                   (translate host "security.passwordRequired" []) true)
      else
        set (setIsVerifyingPassword true);;
        try_finally
          (try_catch
             (reauthenticated ← lift (reauthenticateWithCredential user_email
                                        (currentPassword s));
              _ ← await reauthenticated;
              lift (emit (ConsoleLog
                "Password verification successful for creating admin user"));;
              lift (toast (translate host "security.passwordVerified" [])
                      (translate host "security.canNowActionAdmin"
                         [("action", VString (toLowerCase
                                                (translate host "common.create" [])))])
                      false);;
              set (setIsPasswordDialogOpen false);;
              _ ← start (proceedWithUserCreation s);
              mret ())
             (λ message,
                lift (emit (ConsoleError "Password verification failed:"));;
                lift (toast (translate host "security.incorrectPassword" [])
                        (translate host "security.incorrectPasswordMessage" [])
                        true)))
          (set (setIsVerifyingPassword false))
  | None =>
      lift (toast (translate host "common.error" [])
              (translate host "security.passwordRequired" []) true)
  end.

Definition handleSubmit (s : State) : M Page unit :=
  if decide (role s = admin) then
    lift (emit (ConsoleLog "Creating admin user, requiring password verification"));;
    set (setIsPasswordDialogOpen true)
  else
    _ ← start (proceedWithUserCreation s);
    mret ().

(** The handler the JSX attaches to each event. *)
Definition handler (ev : event) (s : State) : M Page unit :=
  match ev with
  | ChangeFullName v => set (setFullName v)
  | ChangeEmail v => set (setEmail v)
  | ChangePassword v => set (setPassword v)
  | ChangeRole v => set (setRole v)
  | Submit => handleSubmit s
  | ChangeCurrentPassword v => set (setCurrentPassword v)
  | Verify => verifyCurrentPassword s
  | DialogOpenChange open =>
      set (setIsPasswordDialogOpen open);;
      if open then mret () else set (setCurrentPassword "")
  | Cancel =>
      set (setIsPasswordDialogOpen false);;
      set (setCurrentPassword "")
  end.

(** One event: the handler of the current render runs on its state,
    from an empty trace. *)
Definition dispatch (ev : event) (s : State) (w : World) : Page :=
  (handler ev s {| next := s;
                   world := {| db := db w; trace := []; tick := tick w |} |}).2.

(** A session on the page: the handler runs in the order of the events. *)
Fixpoint run (evs : list event) (s : State) (w : World) : list Step :=
  match evs with
  | [] => []
  | ev :: rest =>
      let p := dispatch ev s w in
      {| before := s; trigger := ev; at_tick := tick w; effects := trace (world p);
         after := next p |}
      :: run rest (next p) (world p)
  end.

End handlers.

(** *** Vocabulary of the statements *)

Definition is_create_request (r : AppRole) (e : effect) : Prop :=
  match e with
  | FetchCreateUser body => body_role body = role_name r
  | _ => False
  end.

Definition is_reauthentication (e : effect) : Prop :=
  match e with
  | Reauthenticate _ _ => True
  | _ => False
  end.

(** The request the page sends for the form in state [s]. *)
Definition create_request (s : State) (token : string) : effect :=
  FetchCreateUser {| body_email := email s; body_password := password s;
                     body_full_name := fullName s; body_role := role_name (role s);
                     body_idToken := token |}.

(** The gate, for one handler run.  A request for an administrator
    account is only in a run that began by re-authenticating with the
    email of the signed-in user and the password entered, and that call
    was fulfilled.  Submitting the form for an administrator sends
    nothing.  Submitting it for another role never re-authenticates,
    leaves the password dialog as it is, and sends the request as soon as
    the token is there. *)
Definition gated (B : Backend) (session : Session) (st : Step) : Prop :=
  (∀ e, e ∈ effects st → is_create_request admin e →
     role (before st) = admin
     ∧ ∃ user_email rest,
         currentUser session = Some user_email
         ∧ effects st
           = Reauthenticate (default "" user_email) (currentPassword (before st)) :: rest
         ∧ fails B (at_tick st) = None)
  ∧ (trigger st = Submit → role (before st) = admin →
       Forall (λ e, is_backend_call e = false) (effects st))
  ∧ (trigger st = Submit → role (before st) ≠ admin →
       Forall (λ e, ¬ is_reauthentication e) (effects st)
       ∧ isPasswordDialogOpen (after st) = isPasswordDialogOpen (before st)
       ∧ (auth_currentUser session = true → fails B (at_tick st) = None →
          id_token B (at_tick st) ≠ "" →
          ∃ rest, effects st
                  = GetIdToken
                    :: create_request (before st) (id_token B (at_tick st)) :: rest)).

(** The creation started at call [n] goes through: somebody is signed
    in, the token is obtained and is not empty, and the create-user
    function answers the request with a successful response. *)
Definition accepted (B : Backend) (session : Session) (n : nat) : Prop :=
  auth_currentUser session = true ∧ fails B n = None ∧ id_token B n ≠ ""
  ∧ fails B (S n) = None ∧ response_ok (response B (S n)) = true.

(** The page is neither submitting nor verifying. *)
Definition quiet (s : State) : Prop :=
  isSubmitting s = false ∧ isVerifyingPassword s = false.

(** Every request of a handler run is sent for somebody signed in, with
    a token, and carries the form the handler started with. *)
Definition well_formed_request (session : Session) (st : Step) : Prop :=
  ∀ body, FetchCreateUser body ∈ effects st →
    auth_currentUser session = true
    ∧ body_idToken body ≠ ""
    ∧ body = {| body_email := email (before st); body_password := password (before st);
                body_full_name := fullName (before st);
                body_role := role_name (role (before st));
                body_idToken := body_idToken body |}.

End CreateUser.

(** ** supabase/functions/bootstrap-admin/index.ts *)

Module BootstrapAdmin.

Record RoleRow : Type := {
  role_user_id : string;
  role : string;
}.

Record ProfileRow : Type := {
  profile_user_id : string;
  profile_full_name : jsvalue;
  profile_email : jsvalue;
}.

Record AuthUser : Type := {
  auth_id : string;
  auth_email : jsvalue;
}.

(** The tables the function touches and its console. *)
Record Server : Type := {
  user_roles : list RoleRow;
  profiles : list ProfileRow;
  auth_users : list AuthUser;
  console : list string;
  tick : nat;
}.

(** The answers of Supabase: [fails n] is the error of the [n]-th call
    if it fails, [new_user_id n] the id given to the user the [n]-th
    call creates; [configured] says whether the two environment
    variables are set. *)
Record Service : Type := {
  fails : nat → option string;
  new_user_id : nat → string;
  configured : bool;
}.

(** A request: its method and what [req.json()] gives. *)
Record Request : Type := {
  method : string;
  json : completion jsvalue;
}.

Record Response : Type := {
  status : Z;
  body : jsvalue;
}.

Definition json_error (message : string) : jsvalue :=
  VObject [("error", VString message)].

Section serve.

Variable service : Service.

Definition console_error (message : string) : M Server unit := λ w,
  (Normal (), {| user_roles := user_roles w; profiles := profiles w;
                 auth_users := auth_users w; console := console w ++ [message];
                 tick := tick w |}).

(** A call to Supabase: [{ data, error }], the tables changed only when
    there is no error. *)
Definition request {A} (run : nat → Server → A * Server) : M Server (A + string) := λ w,
  let n := tick w in
  let w1 := {| user_roles := user_roles w; profiles := profiles w;
               auth_users := auth_users w; console := console w; tick := S n |} in
  match fails service n with
  | Some message => (Normal (inr message), w1)
  | None =>
      match run n w1 with
      | (a, w2) => (Normal (inl a), w2)
      end
  end.

(** [from("user_roles").select("id").eq("role", "admin").limit(1)] *)
Definition select_admins : M Server (list RoleRow + string) :=
  request (λ _ w, (take 1 (filter (λ r, role r = "admin") (user_roles w)), w)).

(** [auth.admin.createUser({ email, password, email_confirm: true })] *)
Definition createUser (email password : jsvalue) : M Server (AuthUser + string) :=
  request (λ n w,
    let u := {| auth_id := new_user_id service n; auth_email := email |} in
    (u, {| user_roles := user_roles w; profiles := profiles w;
           auth_users := auth_users w ++ [u]; console := console w; tick := tick w |})).

Definition insert_profile (row : ProfileRow) : M Server (unit + string) :=
  request (λ _ w,
    ((), {| user_roles := user_roles w; profiles := profiles w ++ [row];
            auth_users := auth_users w; console := console w; tick := tick w |})).

Definition insert_role (row : RoleRow) : M Server (unit + string) :=
  request (λ _ w,
    ((), {| user_roles := user_roles w ++ [row]; profiles := profiles w;
            auth_users := auth_users w; console := console w; tick := tick w |})).

Definition respond (status : Z) (body : jsvalue) : M Server Response :=
  mret {| status := status; body := body |}.

Definition handle (req : Request) : M Server Response :=
  if String.eqb (method req) "OPTIONS" then respond 200 VNull else
  try_catch
    (if negb (configured service) then throw "supabaseUrl is required." else
     checked ← select_admins;
     match checked with
     | inr checkError =>
         console_error "Error checking for existing admins:";;
         respond 500 (json_error "Failed to check existing admins")
     | inl existingAdmins =>
         if bool_decide (0 < List.length existingAdmins)%nat then
           respond 403
             (json_error "An admin already exists. Use the create-user function instead.")
         else
           parsed ← await (json req);
           email ← await (get "email" parsed);
           password ← await (get "password" parsed);
           full_name ← await (get "full_name" parsed);
           if negb (truthy email) || negb (truthy password) || negb (truthy full_name) then
             respond 400
               (json_error "Missing required fields: email, password, full_name")
           else
             created ← createUser email password;
             match created with
             | inr createError =>
                 console_error "Error creating user:";;
                 respond 400 (json_error createError)
             | inl newUser =>
                 profile ← insert_profile
                   {| profile_user_id := auth_id newUser;
                      profile_full_name := full_name; profile_email := email |};
                 (if profile is inr _
                  then console_error "Error creating profile:" else mret ());;
                 assigned ← insert_role
                   {| role_user_id := auth_id newUser; role := "admin" |};
                 (if assigned is inr _
                  then console_error "Error assigning role:" else mret ());;
                 respond 200
                   (VObject
                      [ ("success", VBool true);
                        ("message", VString "Admin account created successfully!");
                        ("user", VObject [ ("id", VString (auth_id newUser));
                                           ("email", auth_email newUser);
                                           ("full_name", full_name) ]) ])
             end
     end)
    (λ error,
       console_error "Error in bootstrap-admin function:";;
       respond 500 (json_error "Internal server error")).

End serve.

(** *** Vocabulary of the statements *)

Definition admin_exists (w : Server) : Prop :=
  Exists (λ r, role r = "admin") (user_roles w).

(** A field of the JSON body, [undefined] when it is missing. *)
Definition field (name : string) (fields : list (string * jsvalue)) : jsvalue :=
  default VUndefined (assoc name fields).

(** The three fields are there and none is empty. *)
Definition all_present (fields : list (string * jsvalue)) : bool :=
  truthy (field "email" fields) && truthy (field "password" fields)
  && truthy (field "full_name" fields).

Definition same_tables (w w' : Server) : Prop :=
  user_roles w' = user_roles w ∧ profiles w' = profiles w
  ∧ auth_users w' = auth_users w.

(** The fields the function can read from a parsed body: none from
    [null] and [undefined], on which the destructuring throws; those of
    an object; no field from any other value. *)
Definition body_fields (parsed : completion jsvalue) : option (list (string * jsvalue)) :=
  match parsed with
  | Normal (VObject fields) => Some fields
  | Normal VNull | Normal VUndefined | Throw _ => None
  | Normal _ => Some []
  end.

Definition internal_error : Response :=
  {| status := 500; body := json_error "Internal server error" |}.

Definition already_exists : Response :=
  {| status := 403;
     body := json_error "An admin already exists. Use the create-user function instead." |}.

Definition missing_fields : Response :=
  {| status := 400;
     body := json_error "Missing required fields: email, password, full_name" |}.

Definition success (id : string) (email full_name : jsvalue) : jsvalue :=
  VObject [ ("success", VBool true);
            ("message", VString "Admin account created successfully!");
            ("user", VObject [ ("id", VString id); ("email", email);
                               ("full_name", full_name) ]) ].

End BootstrapAdmin.

(** ** The match-details page (MatchDetails) *)

Module MatchDetails.

Record MatchLineupWithPlayer : Type := {
  lineup_id : string;
  player_id : string;
  lineup_type : string;
  position_played : string;
}.

Definition positionOrder : list string :=
  ["goalkeeper"; "defender"; "midfielder"; "forward"].

(** [xs.indexOf(x)] *)
Fixpoint indexOf (x : string) (xs : list string) : Z :=
  match xs with
  | [] => -1
  | y :: rest =>
      if String.eqb x y then 0
      else match indexOf x rest with
           | -1 => -1
           | i => i + 1
           end
  end.

(** [Array.prototype.sort] with a comparator: the stable sort. *)
Fixpoint insert_sorted {A} (compare : A → A → Z) (x : A) (sorted : list A) : list A :=
  match sorted with
  | [] => [x]
  | y :: rest =>
      if 0 <? compare x y then y :: insert_sorted compare x rest
      else x :: sorted
  end.

Definition sort {A} (compare : A → A → Z) (xs : list A) : list A :=
  foldr (insert_sorted compare) [] xs.

Definition by_position (a b : MatchLineupWithPlayer) : Z :=
  indexOf (position_played a) positionOrder - indexOf (position_played b) positionOrder.

Definition lineup_of (type : string) (lineups : list MatchLineupWithPlayer)
  : list MatchLineupWithPlayer :=
  sort by_position (filter (λ l, lineup_type l = type) lineups).

Definition firstHalfLineup := lineup_of "first_half".
Definition secondHalfLineup := lineup_of "second_half".
Definition fullTimeLineup := lineup_of "full_time".

(** *** Vocabulary of the statements *)

Definition rank (l : MatchLineupWithPlayer) : Z :=
  indexOf (position_played l) positionOrder.

Definition in_position_order (a b : MatchLineupWithPlayer) : Prop := rank a ≤ rank b.

End MatchDetails.

(** ** The squad page (Squad) *)

Module Squad.

Definition positionOrder : list string :=
  ["goalkeeper"; "defender"; "midfielder"; "forward"].

(** [positionOrder.reduce((acc, position) => { acc[position] =
    players.filter(...); return acc; }, {})] *)
Definition groupedPlayers (players : list Player) : gmap string (list Player) :=
  foldl (λ acc pos, <[pos := filter (λ p, position p = pos) players]> acc)
    ∅ positionOrder.

(** [groupedPlayers[position]] for the positions the page renders; a
    missing key would be [undefined]. *)
Definition group (players : list Player) (pos : string) : list Player :=
  default [] (groupedPlayers players !! pos).

(** *** Vocabulary of the statements *)

(** The position is one of the four values of the type [PlayerPosition]. *)
Definition known_position (p : Player) : Prop := position p ∈ positionOrder.

End Squad.

(** ** The result of a match (ManageMatches.tsx and MatchDetails) *)

Module MatchResult.

(** [number | null | undefined], the type of [goals_scored] and
    [goals_conceded] in firestore-types.ts. *)
Inductive Goals : Type :=
| undefined
| null
| number (n : jsnum).

Record Match : Type := {
  status : string;
  goals_scored : Goals;
  goals_conceded : Goals;
}.

(** [g || 0] *)
Definition or_zero (g : Goals) : jsnum :=
  match g with
  | number (Num z) => if z =? 0 then Num 0 else Num z
  | number (Infinity negative) => Infinity negative
  | number NaN | null | undefined => Num 0
  end.

(** [a > b] on numbers *)
Definition gt (a b : jsnum) : bool :=
  match a, b with
  | Num x, Num y => y <? x
  | Infinity false, (Num _ | Infinity true) => true
  | Num _, Infinity true => true
  | _, _ => false
  end.

(** [a === b] *)
Definition strict_eq (a b : Goals) : bool :=
  match a, b with
  | undefined, undefined | null, null => true
  | number (Num x), number (Num y) => x =? y
  | number (Infinity s), number (Infinity t) => Bool.eqb s t
  | _, _ => false
  end.

Definition isCompleted (m : Match) : bool := String.eqb (status m) "completed".

Definition isWin (m : Match) : bool :=
  isCompleted m && gt (or_zero (goals_scored m)) (or_zero (goals_conceded m)).

Definition isDraw (m : Match) : bool :=
  isCompleted m && strict_eq (goals_scored m) (goals_conceded m).

(** The classes of the score of a completed match in the list of
    ManageMatches.tsx: the operands given to [cn] that are not [false]. *)
Definition scoreClasses (m : Match) : list string :=
  ["px-4 py-2 rounded-lg font-display text-lg font-bold"]
  ++ (if isWin m then ["bg-emerald-500/10 text-emerald-600"] else [])
  ++ (if isDraw m then ["bg-amber-500/10 text-amber-600"] else [])
  ++ (if negb (isWin m) && negb (isDraw m) then ["bg-rose-500/10 text-rose-600"] else []).

(** The classes of the header of the match-details page. *)
Definition headerClasses (m : Match) : list string :=
  [ "p-6 text-center";
    if isCompleted m then
      if isWin m then "bg-gradient-to-br from-emerald-500/20 to-emerald-600/10"
      else if isDraw m then "bg-gradient-to-br from-amber-500/20 to-amber-600/10"
      else "bg-gradient-to-br from-rose-500/20 to-rose-600/10"
    else "bg-gradient-to-br from-primary/20 to-primary/10" ].

(** *** Vocabulary of the statements *)

Inductive Outcome : Type := Won | Drawn | Lost.

Definition score_colour (o : Outcome) : string :=
  match o with
  | Won => "bg-emerald-500/10 text-emerald-600"
  | Drawn => "bg-amber-500/10 text-amber-600"
  | Lost => "bg-rose-500/10 text-rose-600"
  end.

Definition header_colour (o : Outcome) : string :=
  match o with
  | Won => "bg-gradient-to-br from-emerald-500/20 to-emerald-600/10"
  | Drawn => "bg-gradient-to-br from-amber-500/20 to-amber-600/10"
  | Lost => "bg-gradient-to-br from-rose-500/20 to-rose-600/10"
  end.

(** The outcome the two pages show for a completed match. *)
Definition displayed (m : Match) (o : Outcome) : Prop :=
  scoreClasses m = ["px-4 py-2 rounded-lg font-display text-lg font-bold"; score_colour o]
  ∧ headerClasses m = ["p-6 text-center"; header_colour o].

Definition is_number (g : Goals) : bool :=
  match g with
  | number (Num _) | number (Infinity _) => true
  | _ => false
  end.

End MatchResult.

(** ** The initials shown in place of a missing picture
    (ManagePlayers.tsx and the squad page) *)

Module Initials.

(** [s.split(sep)] for a separator of one character; as elsewhere a
    string is its code units below 256. *)
Fixpoint split (sep : ascii) (s : string) : list string :=
  match s with
  | EmptyString => [EmptyString]
  | String c rest =>
      if Ascii.eqb c sep then EmptyString :: split sep rest
      else match split sep rest with
           | piece :: pieces => String c piece :: pieces
           | [] => [String c EmptyString]
           end
  end.

(** [n[0]]: [undefined] for the empty string *)
Definition first (n : string) : option ascii :=
  match n with
  | String c _ => Some c
  | EmptyString => None
  end.

(** [xs.join('')]: an [undefined] element counts as the empty string *)
Fixpoint join (xs : list (option ascii)) : string :=
  match xs with
  | [] => EmptyString
  | Some c :: rest => String c (join rest)
  | None :: rest => join rest
  end.

(** [full_name.split(' ').map(n => n[0]).join('').substring(0, 2)] *)
Definition initials (full_name : string) : string :=
  String.substring 0 2 (join (first <$> split " " full_name)).

(** *** Vocabulary of the statements *)

(** A word: some characters, none of them a space. *)
Fixpoint no_space (s : string) : bool :=
  match s with
  | String c rest => negb (Ascii.eqb c " ") && no_space rest
  | EmptyString => true
  end.

Definition word (s : string) : bool := negb (String.eqb s "") && no_space s.

Fixpoint spaces (s : string) : bool :=
  match s with
  | String c rest => Ascii.eqb c " " && spaces rest
  | EmptyString => true
  end.

(** The first letters of the words of a name, read from the left;
    [inside] says that the characters before belong to a word. *)
Fixpoint letters (inside : bool) (s : string) : string :=
  match s with
  | EmptyString => EmptyString
  | String c rest =>
      if Ascii.eqb c " " then letters false rest
      else if inside then letters true rest else String c (letters true rest)
  end.

End Initials.

(** ** Concrete inputs *)

Module Examples.

(** A backend that fulfils every call and an administrator who confirms. *)
Definition backend : Backend :=
  {| fails := λ _, None;
     auto_id := λ _, "p3";
     upload_result := λ _, ("https://res.cloudinary.com/a.png", "a");
     id_token := λ _, "token";
     response := λ _, {| response_ok := true; data_error := "";
                         data_user_email := "new@club.test";
                         data_user_full_name := "New Member";
                         data_user_role := "admin" |};
     confirm_answer := λ _, true;
     index_rank := λ _ _ _ _, 0%nat |}.

(** The same backend, unreachable: every call is rejected. *)
Definition offline : Backend :=
  {| fails := λ _, Some "unavailable";
     auto_id := auto_id backend;
     upload_result := upload_result backend;
     id_token := id_token backend;
     response := response backend;
     confirm_answer := λ _, true;
     index_rank := index_rank backend |}.

Definition host : Host :=
  {| Date_parse := λ s, if String.eqb s "2026-03-01T18:00" then Some 1772388000000
                        else None;
     StringToNumber := λ _, NaN;
     TimestampToNumber := λ _ _, NaN;
     iso_string := λ _, "2026-03-01T18:00:00.000Z";
     format_PPPp := λ _, "March 1st, 2026 6:00 PM";
     translate := λ key _, key;
     now := 1772388000000 |}.

Definition entry (player : string) : Doc := {[ "player_id" := VString player ]}.

(** One match with two lineup entries and one event, two players. *)
Definition store : Firestore := λ c,
  match c with
  | Matches => {[ "m1" := {[ "opponent" := VString "Rivals" ]} ]}
  | Lineups "m1" => {[ "l1" := entry "p1"; "l2" := entry "p2" ]}
  | Events "m1" => {[ "e1" := entry "p1" ]}
  | Players => {[ "p1" := ∅; "p2" := ∅ ]}
  | _ => ∅
  end.

Definition world : World := {| db := store; trace := []; tick := 0 |}.

(** The same store with a second match, which has a date. *)
Definition calendar : World :=
  {| db := <[Matches := <["m2" := {[ "opponent" := VString "Visitors";
                                    "match_date" := VString "2026-03-01T18:00:00.000Z" ]}]>
                          (store Matches)]> store;
     trace := []; tick := 0 |}.

(** The row of match m1, its date missing. *)
Definition fixture : ManageMatches.MatchWithDetails :=
  {| ManageMatches.match_id := Some "m1"; ManageMatches.opponent := "Rivals";
     ManageMatches.match_date := VUndefined; ManageMatches.is_visible := VBool true |}.

Definition striker : Player :=
  {| player_id := Some "p1"; full_name := "A. Striker"; position := "forward";
     jersey_number := Num 9; player_email := None; avatar_url := None;
     image_public_id := None; is_active := true |}.

(** A row whose position is none of the four. *)
Definition coach : Player :=
  {| player_id := Some "p7"; full_name := "D. Coach"; position := "coach";
     jersey_number := Num 0; player_email := None; avatar_url := None;
     image_public_id := None; is_active := true |}.

Definition keeper : Player :=
  {| player_id := Some "p2"; full_name := "B. Keeper"; position := "goalkeeper";
     jersey_number := Num 1; player_email := None; avatar_url := None;
     image_public_id := None; is_active := true |}.

(** A new player whose jersey number is outside 1-99. *)
Definition new_player : ManagePlayers.PlayerForm :=
  {| ManagePlayers.fullName := "C. Winger"; ManagePlayers.form_position := "forward";
     ManagePlayers.jerseyNumber := "150"; ManagePlayers.form_email := "";
     ManagePlayers.avatarFile := None; ManagePlayers.editingPlayer := None |}.

Definition blank : CreateUser.State :=
  {| CreateUser.email := "new@club.test"; CreateUser.password := "secret1";
     CreateUser.fullName := "New Member"; CreateUser.role := CreateUser.user;
     CreateUser.currentPassword := ""; CreateUser.isPasswordDialogOpen := false;
     CreateUser.isSubmitting := false; CreateUser.isVerifyingPassword := false;
     CreateUser.createdUser := None |}.

Definition signed_in : CreateUser.Session :=
  {| CreateUser.currentUser := Some (Some "admin@club.test");
     CreateUser.auth_currentUser := true |}.

(** Supabase answering every call, and Supabase rejecting the creation
    of the user (the second call of a request). *)
Definition service : BootstrapAdmin.Service :=
  {| BootstrapAdmin.fails := λ _, None; BootstrapAdmin.new_user_id := λ _, "u1";
     BootstrapAdmin.configured := true |}.

Definition service_rejecting_user : BootstrapAdmin.Service :=
  {| BootstrapAdmin.fails := λ n,
       if Nat.eqb n 1
       then Some "A user with this email address has already been registered"
       else None;
     BootstrapAdmin.new_user_id := λ _, "u1"; BootstrapAdmin.configured := true |}.

(** Supabase creating the user and then rejecting both inserts. *)
Definition service_rejecting_inserts : BootstrapAdmin.Service :=
  {| BootstrapAdmin.fails := λ n, if Nat.leb 2 n then Some "permission denied" else None;
     BootstrapAdmin.new_user_id := λ _, "u1"; BootstrapAdmin.configured := true |}.

Definition service_down : BootstrapAdmin.Service :=
  {| BootstrapAdmin.fails := λ _, Some "connection refused";
     BootstrapAdmin.new_user_id := λ _, "u1"; BootstrapAdmin.configured := true |}.

Definition fresh_server : BootstrapAdmin.Server :=
  {| BootstrapAdmin.user_roles := []; BootstrapAdmin.profiles := [];
     BootstrapAdmin.auth_users := []; BootstrapAdmin.console := [];
     BootstrapAdmin.tick := 0 |}.

Definition server_with_admin : BootstrapAdmin.Server :=
  {| BootstrapAdmin.user_roles :=
       [ {| BootstrapAdmin.role_user_id := "u0"; BootstrapAdmin.role := "admin" |} ];
     BootstrapAdmin.profiles := []; BootstrapAdmin.auth_users := [];
     BootstrapAdmin.console := []; BootstrapAdmin.tick := 0 |}.

Definition first_admin : list (string * jsvalue) :=
  [ ("email", VString "owner@club.test"); ("password", VString "secret1");
    ("full_name", VString "Club Owner") ].

Definition post : BootstrapAdmin.Request :=
  {| BootstrapAdmin.method := "POST"; BootstrapAdmin.json := Normal (VObject first_admin) |}.

Definition preflight : BootstrapAdmin.Request :=
  {| BootstrapAdmin.method := "OPTIONS";
     BootstrapAdmin.json := Throw "Unexpected end of JSON input" |}.

(** A request whose body is the JSON [null]. *)
Definition null_body : BootstrapAdmin.Request :=
  {| BootstrapAdmin.method := "POST"; BootstrapAdmin.json := Normal VNull |}.

(** A request whose body is not JSON. *)
Definition garbled : BootstrapAdmin.Request :=
  {| BootstrapAdmin.method := "POST";
     BootstrapAdmin.json := Throw "Unexpected token o in JSON at position 1" |}.

(** The host again, reading back the ISO string it renders. *)
Definition clock : Host :=
  {| Date_parse := λ s, if String.eqb s "2026-03-01T18:00"
                           || String.eqb s "2026-03-01T18:00:00.000Z"
                        then Some 1772388000000 else None;
     StringToNumber := StringToNumber host;
     TimestampToNumber := TimestampToNumber host;
     iso_string := iso_string host;
     format_PPPp := format_PPPp host;
     translate := translate host;
     now := now host |}.

(** The schedule form filled in, and left empty. *)
Definition kickoff : ManageMatches.MatchForm :=
  {| ManageMatches.form_opponent := " Rivals "; ManageMatches.form_matchDate := "2026-03-01";
     ManageMatches.form_matchTime := "18:00"; ManageMatches.form_stadium := "";
     ManageMatches.form_competitionId := "league"; ManageMatches.form_kitColor := "" |}.

Definition undated : ManageMatches.MatchForm :=
  {| ManageMatches.form_opponent := "Rivals"; ManageMatches.form_matchDate := "";
     ManageMatches.form_matchTime := ""; ManageMatches.form_stadium := "";
     ManageMatches.form_competitionId := ""; ManageMatches.form_kitColor := "" |}.

(** The new player again, with a picture picked. *)
Definition with_picture : ManagePlayers.PlayerForm :=
  {| ManagePlayers.fullName := "C. Winger"; ManagePlayers.form_position := "forward";
     ManagePlayers.jerseyNumber := "150"; ManagePlayers.form_email := "";
     ManagePlayers.avatarFile := Some "winger.png"; ManagePlayers.editingPlayer := None |}.

Definition closed_dialog : ManagePlayers.Dialog :=
  {| ManagePlayers.form := new_player; ManagePlayers.avatarPreview := VNull;
     ManagePlayers.isDialogOpen := false |}.

(** The password dialog open on a form for an administrator. *)
Definition verifying : CreateUser.State :=
  {| CreateUser.email := "new@club.test"; CreateUser.password := "secret1";
     CreateUser.fullName := "New Member"; CreateUser.role := CreateUser.admin;
     CreateUser.currentPassword := "secret0"; CreateUser.isPasswordDialogOpen := true;
     CreateUser.isSubmitting := false; CreateUser.isVerifyingPassword := false;
     CreateUser.createdUser := None |}.

(** A completed match with two goals scored and the other score never
    entered. *)
Definition half_recorded : MatchResult.Match :=
  {| MatchResult.status := "completed";
     MatchResult.goals_scored := MatchResult.number (Num 2);
     MatchResult.goals_conceded := MatchResult.null |}.

End Examples.

(** * Properties *)

(** ** The language helpers on concrete inputs *)

Example parseInt_examples :
  [ parseInt "7"; parseInt " 42"; parseInt "150"; parseInt "-5"; parseInt "0";
    parseInt "1e3"; parseInt "12abc"; parseInt "0x1F"; parseInt "abc"; parseInt "" ]
  = [ Num 7; Num 42; Num 150; Num (-5); Num 0; Num 1; Num 12; Num 31; NaN; NaN ].
Proof. vm_compute. reflexivity. Qed.

(** Beyond 2^53 the digits are rounded to the nearest Number, and from
    about 1.8e308 on to an infinity. *)
Example parseInt_rounds :
  [ parseInt "9007199254740993"; parseInt "99999999999999999999";
    parseInt "-99999999999999999999"; parseInt "0x20000000000001";
    parseInt ("18" +:+ pretty (10 ^ 307)); parseInt ("-18" +:+ pretty (10 ^ 307)) ]
  = [ Num 9007199254740992; Num 100000000000000000000; Num (-100000000000000000000);
      Num 9007199254740992; Infinity false; Infinity true ].
Proof. vm_compute. reflexivity. Qed.

Example trim_examples :
  (trim "  A. Striker ", trim "   ", or_null (trim " ")) = ("A. Striker", "", VNull).
Proof. reflexivity. Qed.

Example toDate_examples :
  [ toDate Examples.host (VTimestamp 1772388000 500000000);
    toDate Examples.host (VString "2026-03-01T18:00");
    toDate Examples.host (VString "tomorrow");
    toDate Examples.host (VObject [("seconds", VNumber (Num 1772388000))]);
    toDate Examples.host (VObject [("seconds", VNumber (Num 8640000000001))]);
    toDate Examples.host (VObject [("seconds", VNull)]);
    toDate Examples.host (VObject [("seconds", VObject [("valueOf", VNumber (Num 1))])]);
    toDate Examples.host (VObject [("minutes", VNumber (Num 5))]);
    toDate Examples.host (VNumber (Num 5));
    toDate Examples.host VNull ]
  = [ Normal (Some 1772388000500); Normal (Some 1772388000000); Normal None;
      Normal (Some 1772388000000); Normal None; Normal (Some 0); Normal None;
      Normal (Some 1772388000000); Normal (Some 1772388000000);
      Normal (Some 1772388000000) ].
Proof. vm_compute. reflexivity. Qed.

(** The milliseconds of a Timestamp are computed in binary64: the sum
    is rounded before the Date constructor drops the fraction. *)
Example Timestamp_toDate_examples :
  [ Timestamp_toDate 1772388000 0; Timestamp_toDate 1772388000 500000000;
    Timestamp_toDate 1772388000 999999; Timestamp_toDate 1772388000 999999999;
    Timestamp_toDate 0 999999999; Timestamp_toDate (-1) 999999999;
    Timestamp_toDate 253402300799 999999999; Timestamp_toDate 8640000000001 0 ]
  = [ Some 1772388000000; Some 1772388000500; Some 1772388000001; Some 1772388001000;
      Some 999; Some 0; Some 253402300800000; None ].
Proof. vm_compute. reflexivity. Qed.

(** Without the guards of [toDate] the operator [in] throws. *)
Example in_throws_on_primitives :
  (js_in "seconds" VNull, js_in "seconds" (VNumber (Num 5)))
  = (Throw "TypeError: Cannot use 'in' operator",
     Throw "TypeError: Cannot use 'in' operator").
Proof. reflexivity. Qed.

(** ** Numbers as text and back *)

Example toString_examples :
  (Number_toString (λ _, "1e+21")
     <$> [Num 9; Num 0; Num (-5); Num 150; Num (2 ^ 53 - 1); NaN; Infinity true;
          Num (10 ^ 21)])
  = ["9"; "0"; "-5"; "150"; "9007199254740991"; "NaN"; "-Infinity"; "1e+21"].
Proof. vm_compute. reflexivity. Qed.

(** *** Rounding an integer to a Number *)

Ltac std_Z :=
  change IntDef.Z.add with Z.add in *; change IntDef.Z.sub with Z.sub in *;
  change IntDef.Z.max with Z.max in *; change IntDef.Z.leb with Z.leb in *.

Lemma digits2_pos_iter p k :
  digits2_pos (Pos.iter xO p k) = (digits2_pos p + k)%positive.
Proof.
  induction k as [|k IH] using Pos.peano_ind.
  - simpl. lia.
  - rewrite Pos.iter_succ. simpl. rewrite IH. lia.
Qed.

Lemma iter_xO_value p k : Zpos (Pos.iter xO p k) = Zpos p * 2 ^ Zpos k.
Proof.
  induction k as [|k IH] using Pos.peano_ind.
  - simpl. lia.
  - rewrite Pos.iter_succ, Pos2Z.inj_succ, Z.pow_succ_r by lia.
    rewrite Pos2Z.inj_xO, IH. ring.
Qed.


Lemma digits2_pos_lower p : 2 ^ (Zpos (digits2_pos p) - 1) <= Zpos p.
Proof.
  induction p as [p IH|p IH|]; simpl digits2_pos.
  - rewrite Pos2Z.inj_succ.
    replace (Z.succ (Zpos (digits2_pos p)) - 1) with (Z.succ (Zpos (digits2_pos p) - 1))
      by lia.
    rewrite Z.pow_succ_r by lia. lia.
  - rewrite Pos2Z.inj_succ.
    replace (Z.succ (Zpos (digits2_pos p)) - 1) with (Z.succ (Zpos (digits2_pos p) - 1))
      by lia.
    rewrite Z.pow_succ_r by lia. lia.
  - simpl. lia.
Qed.

Lemma digits2_pos_le p n : 0 < n → Zpos p < 2 ^ n → Zpos (digits2_pos p) <= n.
Proof.
  intros Hn Hp. pose proof (digits2_pos_lower p) as Hl.
  destruct (decide (Zpos (digits2_pos p) <= n)) as [|Hgt]; [done|]. exfalso.
  assert (2 ^ n <= 2 ^ (Zpos (digits2_pos p) - 1)) by (apply Z.pow_le_mono_r; lia).
  lia.
Qed.


Lemma fexp_small e : -1021 <= e → fexp 53 1024 e = e - 53.
Proof. intros He. unfold fexp, emin. std_Z. lia. Qed.

Lemma shr_fexp_exact m e :
  Zpos (digits2_pos m) = 53 → -1074 <= e →
  shr_fexp 53 1024 (Zpos m) e loc_Exact
  = ({| shr_m := Zpos m; shr_r := false; shr_s := false |}, e).
Proof.
  intros Hd He. unfold shr_fexp. cbn [Zdigits2]. std_Z.
  rewrite Hd, fexp_small by lia. replace (53 + e - 53 - e) with 0 by lia. reflexivity.
Qed.

(** A mantissa of 53 bits is kept as it is. *)
Lemma binary_round_aux_exact s m e :
  Zpos (digits2_pos m) = 53 → -1074 <= e <= 971 →
  binary_round_aux 53 1024 s (Zpos m) e loc_Exact = S754_finite s m e.
Proof.
  intros Hd He. unfold binary_round_aux. rewrite shr_fexp_exact by lia.
  cbn [round_nearest_even shr_m loc_of_shr_record]. rewrite shr_fexp_exact by lia.
  cbn [shr_m]. std_Z.
  assert (E : (e <=? 1024 - 53) = true) by (apply Z.leb_le; lia). by rewrite E.
Qed.

Lemma binary_round_small s p :
  Zpos p < 2 ^ 53 →
  of_binary64 (binary_round 53 1024 s p 0) = Num (if s then Zneg p else Zpos p).
Proof.
  intros Hp. pose proof (digits2_pos_le p 53 ltac:(lia) Hp) as Hd.
  unfold binary_round, shl_align. std_Z. rewrite fexp_small by lia.
  remember (digits2_pos p) as d eqn:Hdd.
  destruct (Zpos d + 0 - 53 - 0) as [|k|k] eqn:Ek; [|lia|].
  - rewrite binary_round_aux_exact by lia. unfold of_binary64, truncate. simpl.
    destruct s; f_equal; lia.
  - replace (Zpos d + 0 - 53) with (Zneg k) by lia.
    rewrite binary_round_aux_exact by (rewrite ?digits2_pos_iter; lia).
    change (of_binary64 (S754_finite s (Pos.iter xO p k) (Zneg k)))
      with (Num (if s then - (Zpos (Pos.iter xO p k) / 2 ^ Zpos k)
                 else Zpos (Pos.iter xO p k) / 2 ^ Zpos k)).
    rewrite iter_xO_value, Z.div_mul by lia. destruct s; f_equal; lia.
Qed.

(** Every integer below 2^53 is a Number. *)
Lemma to_Number_small z : Z.abs z < 2 ^ 53 → to_Number z = Num z.
Proof.
  intros Hz. unfold to_Number, binary64. destruct z as [|p|p]; [reflexivity|..].
  - apply (binary_round_small false). lia.
  - apply (binary_round_small true). lia.
Qed.








(** *** Reading a numeral *)

Lemma digit_value_char (d : N) :
  (d < 10)%N → digit_value 10 (pretty_N_char d) = Some (Z.of_N d).
Proof.
  intros H.
  assert (Hcases : (d = 0 ∨ d = 1 ∨ d = 2 ∨ d = 3 ∨ d = 4 ∨ d = 5 ∨ d = 6 ∨ d = 7
                    ∨ d = 8 ∨ d = 9)%N) by lia.
  destruct Hcases as [->|[->|[->|[->|[->|[->|[->|[->|[->| ->]]]]]]]]]; reflexivity.
Qed.

Lemma parse_digits_pretty (x : N) (s : string) :
  (0 < x)%N →
  parse_digits 10 None (pretty_N_go x s) = parse_digits 10 (Some (Z.of_N x)) s.
Proof.
  revert s. induction (N.lt_wf_0 x) as [x _ IH]. intros s Hx.
  rewrite pretty_N_go_step by done.
  destruct (decide (x `div` 10 = 0)%N) as [E|E].
  - rewrite E, pretty_N_go_0. simpl parse_digits at 1.
    rewrite digit_value_char by (apply N.mod_lt; lia). simpl.
    f_equal. f_equal. apply N.div_small_iff in E; [|lia]. rewrite N.mod_small by done. lia.
  - rewrite IH.
    + simpl parse_digits at 1. rewrite digit_value_char by (apply N.mod_lt; lia). simpl.
      f_equal. f_equal. rewrite N2Z.inj_div, N2Z.inj_mod. simpl Z.of_N.
      pose proof (Z.div_mod (Z.of_N x) 10 ltac:(lia)) as Hdm. rewrite Hdm at 3. ring.
    + apply N.div_lt; lia.
    + by apply N.neq_0_lt_0.
Qed.

(** The first character of the digits of a positive number is one of
    1 to 9. *)
Lemma pretty_N_go_head (x : N) (s : string) :
  (0 < x)%N →
  ∃ d rest, pretty_N_go x s = String (pretty_N_char d) rest ∧ (0 < d < 10)%N.
Proof.
  revert s. induction (N.lt_wf_0 x) as [x _ IH]. intros s Hx.
  rewrite pretty_N_go_step by done.
  destruct (decide (x `div` 10 = 0)%N) as [E|E].
  - rewrite E, pretty_N_go_0. exists (x `mod` 10)%N, s. split; [done|].
    apply N.div_small_iff in E; [|lia]. rewrite N.mod_small by done. lia.
  - apply IH; [apply N.div_lt; lia | by apply N.neq_0_lt_0].
Qed.

(** On a string that starts with one of the digits 1 to 9, [parseInt]
    reads the digits; after a minus sign, it negates them. *)
Lemma parseInt_digits (d : N) (rest : string) :
  (0 < d < 10)%N →
  let s := String (pretty_N_char d) rest in
  parseInt s
  = match parse_digits 10 None s with Some m => to_Number (1 * m) | None => NaN end
  ∧ parseInt ("-" +:+ s)
    = match parse_digits 10 None s with Some m => to_Number (-1 * m) | None => NaN end.
Proof.
  intros Hd.
  assert (Hcases : (d = 1 ∨ d = 2 ∨ d = 3 ∨ d = 4 ∨ d = 5 ∨ d = 6 ∨ d = 7 ∨ d = 8
                    ∨ d = 9)%N) by lia.
  destruct Hcases as [->|[->|[->|[->|[->|[->|[->|[->| ->]]]]]]]]; split; reflexivity.
Qed.

Lemma parseInt_pretty (p : positive) :
  parseInt (pretty (Zpos p)) = to_Number (Zpos p)
  ∧ parseInt (pretty (Zneg p)) = to_Number (Zneg p).
Proof.
  unfold pretty, pretty_Z, pretty, pretty_N. simpl.
  destruct (pretty_N_go_head (Npos p) "") as (d & rest & E & Hd); [lia|].
  pose proof (parse_digits_pretty (Npos p) "" ltac:(lia)) as Hparse.
  rewrite E in *.
  change (pretty_positive p) with (pretty_N_go (N.pos p) "").
  rewrite E.
  destruct (parseInt_digits d rest Hd) as [-> ->]. rewrite Hparse. simpl. done.
Qed.

(** The decimal numeral of an integer is read as the Number nearest to
    it: as the integer itself below 2^53. *)
Lemma parseInt_numeral (z : Z) : parseInt (pretty z) = to_Number z.
Proof. destruct z as [|p|p]; [reflexivity|apply parseInt_pretty..]. Qed.

Lemma parseInt_safe (z : Z) : Z.abs z < 2 ^ 53 → parseInt (pretty z) = Num z.
Proof. intros Hz. by rewrite parseInt_numeral, to_Number_small. Qed.

(** [parseInt(n.toString())] gives [n] back for NaN and for an integer
    below 2^53, which is written with all its digits; not for an
    infinity, whose name is not a numeral. *)
Lemma parseInt_toString engine (n : jsnum) :
  match n with Num z => Z.abs z < 2 ^ 53 | NaN => True | Infinity _ => False end →
  parseInt (Number_toString engine n) = n.
Proof.
  destruct n as [|z|neg]; [reflexivity| |done]. intros Hz. unfold Number_toString.
  pose proof Hz as Hlt. apply Z.ltb_lt in Hlt. rewrite Hlt. by apply parseInt_safe.
Qed.

(** ** Running monadic code *)

Lemma bind_run {W A R} (m : M W A) (k : A → M W R) w :
  (m ≫= k) w = match m w with
               | (Normal a, w') => k a w'
               | (Throw e, w') => (Throw e, w')
               end.
Proof. reflexivity. Qed.

Lemma ret_run {W A} (a : A) (w : W) : (mret a : M W A) w = (Normal a, w).
Proof. reflexivity. Qed.

Lemma mapM_cons_run {W A R} (f : A → M W R) x l w :
  mapM f (x :: l) w
  = match f x w with
    | (Normal y, w1) =>
        match mapM f l w1 with
        | (Normal k, w2) => (Normal (y :: k), w2)
        | (Throw e, w2) => (Throw e, w2)
        end
    | (Throw e, w1) => (Throw e, w1)
    end.
Proof. reflexivity. Qed.

Lemma getDocs_run B c w :
  getDocs B c w
  = (Normal (match fails B (tick w) with
             | Some e => Throw e
             | None => Normal (map_to_list (db w c))
             end),
     {| db := db w; trace := trace w ++ [GetDocs c]; tick := S (tick w) |}).
Proof. unfold getDocs, call. destruct (fails B (tick w)); reflexivity. Qed.

Lemma getDocs_orderBy_run B c field descending w :
  getDocs_orderBy B c field descending w
  = (Normal (match fails B (tick w) with
             | Some e => Throw e
             | None =>
                 Normal (merge_sort (index_le B c field descending)
                           (filter (λ doc, is_Some (doc.2 !! field))
                              (map_to_list (db w c))))
             end),
     {| db := db w; trace := trace w ++ [GetDocs c]; tick := S (tick w) |}).
Proof. unfold getDocs_orderBy, call. destruct (fails B (tick w)); reflexivity. Qed.

Lemma deleteDoc_run B c k w :
  deleteDoc B c k w
  = (Normal (match fails B (tick w) with Some e => Throw e | None => Normal () end),
     {| db := match fails B (tick w) with
              | Some _ => db w
              | None => <[c := delete k (db w c)]> (db w)
              end;
        trace := trace w ++ [DeleteDoc c k]; tick := S (tick w) |}).
Proof. unfold deleteDoc, call. destruct (fails B (tick w)); reflexivity. Qed.

#[local] Arguments mapM : simpl never.
#[local] Arguments ManageMatches.fetchData : simpl never.
#[local] Arguments ManagePlayers.fetchPlayers : simpl never.

(** One step of a handler at a time: binds, the reads and deletions by
    their equations, the remaining primitives by unfolding. *)
Ltac run :=
  repeat first
    [ rewrite bind_run
    | rewrite ret_run
    | rewrite getDocs_run
    | rewrite getDocs_orderBy_run
    | rewrite deleteDoc_run
    | progress unfold try_catch, try_finally, start, await, throw, emit, toast, setState,
        window_confirm, addDoc, updateDoc, uploadToCloudinary, call
    | progress simpl ].

(** ** Promises and the oracle *)

Lemma all_fulfilled_Forall {A} (rs : list (completion A)) :
  all_fulfilled rs ↔ Forall fulfilled rs.
Proof.
  unfold all_fulfilled. induction rs as [|[a|e] rs IH]; simpl.
  - split; [constructor | by eexists].
  - destruct (Promise_all rs) eqn:E.
    + split; [|by eexists]. intros _. constructor; [done|]. apply IH. by eexists.
    + split; [intros [? ?]; done|]. inversion 1 as [|? ? _ Hrs]; subst.
      apply IH in Hrs as [? ?]. done.
  - split; [intros [? ?]; done | inversion 1; done].
Qed.

Lemma all_fulfilled_app {A} (rs1 rs2 : list (completion A)) :
  all_fulfilled (rs1 ++ rs2) ↔ all_fulfilled rs1 ∧ all_fulfilled rs2.
Proof. rewrite !all_fulfilled_Forall. apply Forall_app. Qed.

Lemma not_all_fulfilled {A} (rs : list (completion A)) e :
  Promise_all rs = Throw e → ¬ all_fulfilled rs.
Proof. intros H [l Hl]. congruence. Qed.

Lemma fulfilled_from_S B n len :
  fulfilled_from B n (S len) ↔ fails B n = None ∧ fulfilled_from B (S n) len.
Proof.
  unfold fulfilled_from. split.
  - intros H. split.
    + rewrite <- (Nat.add_0_r n). apply H. lia.
    + intros i Hi. replace (S n + i)%nat with (n + S i)%nat by lia. apply H. lia.
  - intros [H0 H] [|i] Hi.
    + by rewrite Nat.add_0_r.
    + replace (n + S i)%nat with (S n + i)%nat by lia. apply H. lia.
Qed.

Lemma fulfilled_from_1 B n : fulfilled_from B n 1 ↔ fails B n = None.
Proof.
  rewrite fulfilled_from_S. split; [tauto|]. intros H. split; [done|]. intros i Hi. lia.
Qed.

Lemma fulfilled_from_add B n a b :
  fulfilled_from B n (a + b) ↔ fulfilled_from B n a ∧ fulfilled_from B (n + a) b.
Proof.
  unfold fulfilled_from. split.
  - intros H. split.
    + intros i Hi. apply H. lia.
    + intros i Hi. rewrite <- Nat.add_assoc. apply H. lia.
  - intros [Ha Hb] i Hi. destruct (decide (i < a)%nat) as [Hlt|Hge].
    + by apply Ha.
    + replace (n + i)%nat with (n + a + (i - a))%nat by lia. apply Hb. lia.
Qed.

(** ** A batch of deletions *)

(** The deletions started for the documents of a snapshot: each is
    issued, in order; a fulfilled one removes its document; nothing else
    changes; and [Promise.all] is fulfilled exactly when each call is. *)
Lemma delete_batch B c (docs : list (string * Doc)) w :
  ∃ rs d,
    mapM (λ doc, deleteDoc B c doc.1) docs w
    = (Normal rs, {| db := d; trace := trace w ++ (DeleteDoc c <$> docs.*1);
                     tick := tick w + List.length docs |})
    ∧ (∀ c', c' ≠ c → d c' = db w c')
    ∧ (∀ k, d c !! k = db w c !! k ∨ (d c !! k = None ∧ k ∈ docs.*1))
    ∧ (all_fulfilled rs ↔ fulfilled_from B (tick w) (List.length docs))
    ∧ (fulfilled_from B (tick w) (List.length docs) → ∀ k, k ∈ docs.*1 → d c !! k = None).
Proof.
  revert w. induction docs as [|[k0 doc0] docs IH]; intros w.
  - exists [], (db w). simpl. rewrite app_nil_r, Nat.add_0_r. destruct w; simpl.
    split; [reflexivity|]. split; [done|]. split; [auto|]. split.
    + split; [intros _ i Hi; lia | intros _; by eexists].
    + intros _ k Hk. by apply elem_of_nil in Hk.
  - rewrite mapM_cons_run, deleteDoc_run.
    destruct (IH {| db := match fails B (tick w) with
                          | Some _ => db w
                          | None => <[c := delete k0 (db w c)]> (db w)
                          end;
                    trace := trace w ++ [DeleteDoc c k0]; tick := S (tick w) |})
      as (rs & d & Hrun & Hother & Hsame & Hall & Hgone).
    simpl in *.
    exists ((match fails B (tick w) with Some e => Throw e | None => Normal () end) :: rs), d.
    split; [|split; [|split; [|split]]].
    + rewrite Hrun. rewrite <- app_assoc. simpl. do 3 f_equal. lia.
    + intros c' Hc. rewrite Hother by done.
      destruct (fails B (tick w)); [done|]. by rewrite fn_lookup_insert_ne.
    + intros k. destruct (Hsame k) as [Hk|[Hk Hin]].
      * rewrite Hk. destruct (fails B (tick w)); [by left|].
        rewrite fn_lookup_insert. destruct (decide (k = k0)) as [->|Hne].
        -- right. rewrite lookup_delete_eq. split; [done|]. left.
        -- left. by rewrite lookup_delete_ne.
      * right. split; [done|]. by right.
    + rewrite fulfilled_from_S, <- Hall, !all_fulfilled_Forall, Forall_cons.
      destruct (fails B (tick w)); simpl; intuition congruence.
    + rewrite fulfilled_from_S. intros [H0 H] k Hk. apply elem_of_cons in Hk as [->|Hk].
      * destruct (Hsame k0) as [E|[E _]]; [|done]. rewrite E, H0.
        by rewrite fn_lookup_insert, lookup_delete_eq.
      * by apply Hgone.
Qed.

(** A collection whose listed documents are all gone is empty. *)
Lemma emptied (m m' : gmap string Doc) :
  (∀ k, m' !! k = m !! k ∨ (m' !! k = None ∧ k ∈ (map_to_list m).*1)) →
  (∀ k, k ∈ (map_to_list m).*1 → m' !! k = None) →
  m' = ∅.
Proof.
  intros Hsame Hgone. apply map_empty. intros k.
  destruct (Hsame k) as [E|[E _]]; [|done].
  destruct (m !! k) as [doc|] eqn:Hk; [|congruence].
  apply Hgone. apply list_elem_of_fmap. exists (k, doc). split; [done|].
  by apply elem_of_map_to_list.
Qed.

(** ** Traces *)

Lemma effects_since_app w w' delta :
  trace w' = trace w ++ delta → effects_since w w' = delta.
Proof. intros H. unfold effects_since. rewrite H. apply drop_app_length. Qed.

Lemma effects_since_refl w : effects_since w w = [].
Proof. unfold effects_since. by rewrite drop_all. Qed.

Lemma backend_calls_app es1 es2 :
  backend_calls (es1 ++ es2) = backend_calls es1 ++ backend_calls es2.
Proof. apply filter_app. Qed.

Lemma backend_calls_cons e es :
  backend_calls (e :: es)
  = if is_backend_call e then e :: backend_calls es else backend_calls es.
Proof.
  unfold backend_calls. rewrite filter_cons. destruct (is_backend_call e); by simpl.
Qed.

Lemma backend_calls_nil : backend_calls [] = [].
Proof. reflexivity. Qed.

Lemma backend_calls_deletions c (ks : list string) :
  backend_calls (DeleteDoc c <$> ks) = DeleteDoc c <$> ks.
Proof.
  induction ks as [|k ks IH]; [done|]. unfold backend_calls. rewrite fmap_cons.
  rewrite filter_cons_True by done. f_equal. exact IH.
Qed.

Lemma toasts_app es1 es2 : toasts (es1 ++ es2) = toasts es1 ++ toasts es2.
Proof. apply filter_app. Qed.

Lemma toasts_cons e es :
  toasts (e :: es) = if is_toast e then e :: toasts es else toasts es.
Proof.
  unfold toasts. rewrite filter_cons. destruct (is_toast e); by simpl.
Qed.

Lemma toasts_nil : toasts [] = [].
Proof. reflexivity. Qed.

Lemma toasts_deletions c (ks : list string) : toasts (DeleteDoc c <$> ks) = [].
Proof.
  induction ks as [|k ks IH]; [done|]. unfold toasts. rewrite fmap_cons.
  rewrite filter_cons_False by done. exact IH.
Qed.

Lemma NoDup_deletions d c : NoDup (DeleteDoc c <$> keys d c).
Proof.
  apply NoDup_fmap_2; [intros k1 k2; congruence|]. apply NoDup_fst_map_to_list.
Qed.

Lemma DeleteDoc_not_in c (ks : list string) c' k :
  c ≠ c' → DeleteDoc c' k ∉ (DeleteDoc c <$> ks).
Proof.
  intros Hc Hin. apply list_elem_of_fmap in Hin as (k' & Heq & _). congruence.
Qed.

Ltac trace_eq := simpl; rewrite <- ?app_assoc; reflexivity.

Ltac calls :=
  simpl;
  repeat first [ rewrite backend_calls_cons | rewrite backend_calls_app
               | rewrite backend_calls_deletions | rewrite backend_calls_nil ];
  simpl.

Ltac shown :=
  simpl;
  repeat first [ rewrite toasts_cons | rewrite toasts_app
               | rewrite toasts_deletions | rewrite toasts_nil ];
  simpl.

Ltac one_toast := shown; eexists; split; [reflexivity|assumption || reflexivity].

(** A list of effects that differ pairwise by their constructors or
    arguments. *)
Ltac distinct :=
  repeat (apply NoDup_cons_2;
          [rewrite ?elem_of_cons, ?elem_of_nil; intuition discriminate|]);
  apply NoDup_nil_2.

(** ** The admin match page *)

Section matches.

Import ManageMatches.

(** The refresh of the list reads the two collections once each, shows
    no toast, leaves the store alone and never throws. *)
Lemma fetchData_run B host w :
  ∃ delta n,
    fetchData B host w = (Normal (), {| db := db w; trace := trace w ++ delta; tick := n |})
    ∧ backend_calls delta = [GetDocs Matches; GetDocs Competitions]
    ∧ toasts delta = [].
Proof.
  unfold fetchData. run.
  destruct (fails B (tick w)); run; destruct (fails B (S (tick w))); run;
    rewrite <- ?app_assoc; simpl; do 2 eexists; (split; [reflexivity|]); split; reflexivity.
Qed.

Ltac refresh :=
  match goal with
  | |- context [fetchData ?B ?host ?w1] =>
      let refresh := fresh "refresh" in
      let n := fresh "n" in
      let Hrun := fresh "Hrun" in
      destruct (fetchData_run B host w1) as (refresh & n & Hrun & Hcalls & Htoasts);
      rewrite Hrun; clear Hrun
  end.

(** Every way a confirmed deletion can go. *)
Lemma deleteMatch_run B host m w id date formatted :
  match_id m = Some id → id ≠ "" →
  toDate host (match_date m) = Normal date → format host date = Normal formatted →
  confirm_answer B (confirmation m formatted) = true →
  ∃ w', deleteMatch B host m w = (Normal (), w')
    ∧ delete_outcome B id w w'
        [Confirm (confirmation m formatted); GetDocs (Lineups id); GetDocs (Events id)].
Proof.
  intros Hid Hne Hdate Hformat Hconfirm.
  unfold deleteMatch. rewrite Hid. simpl. apply String.eqb_neq in Hne. rewrite Hne.
  rewrite Hdate. run. rewrite Hformat. run. rewrite Hconfirm. run.
  destruct (fails B (tick w)) as [e1|] eqn:H1; run.
  { destruct (fails B (S (tick w))) eqn:H2; run;
    (eexists; split; [reflexivity|];
     eapply snapshot_failed
       with (t := {| title := _; description := _; destructive := true |});
     [left; congruence|reflexivity| |done];
     apply effects_since_app; simpl; rewrite <- !app_assoc; reflexivity). }
  destruct (fails B (S (tick w))) as [e2|] eqn:H2; run.
  { eexists; split; [reflexivity|];
    eapply snapshot_failed
      with (t := {| title := _; description := _; destructive := true |});
    [right; congruence|reflexivity| |done];
    apply effects_since_app; simpl; rewrite <- !app_assoc; reflexivity. }
  match goal with
  | |- context [mapM _ (map_to_list (db w (Lineups id))) ?w2] =>
      destruct (delete_batch B (Lineups id) (map_to_list (db w (Lineups id))) w2)
        as (rsL & dL & HrunL & HotherL & HsameL & HallL & HgoneL)
  end.
  rewrite HrunL. run. clear HrunL.
  match goal with
  | |- context [mapM _ (map_to_list (db w (Events id))) ?w3] =>
      destruct (delete_batch B (Events id) (map_to_list (db w (Events id))) w3)
        as (rsE & dE & HrunE & HotherE & HsameE & HallE & HgoneE)
  end.
  rewrite HrunE. run. clear HrunE. simpl in *.
  set (nL := List.length (map_to_list (db w (Lineups id)))) in *.
  set (nE := List.length (map_to_list (db w (Events id)))) in *.
  assert (HkL : List.length (keys (db w) (Lineups id)) = nL) by apply length_fmap.
  assert (HkE : List.length (keys (db w) (Events id)) = nE) by apply length_fmap.
  assert (Hsnap : fulfilled_from B (tick w) 2).
  { apply (fulfilled_from_S B (tick w) 1). split; [done|]. by apply fulfilled_from_1. }
  assert (Hdone : all_fulfilled (rsL ++ rsE) ↔ fulfilled_from B (2 + tick w) (nL + nE)).
  { rewrite all_fulfilled_app, fulfilled_from_add, HallL, HallE.
    replace (2 + tick w + nL)%nat with (S (S (tick w + nL))) by lia. done. }
  assert (HE : dE Matches = db w Matches).
  { rewrite HotherE, HotherL by done. done. }
  destruct (Promise_all (rsL ++ rsE)) as [l|e] eqn:Hall; run.
  2:{ eexists. split; [reflexivity|].
      eapply cleanup_failed
        with (t := {| title := _; description := _; destructive := true |});
        [done| |reflexivity| |done].
      - rewrite HkL, HkE, <- Hdone. by eapply not_all_fulfilled.
      - apply effects_since_app. simpl. rewrite <- !app_assoc. reflexivity. }
  assert (Hok : fulfilled_from B (2 + tick w) (nL + nE)) by (apply Hdone; by eexists).
  apply fulfilled_from_add in Hok as [HokL HokE].
  assert (HemptyL : dE (Lineups id) = ∅).
  { rewrite HotherE by done. apply (emptied (db w (Lineups id))); [exact HsameL|].
    by apply HgoneL. }
  assert (HemptyE : dE (Events id) = ∅).
  { apply (emptied (db w (Events id))).
    - intros k. destruct (HsameE k) as [E|E]; [left|by right].
      rewrite E, HotherL by done. done.
    - apply HgoneE. replace (S (S (tick w + nL))) with (2 + tick w + nL)%nat by lia. done. }
  assert (Hall2 : fulfilled_from B (tick w) (2 + nL + nE)).
  { rewrite <- Nat.add_assoc. apply fulfilled_from_add. split; [done|].
    rewrite Nat.add_comm. apply fulfilled_from_add. done. }
  destruct (fails B (S (S (tick w + nL + nE)))) as [e|] eqn:Hm; run.
  - eexists. split; [reflexivity|].
    eapply match_failed
      with (t := {| title := _; description := _; destructive := true |});
      rewrite ?HkL, ?HkE; try done.
    + replace (2 + tick w + nL + nE)%nat with (S (S (tick w + nL + nE))) by lia.
      congruence.
    + apply effects_since_app. simpl. rewrite <- !app_assoc. reflexivity.
  - refresh. run. eexists. split; [reflexivity|].
    eapply deleted
      with (t := {| title := _; description := _; destructive := false |})
           (refresh := refresh);
      rewrite ?HkL, ?HkE; simpl; try done.
    + replace (S (S (S (nL + nE)))) with (2 + nL + nE + 1)%nat by lia.
      apply fulfilled_from_add. split; [done|]. intros i Hi.
      replace (tick w + (2 + nL + nE) + i)%nat with (S (S (tick w + nL + nE))) by lia.
      done.
    + apply effects_since_app. simpl. rewrite <- !app_assoc. reflexivity.
    + by rewrite fn_lookup_insert, HE.
Qed.

(** C1. A confirmed [deleteMatch] on match [id] asks for confirmation and
    reads the two subcollections.  If the deletion of the match document
    is issued at all, it comes after the deletion of every lineup and
    event document of the match, every earlier call was fulfilled, and
    both subcollections are empty.  When every call is fulfilled the
    handler returns normally, the match deletion is issued, and neither
    the match document nor any lineup or event document of it remains. *)
Theorem deleteMatch_order B host m w id date formatted :
  match_id m = Some id → id ≠ "" →
  toDate host (match_date m) = Normal date → format host date = Normal formatted →
  confirm_answer B (confirmation m formatted) = true →
  let w' := (deleteMatch B host m w).2 in
  let asked :=
    [Confirm (confirmation m formatted); GetDocs (Lineups id); GetDocs (Events id)] in
  let lineups := DeleteDoc (Lineups id) <$> keys (db w) (Lineups id) in
  let events := DeleteDoc (Events id) <$> keys (db w) (Events id) in
  let earlier := (2 + List.length lineups + List.length events)%nat in
  (DeleteDoc Matches id ∈ effects_since w w' →
     (∃ rest, effects_since w w'
              = asked ++ lineups ++ events ++ DeleteDoc Matches id :: rest)
     ∧ fulfilled_from B (tick w) earlier
     ∧ db w' (Lineups id) = ∅ ∧ db w' (Events id) = ∅)
  ∧ (fulfilled_from B (tick w) (S earlier) →
     (deleteMatch B host m w).1 = Normal ()
     ∧ DeleteDoc Matches id ∈ effects_since w w'
     ∧ db w' Matches !! id = None
     ∧ db w' (Lineups id) = ∅ ∧ db w' (Events id) = ∅).
Proof.
  intros Hid Hne Hdate Hformat Hconfirm.
  destruct (deleteMatch_run B host m w id date formatted) as (w' & Hrun & Hout); try done.
  rewrite Hrun. simpl. rewrite !length_fmap.
  assert (HL : ∀ rest, DeleteDoc Matches id ∈
            [Confirm (confirmation m formatted); GetDocs (Lineups id); GetDocs (Events id)]
            ++ (DeleteDoc (Lineups id) <$> keys (db w) (Lineups id))
            ++ (DeleteDoc (Events id) <$> keys (db w) (Events id)) ++ rest →
          DeleteDoc Matches id ∈ rest).
  { intros rest. rewrite !elem_of_app, !elem_of_cons, elem_of_nil.
    intros [[?|[?|[?|[]]]]|[H|[H|H]]]; try done; by apply DeleteDoc_not_in in H. }
  destruct Hout as [t Hf Ht He Hdb | t Hs Hf Ht He Hdb | t Hs Hf Ht He Hdb HeL HeE
                   | t refresh Hs Ht He Hcalls Htoasts Hdb HeL HeE]; rewrite He.
  - split.
    + intros Hin. exfalso. apply elem_of_app in Hin as [Hin|Hin].
      * repeat (apply elem_of_cons in Hin as [?|Hin]; [done|]). by apply elem_of_nil in Hin.
      * apply list_elem_of_singleton in Hin. done.
    + intros Hall. exfalso. destruct Hf as [Hf|Hf]; apply Hf.
      * rewrite <- (Nat.add_0_r (tick w)). apply Hall. lia.
      * replace (S (tick w)) with (tick w + 1)%nat by lia. apply Hall. lia.
  - split.
    + intros Hin. apply HL in Hin. apply list_elem_of_singleton in Hin. done.
    + intros Hall. exfalso. apply Hf. intros i Hi.
      replace (2 + tick w + i)%nat with (tick w + (2 + i))%nat by lia. apply Hall. lia.
  - split.
    + intros _. split; [by eexists|]. done.
    + intros Hall. exfalso. apply Hf.
      rewrite <- !Nat.add_assoc, (Nat.add_comm 2), !Nat.add_assoc.
      rewrite <- (Nat.add_assoc (tick w)), <- (Nat.add_assoc (tick w)). apply Hall. lia.
  - split.
    + intros _. split; [by eexists|]. split; [|done].
      intros i Hi. apply Hs. lia.
    + intros _. split; [done|]. split.
      * rewrite !elem_of_app. right. right. right. left. left.
      * rewrite Hdb. by rewrite lookup_delete_eq.
Qed.

(** Match m1 of the example store, its two lineup entries and its event
    are gone after the deletion. *)
Lemma deleteMatch_order_witness :
  let w' := (deleteMatch Examples.backend Examples.host Examples.fixture Examples.world).2 in
  fulfilled_from Examples.backend 0 6
  ∧ db w' Matches !! "m1" = None
  ∧ db w' (Lineups "m1") = ∅ ∧ db w' (Events "m1") = ∅.
Proof.
  assert (Hall : ∀ n, fulfilled_from Examples.backend 0 n) by (intros n i _; reflexivity).
  split; [apply Hall|].
  destruct (deleteMatch_order Examples.backend Examples.host Examples.fixture Examples.world
              "m1" (Some 1772388000000) "March 1st, 2026 6:00 PM"
              eq_refl ltac:(discriminate) eq_refl eq_refl eq_refl) as [_ H].
  destruct (H (Hall _)) as (_ & _ & H1 & H2 & H3).
  exact (conj H1 (conj H2 H3)).
Defined.

(** The backend calls of that deletion, in order. *)
Example deleteMatch_calls :
  backend_calls
    (effects_since Examples.world
       (deleteMatch Examples.backend Examples.host Examples.fixture Examples.world).2)
  = [ GetDocs (Lineups "m1"); GetDocs (Events "m1");
      DeleteDoc (Lineups "m1") "l1"; DeleteDoc (Lineups "m1") "l2";
      DeleteDoc (Events "m1") "e1"; DeleteDoc Matches "m1";
      GetDocs Matches; GetDocs Competitions ].
Proof. vm_compute. reflexivity. Qed.

(** The date shown for the match whose [match_date] is missing is the
    current time. *)
Example missing_date_shown :
  head (effects_since Examples.world
          (deleteMatch Examples.backend Examples.host Examples.fixture Examples.world).2)
  = Some (Confirm (confirmation Examples.fixture
                     (format_PPPp Examples.host (now Examples.host)))).
Proof. vm_compute. reflexivity. Qed.

(** When the administrator declines, nothing is read or deleted. *)
Lemma deleteMatch_declined B host m w date formatted :
  no_id (match_id m) = false →
  toDate host (match_date m) = Normal date → format host date = Normal formatted →
  confirm_answer B (confirmation m formatted) = false →
  deleteMatch B host m w
  = (Normal (), {| db := db w; trace := trace w ++ [Confirm (confirmation m formatted)];
                   tick := tick w |}).
Proof.
  intros Hid Hdate Hformat Hconfirm. unfold deleteMatch.
  rewrite Hid, Hdate. run. rewrite Hformat. run. rewrite Hconfirm. reflexivity.
Qed.

Lemma handleSubmit_run B host f w :
  ∃ w', handleSubmit B host f w = (Normal (), w')
    ∧ NoDup (backend_calls (effects_since w w'))
    ∧ (fails B (tick w) ≠ None →
       ∃ t, toasts (effects_since w w') = [ShowToast t] ∧ destructive t = true).
Proof.
  unfold handleSubmit. run.
  destruct (Date_parse host _) as [ms|]; run.
  - destruct (fails B (tick w)) as [e|] eqn:Hf; run.
    + eexists. split; [reflexivity|]. erewrite effects_since_app by trace_eq.
      split; [calls; distinct|]. intros _. one_toast.
    + refresh. run. eexists. split; [reflexivity|].
      erewrite effects_since_app by trace_eq. split; [|done].
      calls. rewrite Hcalls. simpl. distinct.
  - eexists. split; [reflexivity|]. erewrite effects_since_app by trace_eq.
    split; [calls; distinct|]. intros _. one_toast.
Qed.

Lemma toggleVisibility_run B host m w :
  ∃ w', toggleVisibility B host m w = (Normal (), w')
    ∧ NoDup (backend_calls (effects_since w w'))
    ∧ (no_id (match_id m) = false →
       fails B (tick w) ≠ None ∨ db w Matches !! default "" (match_id m) = None →
       ∃ t, toasts (effects_since w w') = [ShowToast t] ∧ destructive t = true).
Proof.
  unfold toggleVisibility. destruct (no_id (match_id m)); run.
  { eexists. split; [reflexivity|]. rewrite effects_since_refl. split; [constructor|done]. }
  destruct (fails B (tick w)) as [e|] eqn:Hf; run.
  { eexists. split; [reflexivity|]. erewrite effects_since_app by trace_eq.
    split; [calls; distinct|]. intros _ _. one_toast. }
  destruct (db w Matches !! default "" (match_id m)) as [old|] eqn:Hd; run.
  - refresh. run. eexists. split; [reflexivity|]. erewrite effects_since_app by trace_eq.
    split; [|intros _ [?|?]; done].
    calls. rewrite Hcalls. simpl. distinct.
  - eexists. split; [reflexivity|]. erewrite effects_since_app by trace_eq.
    split; [calls; distinct|]. intros _ _. one_toast.
Qed.

(** The calls of a deletion are pairwise different: the ids of a
    snapshot are, and the rest differ by collection or kind. *)
Lemma NoDup_delete_calls d id tail :
  NoDup tail → (∀ e, e ∈ tail → ∃ c k, e = GetDocs c ∨ e = DeleteDoc Matches k) →
  GetDocs (Lineups id) ∉ tail → GetDocs (Events id) ∉ tail →
  NoDup ([GetDocs (Lineups id); GetDocs (Events id)]
         ++ (DeleteDoc (Lineups id) <$> keys d (Lineups id))
         ++ (DeleteDoc (Events id) <$> keys d (Events id)) ++ tail).
Proof.
  intros Htail Hshape HL HE.
  assert (Hdel : ∀ c k, c ≠ Matches → DeleteDoc c k ∈ tail → False).
  { intros c k Hc Hin. destruct (Hshape _ Hin) as (c' & k' & [E|E]); congruence. }
  apply NoDup_app. split; [distinct|]. split.
  - intros e He. rewrite !elem_of_app. rewrite !elem_of_cons, elem_of_nil in He.
    intros [Hin|[Hin|Hin]].
    + apply list_elem_of_fmap in Hin as (k & -> & _). intuition discriminate.
    + apply list_elem_of_fmap in Hin as (k & -> & _). intuition discriminate.
    + destruct He as [->|[->|[]]]; done.
  - apply NoDup_app. split; [apply NoDup_deletions|]. split.
    + intros e He. apply list_elem_of_fmap in He as (k & -> & _). rewrite elem_of_app.
      intros [Hin|Hin].
      * apply list_elem_of_fmap in Hin as (k' & E & _). discriminate.
      * by apply Hdel in Hin.
    + apply NoDup_app. split; [apply NoDup_deletions|]. split; [|done].
      intros e He. apply list_elem_of_fmap in He as (k & -> & _). intros Hin.
      by apply Hdel in Hin.
Qed.

Lemma delete_outcome_report B m id w w' formatted :
  delete_outcome B id w w'
    [Confirm (confirmation m formatted); GetDocs (Lineups id); GetDocs (Events id)] →
  NoDup (backend_calls (effects_since w w'))
  ∧ (¬ fulfilled_from B (tick w)
         (3 + List.length (keys (db w) (Lineups id))
          + List.length (keys (db w) (Events id))) →
     ∃ t, toasts (effects_since w w') = [ShowToast t] ∧ destructive t = true).
Proof.
  intros [t Hf Ht He Hdb | t Hs Hf Ht He Hdb | t Hs Hf Ht He Hdb HeL HeE
         | t refresh Hs Ht He Hcalls Htoasts Hdb HeL HeE]; rewrite He.
  - split; [calls; distinct|]. intros _. one_toast.
  - split.
    + calls.
      apply (NoDup_delete_calls (db w) id []); [constructor| |apply not_elem_of_nil..].
      intros e []%elem_of_nil.
    + intros _. one_toast.
  - split.
    + calls.
      apply (NoDup_delete_calls (db w) id [DeleteDoc Matches id]); [distinct| |..].
      * intros e ->%list_elem_of_singleton. exists Matches, id. by right.
      * rewrite list_elem_of_singleton. discriminate.
      * rewrite list_elem_of_singleton. discriminate.
    + intros _. one_toast.
  - split.
    + calls. rewrite Hcalls. simpl.
      apply (NoDup_delete_calls (db w) id
               [DeleteDoc Matches id; GetDocs Matches; GetDocs Competitions]);
        [distinct| |..].
      * intros e. rewrite !elem_of_cons, elem_of_nil.
        intros [->|[->|[->|[]]]];
          [exists Matches, id|exists Matches, id|exists Competitions, id]; auto.
      * rewrite !elem_of_cons, elem_of_nil. intuition discriminate.
      * rewrite !elem_of_cons, elem_of_nil. intuition discriminate.
    + intros Hnot. by destruct Hnot.
Qed.

Lemma deleteMatch_report B host m w :
  NoDup (backend_calls (effects_since w (deleteMatch B host m w).2))
  ∧ (reaches_backend B host (DeleteMatch m) →
     ¬ fulfilled_from B (tick w) (own_calls (DeleteMatch m) w) →
     (deleteMatch B host m w).1 = Normal ()
     ∧ ∃ t, toasts (effects_since w (deleteMatch B host m w).2) = [ShowToast t]
            ∧ destructive t = true).
Proof.
  destruct (no_id (match_id m)) eqn:Hno.
  { unfold deleteMatch. rewrite Hno. run. rewrite effects_since_refl.
    split; [constructor|]. rewrite Hno. intros [? _]. done. }
  destruct (toDate host (match_date m)) as [date|e] eqn:Hdate.
  2:{ unfold deleteMatch. rewrite Hno, Hdate. run. rewrite effects_since_refl.
      split; [constructor|]. rewrite Hdate. intros (_ & ? & ? & ? & _). done. }
  destruct (format host date) as [formatted|e] eqn:Hformat.
  2:{ unfold deleteMatch. rewrite Hno, Hdate. run. rewrite Hformat. run.
      rewrite effects_since_refl.
      split; [constructor|]. rewrite Hdate. intros (_ & ? & ? & [= <-] & ? & _).
      congruence. }
  destruct (confirm_answer B (confirmation m formatted)) eqn:Hconfirm.
  2:{ unfold deleteMatch. rewrite Hno, Hdate. run. rewrite Hformat. run.
      rewrite Hconfirm. run.
      erewrite effects_since_app by trace_eq. split; [calls; constructor|].
      rewrite Hdate. intros (_ & ? & ? & [= <-] & ? & ?). congruence. }
  destruct (match_id m) as [id|] eqn:Hid; [|done]. simpl in Hno.
  apply String.eqb_neq in Hno.
  destruct (deleteMatch_run B host m w id date formatted) as (w' & Hrun & Hout); try done.
  rewrite Hrun. simpl. apply delete_outcome_report in Hout as [Hnodup Htoast].
  split; [done|]. intros _ Hfail. split; [done|].
  unfold own_calls in Hfail. rewrite Hid in Hfail. by apply Htoast.
Qed.

(** A rejected read of the refresh that follows a success is not a
    failure of the operation: it is logged and no toast is added. *)
Lemma refresh_failure_is_logged B host m w old e :
  no_id (match_id m) = false → fails B (tick w) = None →
  db w Matches !! default "" (match_id m) = Some old →
  fails B (S (tick w)) = Some e →
  let r := toggleVisibility B host m w in
  r.1 = Normal ()
  ∧ ConsoleError "Error fetching data:" ∈ effects_since w r.2
  ∧ ∃ t, toasts (effects_since w r.2) = [ShowToast t] ∧ destructive t = false.
Proof.
  intros Hid Hf Hold Hrefresh. unfold toggleVisibility, fetchData. rewrite Hid.
  run. rewrite Hf. run. rewrite Hold. run. rewrite Hrefresh. run.
  destruct (fails B (S (S (tick w)))); run;
    (split; [reflexivity|]); erewrite effects_since_app by trace_eq;
    (split; [simpl; repeat first [apply list_elem_of_here | apply list_elem_of_further]|]);
    one_toast.
Qed.

(** C8. Scheduling a match, toggling its visibility and deleting it
    issue no backend call twice, whatever the backend answers.  When a
    backend call of the operation is rejected, the handler returns
    normally and shows exactly one toast, a destructive one. *)
Theorem match_operations_report_failure B host op w :
  let r := perform B host op w in
  NoDup (backend_calls (effects_since w r.2))
  ∧ (backend_failure B host op w →
     r.1 = Normal ()
     ∧ ∃ t, toasts (effects_since w r.2) = [ShowToast t] ∧ destructive t = true).
Proof.
  destruct op as [f|m|m]; simpl.
  - destruct (handleSubmit_run B host f w) as (w' & Hrun & Hnodup & Htoast).
    rewrite Hrun. simpl. split; [done|]. intros [_ [Hfail|[]]]. split; [done|].
    apply Htoast. by rewrite <- fulfilled_from_1.
  - destruct (toggleVisibility_run B host m w) as (w' & Hrun & Hnodup & Htoast).
    rewrite Hrun. simpl. split; [done|]. intros [Hid Hfail]. split; [done|].
    apply Htoast; [done|]. rewrite <- fulfilled_from_1.
    destruct Hfail; [by left|by right].
  - destruct (deleteMatch_report B host m w) as [Hnodup Htoast].
    split; [done|]. intros [Hreach [Hfail|[]]]. by apply Htoast.
Qed.

(** With the backend unreachable, deleting match m1 ends normally with
    one destructive toast. *)
Lemma match_operations_report_failure_witness :
  let r := perform Examples.offline Examples.host (DeleteMatch Examples.fixture)
             Examples.world in
  backend_failure Examples.offline Examples.host (DeleteMatch Examples.fixture)
    Examples.world
  ∧ r.1 = Normal ()
  ∧ ∃ t, toasts (effects_since Examples.world r.2) = [ShowToast t] ∧ destructive t = true.
Proof.
  assert (Hfail : backend_failure Examples.offline Examples.host
                    (DeleteMatch Examples.fixture) Examples.world).
  { split.
    - split; [reflexivity|]. exists (Some 1772388000000), "March 1st, 2026 6:00 PM".
      repeat split; reflexivity.
    - left. intros H. specialize (H 0%nat ltac:(simpl; lia)). discriminate. }
  split; [exact Hfail|].
  exact (proj2 (match_operations_report_failure Examples.offline Examples.host
                  (DeleteMatch Examples.fixture) Examples.world) Hfail).
Defined.

(** *** What the operations do to the store *)

(** The refresh makes its two reads whatever they answer, shows no
    toast and leaves the store alone. *)
Lemma fetchData_world B host w :
  ∃ delta,
    fetchData B host w
    = (Normal (), {| db := db w; trace := trace w ++ delta; tick := S (S (tick w)) |})
    ∧ toasts delta = [].
Proof.
  unfold fetchData. run.
  destruct (fails B (tick w)); run; destruct (fails B (S (tick w))); run;
    rewrite <- ?app_assoc; simpl; eexists; (split; [reflexivity|]); reflexivity.
Qed.

Ltac refreshed :=
  match goal with
  | |- context [fetchData ?B ?host ?w1] =>
      let refresh := fresh "refresh" in
      let Hrun := fresh "Hrun" in
      let Hquiet := fresh "Hquiet" in
      destruct (fetchData_world B host w1) as (refresh & Hrun & Hquiet);
      rewrite Hrun; clear Hrun
  end.

(** X1. Scheduling with a date and time that do not make a date: the
    handler catches the error of [toISOString]; nothing is sent, the
    store is as it was, one destructive toast is shown, and the form is
    released. *)
Theorem schedule_invalid_date B host f w :
  Date_parse host (form_matchDate f +:+ "T" +:+ form_matchTime f) = None →
  let r := handleSubmit B host f w in
  ∃ t, r = (Normal (),
            {| db := db w;
               trace := trace w ++ [ SetState "isSubmitting" (VBool true); ShowToast t;
                                     SetState "isSubmitting" (VBool false) ];
               tick := tick w |})
       ∧ destructive t = true.
Proof.
  intros Hd r. subst r. unfold handleSubmit. run. rewrite Hd. run.
  rewrite <- !app_assoc. simpl. eexists. split; reflexivity.
Qed.

(** The form left empty is reported and changes nothing. *)
Lemma schedule_invalid_date_witness :
  ∃ t, handleSubmit Examples.backend Examples.host Examples.undated Examples.world
       = (Normal (),
          {| db := Examples.store;
             trace := [ SetState "isSubmitting" (VBool true); ShowToast t;
                        SetState "isSubmitting" (VBool false) ];
             tick := 0 |})
       ∧ destructive t = true.
Proof.
  exact (schedule_invalid_date Examples.backend Examples.host Examples.undated
           Examples.world eq_refl).
Defined.

(** The document a fulfilled [handleSubmit] adds, and the world it
    leaves: one write and the two reads of the refresh. *)
Lemma handleSubmit_world B host f w ms :
  Date_parse host (form_matchDate f +:+ "T" +:+ form_matchTime f) = Some ms →
  fails B (tick w) = None →
  ∃ doc delta,
    handleSubmit B host f w
    = (Normal (),
       {| db := <[Matches := <[auto_id B (tick w) := doc]> (db w Matches)]> (db w);
          trace := trace w ++ delta; tick := S (S (S (tick w))) |})
    ∧ doc = list_to_map
              [ ("opponent", VString (trim (form_opponent f)));
                ("match_date", VString (iso_string host ms));
                ("stadium", or_null (trim (form_stadium f)));
                ("competition_id", or_null (form_competitionId f));
                ("kit_color", or_null (trim (form_kitColor f)));
                ("status", VString "upcoming");
                ("goals_scored", VNull);
                ("goals_conceded", VNull);
                ("points_earned", VNull);
                ("is_visible", VBool true);
                ("created_at", VString (now_iso host));
                ("updated_at", VString (now_iso host)) ].
Proof.
  intros Hd Hf. unfold handleSubmit. run. rewrite Hd. run. rewrite Hf. run.
  refreshed. run. rewrite <- !app_assoc. do 2 eexists. split; reflexivity.
Qed.

(** X2. A scheduled match: when the date is one and the call is
    fulfilled, the store gains one match document under the id the
    backend gave: upcoming, visible, without a result, the opponent
    trimmed, the date as an ISO string.  No other collection changes. *)
Theorem schedule_stores_match B host f w ms :
  Date_parse host (form_matchDate f +:+ "T" +:+ form_matchTime f) = Some ms →
  fails B (tick w) = None →
  let w' := (handleSubmit B host f w).2 in
  ∃ doc,
    db w' Matches = <[auto_id B (tick w) := doc]> (db w Matches)
    ∧ (∀ c, c ≠ Matches → db w' c = db w c)
    ∧ doc !! "opponent" = Some (VString (trim (form_opponent f)))
    ∧ doc !! "match_date" = Some (VString (iso_string host ms))
    ∧ doc !! "status" = Some (VString "upcoming")
    ∧ doc !! "is_visible" = Some (VBool true)
    ∧ doc !! "goals_scored" = Some VNull ∧ doc !! "goals_conceded" = Some VNull
    ∧ doc !! "points_earned" = Some VNull.
Proof.
  intros Hd Hf w'. subst w'.
  destruct (handleSubmit_world B host f w ms Hd Hf) as (doc & delta & -> & ->).
  eexists. simpl. split; [by rewrite fn_lookup_insert|].
  split; [intros c Hc; by rewrite fn_lookup_insert_ne|].
  repeat split; reflexivity.
Qed.

(** The match against " Rivals " is stored against "Rivals". *)
Lemma schedule_stores_match_witness :
  ∃ doc,
    db (handleSubmit Examples.backend Examples.host Examples.kickoff Examples.world).2 Matches
    = <["p3" := doc]> (Examples.store Matches)
    ∧ doc !! "opponent" = Some (VString "Rivals").
Proof.
  destruct (schedule_stores_match Examples.backend Examples.host Examples.kickoff
              Examples.world 1772388000000 eq_refl eq_refl) as (doc & H1 & _ & H2 & _).
  exists doc. exact (conj H1 H2).
Defined.

(** X3. The effect of one toggle, and of two.  The document of the
    match gets [is_visible] set to the opposite of what the row shows, a
    row without the field counting as visible, and nothing else changes.
    Toggling again from the refreshed row sets it back, so that a match
    stored with the boolean the row showed is exactly as before. *)
Theorem toggleVisibility_round_trip B host m w id old :
  match_id m = Some id → id ≠ "" → db w Matches !! id = Some old →
  fails B (tick w) = None → fails B (tick w + 3) = None →
  let flipped := negb (not_false (is_visible m)) in
  let refreshed := {| match_id := match_id m; opponent := opponent m;
                      match_date := match_date m; is_visible := VBool flipped |} in
  let w1 := (toggleVisibility B host m w).2 in
  let w2 := (toggleVisibility B host refreshed w1).2 in
  db w1 Matches = <[id := <["is_visible" := VBool flipped]> old]> (db w Matches)
  ∧ db w2 Matches = <[id := <["is_visible" := VBool (negb flipped)]> old]> (db w Matches)
  ∧ (∀ c, c ≠ Matches → db w1 c = db w c ∧ db w2 c = db w c)
  ∧ (old !! "is_visible" = Some (is_visible m) → is_visible m = VBool (negb flipped) →
     db w2 Matches = db w Matches).
Proof.
  intros Hid Hne Hold Hf Hf' flipped refreshed w1 w2.
  apply String.eqb_neq in Hne.
  assert (Hw1 : ∃ delta,
    w1 = {| db := <[Matches := <[id := <["is_visible" := VBool flipped]> old]> (db w Matches)]>
                    (db w);
            trace := trace w ++ delta; tick := (tick w + 3)%nat |}).
  { subst w1. unfold toggleVisibility. rewrite Hid. simpl. rewrite Hne. run.
    rewrite Hf. run. rewrite Hold. run. refreshed. run. rewrite <- !app_assoc.
    eexists. rewrite <- insert_union_singleton_l.
    replace (tick w + 3)%nat with (S (S (S (tick w)))) by lia. reflexivity. }
  destruct Hw1 as [delta1 Hw1].
  subst w2. rewrite Hw1. clear Hw1 w1.
  unfold toggleVisibility, refreshed. simpl. rewrite Hid. simpl.
  rewrite Hne. run. rewrite Hf'. run. rewrite fn_lookup_insert, lookup_insert_eq. run.
  refreshed. run. rewrite !fn_lookup_insert.
  rewrite <- insert_union_singleton_l, !insert_insert_eq.
  replace (if flipped then true else false) with flipped by (by destruct flipped).
  split; [done|]. split; [done|]. split.
  - intros c Hc. by rewrite !fn_lookup_insert_ne.
  - intros Hstored Hbool. rewrite <- Hbool, (insert_id old) by done. by rewrite insert_id.
Qed.

(** Match m1, stored without the field, is hidden by the first toggle
    and visible after the second. *)
Lemma toggleVisibility_round_trip_witness :
  let old : Doc := {[ "opponent" := VString "Rivals" ]} in
  let w1 := (toggleVisibility Examples.backend Examples.host Examples.fixture
               Examples.world).2 in
  let shown := {| match_id := Some "m1"; opponent := "Rivals"; match_date := VUndefined;
                  is_visible := VBool false |} in
  db w1 Matches = <["m1" := <["is_visible" := VBool false]> old]> (Examples.store Matches)
  ∧ db (toggleVisibility Examples.backend Examples.host shown w1).2 Matches
    = <["m1" := <["is_visible" := VBool true]> old]> (Examples.store Matches).
Proof.
  destruct (toggleVisibility_round_trip Examples.backend Examples.host Examples.fixture
              Examples.world "m1" {[ "opponent" := VString "Rivals" ]}
              eq_refl ltac:(discriminate) eq_refl eq_refl eq_refl) as (H1 & H2 & _).
  exact (conj H1 H2).
Defined.

(** X4. Nothing is deleted without the confirmation.  A match without
    an id, and a match the administrator declines to delete, are left
    alone: no call is sent.  A match whose date is not a valid one cannot
    be deleted from this page: the handler throws while it builds the
    question, before asking and outside its [try]. *)
Theorem deleteMatch_needs_confirmation B host m w :
  let r := deleteMatch B host m w in
  (no_id (match_id m) = true → r = (Normal (), w))
  ∧ (no_id (match_id m) = false → toDate host (match_date m) = Normal None →
       ∃ e, r = (Throw e, w))
  ∧ (∀ ms, no_id (match_id m) = false → toDate host (match_date m) = Normal (Some ms) →
       confirm_answer B (confirmation m (format_PPPp host ms)) = false →
       r = (Normal (),
            {| db := db w;
               trace := trace w ++ [Confirm (confirmation m (format_PPPp host ms))];
               tick := tick w |})).
Proof.
  intros r. subst r. unfold deleteMatch. split; [|split].
  - intros ->. reflexivity.
  - intros -> ->. run. eexists. reflexivity.
  - intros ms -> ->. run. intros ->. reflexivity.
Qed.

(** X5. Scheduling a match and deleting it again.  With a backend that
    fulfils every call, an id that is new, and the stored date read back
    as a date, deleting the row just scheduled leaves the matches
    exactly as they were before the two operations. *)
Theorem schedule_then_delete B host f w ms ms' :
  (∀ n, fails B n = None) →
  Date_parse host (form_matchDate f +:+ "T" +:+ form_matchTime f) = Some ms →
  Date_parse host (iso_string host ms) = Some ms' →
  let id := auto_id B (tick w) in
  let row := {| match_id := Some id; opponent := trim (form_opponent f);
                match_date := VString (iso_string host ms); is_visible := VBool true |} in
  id ≠ "" → db w Matches !! id = None →
  confirm_answer B (confirmation row (format_PPPp host ms')) = true →
  let w1 := (handleSubmit B host f w).2 in
  let w2 := (deleteMatch B host row w1).2 in
  is_Some (db w1 Matches !! id)
  ∧ db w2 Matches = db w Matches ∧ db w2 (Lineups id) = ∅ ∧ db w2 (Events id) = ∅.
Proof.
  intros Hok Hd Hback id row Hne Hfresh Hyes w1 w2.
  destruct (handleSubmit_world B host f w ms Hd (Hok _)) as (doc & delta & Hrun1 & _).
  assert (Hdb : db w1 Matches = <[id := doc]> (db w Matches)).
  { subst w1. rewrite Hrun1. simpl. by rewrite fn_lookup_insert. }
  split; [rewrite Hdb, lookup_insert_eq; by eexists|].
  destruct (deleteMatch_run B host row w1 id (Some ms') (format_PPPp host ms'))
    as (w' & Hrun & Hout); try done.
  { simpl. unfold toDate. simpl. by rewrite Hback. }
  subst w2. rewrite Hrun. simpl.
  destruct Hout as [t Hf | t _ Hf | t _ Hf | t refresh _ _ _ _ _ Hm HL HE].
  - destruct Hf as [Hf|Hf]; by rewrite Hok in Hf.
  - destruct Hf. intros i _. apply Hok.
  - by rewrite Hok in Hf.
  - rewrite Hm, Hdb, delete_insert_eq, delete_id by done. done.
Qed.

(** The match against Rivals, scheduled and deleted. *)
Lemma schedule_then_delete_witness :
  let w1 := (handleSubmit Examples.backend Examples.clock Examples.kickoff
               Examples.world).2 in
  let row := {| match_id := Some "p3"; opponent := "Rivals";
                match_date := VString "2026-03-01T18:00:00.000Z";
                is_visible := VBool true |} in
  is_Some (db w1 Matches !! "p3")
  ∧ db (deleteMatch Examples.backend Examples.clock row w1).2 Matches
    = Examples.store Matches.
Proof.
  destruct (schedule_then_delete Examples.backend Examples.clock Examples.kickoff
              Examples.world 1772388000000 1772388000000
              (λ _, eq_refl) eq_refl eq_refl ltac:(discriminate) eq_refl eq_refl)
    as (H1 & H2 & _).
  exact (conj H1 H2).
Defined.

(** *** What the refresh shows *)

Lemma NoDup_defaultCompetitions host : NoDup (defaultCompetitions host).*1.
Proof. simpl. distinct. Qed.

Lemma with_id_fst (rows : list (string * Doc)) : (with_id <$> rows).*1 = rows.*1.
Proof. induction rows as [|[k d] rows IH]; [done|]. rewrite !fmap_cons, IH. done. Qed.

(** The competition the map of [fetchData] holds for an id: the
    predefined one if the id is predefined, the stored one otherwise. *)
Lemma competitionsMap_lookup host (stored : gmap string Doc) c :
  (list_to_map (defaultCompetitions host ++ (with_id <$> map_to_list stored))
     : gmap string Doc) !! c
  = match (list_to_map (defaultCompetitions host) : gmap string Doc) !! c with
    | Some comp => Some comp
    | None => (λ doc, (with_id (c, doc)).2) <$> stored !! c
    end.
Proof.
  rewrite list_to_map_app, lookup_union.
  destruct ((list_to_map (defaultCompetitions host) : gmap string Doc) !! c)
    as [comp|] eqn:E.
  { by destruct (list_to_map (with_id <$> map_to_list stored) !! c). }
  assert (Hdb : (list_to_map (with_id <$> map_to_list stored) : gmap string Doc) !! c
                = (λ doc, (with_id (c, doc)).2) <$> stored !! c).
  { destruct (stored !! c) as [doc|] eqn:Hc; simpl.
    - apply elem_of_list_to_map.
      + rewrite with_id_fst. apply NoDup_fst_map_to_list.
      + apply list_elem_of_fmap. exists (c, doc). split; [done|].
        by apply elem_of_map_to_list.
    - apply not_elem_of_list_to_map. rewrite with_id_fst.
      intros Hin. apply list_elem_of_fmap in Hin as ([k doc] & -> & Hin).
      apply elem_of_map_to_list in Hin. simpl in Hc. congruence. }
  rewrite Hdb. by destruct (stored !! c).
Qed.

(** The listing of an ordered query follows the index. *)
Lemma index_le_total B c field descending : Total (index_le B c field descending).
Proof. intros a b. unfold index_le. lia. Qed.

Lemma Sorted_index B c field descending l :
  Sorted (index_le B c field descending) (merge_sort (index_le B c field descending) l).
Proof. apply Sorted_merge_sort. apply index_le_total. Qed.

(** X6. What the refresh puts on the page when both reads are
    fulfilled.  The competitions are the seven predefined ones followed
    by the stored ones, no id twice, none of the stored ones missing.
    The rows are the stored matches that have a [match_date] field, each
    once, in the order of the index: a match without the field is not
    listed.  The competition of a row is the predefined one when its
    [competition_id] names one, whatever is stored under that id; the
    stored one otherwise; and [null] when the id is missing, empty or
    names nothing. *)
Theorem fetchData_joins B host w :
  fails B (tick w) = None → fails B (S (tick w)) = None →
  ∃ rows comps,
    effects_since w (fetchData B host w).2
    = [ GetDocs Matches; GetDocs Competitions; SetRows "matches" rows;
        SetRows "competitions" comps; SetState "isLoading" (VBool false) ]
    ∧ NoDup comps.*1
    ∧ (∃ stored, comps = defaultCompetitions host ++ stored)
    ∧ (∀ c, is_Some (db w Competitions !! c) → c ∈ comps.*1)
    ∧ NoDup rows.*1
    ∧ (∀ k, k ∈ rows.*1
            ↔ ∃ data, db w Matches !! k = Some data ∧ is_Some (data !! "match_date"))
    ∧ (∃ docs, Sorted (index_le B Matches "match_date" true) docs
         ∧ rows.*1 = docs.*1
         ∧ ∀ k data, (k, data) ∈ docs → db w Matches !! k = Some data)
    ∧ ∀ k row, (k, row) ∈ rows → ∃ data,
        db w Matches !! k = Some data
        ∧ ((∀ c comp, data !! "competition_id" = Some (VString c) →
              (c, comp) ∈ defaultCompetitions host →
              row !! "competitions" = Some (VObject (map_to_list comp)))
           ∧ (∀ c doc, data !! "competition_id" = Some (VString c) → c ≠ "" →
                c ∉ (defaultCompetitions host).*1 → db w Competitions !! c = Some doc →
                row !! "competitions" = Some (VObject (map_to_list (with_id (c, doc)).2)))
           ∧ ((∀ c, data !! "competition_id" = Some (VString c) →
                 c = "" ∨ ((c ∉ (defaultCompetitions host).*1)
                           ∧ db w Competitions !! c = None)) →
              row !! "competitions" = Some VNull)).
Proof.
  intros Hf1 Hf2.
  pose (fromDb := with_id <$> map_to_list (db w Competitions)).
  pose (competitionsMap :=
          list_to_map (defaultCompetitions host ++ fromDb) : gmap string Doc).
  pose (dated := filter (λ doc : string * Doc, is_Some (doc.2 !! "match_date"))
                   (map_to_list (db w Matches))).
  pose (snapshot := merge_sort (index_le B Matches "match_date" true) dated).
  assert (Hperm : snapshot ≡ₚ dated) by apply merge_sort_Permutation.
  assert (Hin : ∀ k data, (k, data) ∈ snapshot
                          ↔ db w Matches !! k = Some data ∧ is_Some (data !! "match_date")).
  { intros k data. rewrite Hperm. unfold dated. rewrite list_elem_of_filter.
    rewrite elem_of_map_to_list. simpl. tauto. }
  exists ((λ row, (row.1, <["competitions" := joined_competition competitionsMap row.2]>
                            (with_id row).2)) <$> snapshot),
         (defaultCompetitions host
          ++ filter (λ row, row.1 ∉ (defaultCompetitions host).*1) fromDb).
  assert (Hids : ((λ row : string * Doc,
                     (row.1, <["competitions" := joined_competition competitionsMap row.2]>
                               (with_id row).2)) <$> snapshot).*1 = snapshot.*1).
  { rewrite <- list_fmap_compose. done. }
  split.
  { unfold fetchData. run. rewrite Hf1, Hf2. run.
    erewrite effects_since_app by (rewrite <- !app_assoc; reflexivity). reflexivity. }
  split; [|split; [|split; [|split; [|split; [|split]]]]].
  - rewrite fmap_app. apply NoDup_app. split; [apply NoDup_defaultCompetitions|]. split.
    + intros c Hc Hc'. apply list_elem_of_fmap in Hc' as ([c' doc] & -> & Hc').
      apply list_elem_of_filter in Hc' as [Hnot _]. done.
    + apply (sublist_NoDup _ (fromDb.*1)).
      * unfold fromDb. rewrite with_id_fst. apply NoDup_fst_map_to_list.
      * apply fmap_sublist, sublist_filter.
  - by eexists.
  - intros c [doc Hc]. rewrite fmap_app, elem_of_app.
    destruct (decide (c ∈ (defaultCompetitions host).*1)) as [Hd|Hnot]; [by left|right].
    apply list_elem_of_fmap. exists (with_id (c, doc)). split; [done|].
    apply list_elem_of_filter. split; [done|].
    apply list_elem_of_fmap. exists (c, doc). split; [done|]. by apply elem_of_map_to_list.
  - rewrite Hids, Hperm. apply (sublist_NoDup _ ((map_to_list (db w Matches)).*1)).
    + apply NoDup_fst_map_to_list.
    + apply fmap_sublist, sublist_filter.
  - intros k. rewrite Hids, list_elem_of_fmap. split.
    + intros ([k' data] & -> & Hk). exists data. by apply Hin.
    + intros (data & Hk). exists (k, data). split; [done|]. by apply Hin.
  - exists snapshot. split; [apply Sorted_index|]. split; [exact Hids|].
    intros k data Hk. by apply Hin in Hk as [Hk _].
  - intros k row Hrow. apply list_elem_of_fmap in Hrow as ([k' data] & [= -> ->] & Hk).
    apply Hin in Hk as [Hk _]. exists data. split; [done|].
    simpl. rewrite lookup_insert_eq. unfold joined_competition, competitionsMap, fromDb.
    split; [|split].
    + intros c comp -> Hcomp.
      assert (c ≠ "") as ->%String.eqb_neq.
      { unfold defaultCompetitions in Hcomp. rewrite !elem_of_cons, elem_of_nil in Hcomp.
        unfold competition in Hcomp. intuition congruence. }
      rewrite competitionsMap_lookup.
      assert ((list_to_map (defaultCompetitions host) : gmap string Doc) !! c = Some comp)
        as ->; [|done].
      apply elem_of_list_to_map; [apply NoDup_defaultCompetitions|done].
    + intros c doc -> ->%String.eqb_neq Hnot Hc.
      rewrite competitionsMap_lookup.
      rewrite (not_elem_of_list_to_map_1 _ c) by done. by rewrite Hc.
    + intros Hnone. destruct (data !! "competition_id") as [[| | | |c| |]|]; try done.
      destruct (String.eqb c "") eqn:E; [done|].
      destruct (Hnone c eq_refl) as [->|[Hnot Hc]]; [done|].
      rewrite competitionsMap_lookup.
      rewrite (not_elem_of_list_to_map_1 _ c) by done. by rewrite Hc.
Qed.

(** The list of the example fixtures: the match with a date is listed,
    the one without is not, and the competitions are the seven
    predefined ones. *)
Lemma fetchData_joins_witness :
  ∃ rows comps,
    effects_since Examples.calendar
      (fetchData Examples.backend Examples.host Examples.calendar).2
    = [ GetDocs Matches; GetDocs Competitions; SetRows "matches" rows;
        SetRows "competitions" comps; SetState "isLoading" (VBool false) ]
    ∧ NoDup comps.*1 ∧ "m2" ∈ rows.*1 ∧ "m1" ∉ rows.*1.
Proof.
  destruct (fetchData_joins Examples.backend Examples.host Examples.calendar
              eq_refl eq_refl)
    as (rows & comps & H1 & H2 & _ & _ & _ & H3 & _).
  exists rows, comps. split; [exact H1|]. split; [exact H2|]. split.
  - apply H3. eexists. split; [reflexivity|]. by eexists.
  - intros (data & Hd & [date Hdate])%H3. vm_compute in Hd. injection Hd as <-.
    vm_compute in Hdate. discriminate.
Defined.

End matches.

(** ** Invariants of the store *)

Section hoare.

Context (Inv : Firestore → Prop).

Lemma hoare_ret {A} (a : A) (Q : A → Prop) : Q a → hoare Inv (mret a) Q.
Proof. intros Ha w Hw. split; [done|]. intros a' [= <-]. done. Qed.

Lemma hoare_ret_any {A} (a : A) : hoare Inv (mret a) (λ _, True).
Proof. by apply hoare_ret. Qed.

Lemma hoare_bind {A R} (m : M World A) (k : A → M World R) Q Q' :
  hoare Inv m Q → (∀ a, Q a → hoare Inv (k a) Q') → hoare Inv (m ≫= k) Q'.
Proof.
  intros Hm Hk w Hw. rewrite bind_run. destruct (Hm w Hw) as [Hi Hq].
  destruct (m w) as [[a|e] w1]; simpl in *; [|done].
  apply Hk; [by apply Hq|done].
Qed.

Lemma hoare_try_catch {A} (body : M World A) handler Q :
  hoare Inv body Q → (∀ e, hoare Inv (handler e) Q) → hoare Inv (try_catch body handler) Q.
Proof.
  intros Hb Hh w Hw. unfold try_catch. destruct (Hb w Hw) as [Hi Hq].
  destruct (body w) as [[a|e] w1]; simpl in *; [by split|]. by apply Hh.
Qed.

Lemma hoare_try_finally {A} (body : M World A) final Q :
  hoare Inv body Q → hoare Inv final (λ _, True) → hoare Inv (try_finally body final) Q.
Proof.
  intros Hb Hf w Hw. unfold try_finally. destruct (Hb w Hw) as [Hi Hq].
  destruct (body w) as [r w1]; simpl in *. destruct (Hf w1 Hi) as [Hi2 _].
  destruct (final w1) as [[[]|e] w2]; simpl in *; by split.
Qed.

Lemma hoare_start {A} (m : M World A) Q :
  hoare Inv m Q → hoare Inv (start m) (λ _, True).
Proof.
  intros Hm w Hw. unfold start. destruct (Hm w Hw) as [Hi _].
  destruct (m w) as [r w1]; simpl in *. by split.
Qed.

Lemma hoare_await {A} (p : completion A) (Q : A → Prop) :
  (∀ a, p = Normal a → Q a) → hoare Inv (await p) Q.
Proof. intros Hp w Hw. by split. Qed.

Lemma hoare_await_any {A} (p : completion A) : hoare Inv (await p) (λ _, True).
Proof. by apply hoare_await. Qed.

Lemma hoare_emit e : hoare Inv (emit e) (λ _, True).
Proof. intros w Hw. by split. Qed.

Lemma hoare_mapM {A R} (f : A → M World R) (l : list A) :
  (∀ x, x ∈ l → hoare Inv (f x) (λ _, True)) → hoare Inv (mapM f l) (λ _, True).
Proof.
  induction l as [|x l IH]; intros Hf.
  - by apply hoare_ret.
  - intros w Hw. rewrite mapM_cons_run.
    destruct (Hf x) with (w := w) as [Hi _]; [left|done|].
    destruct (f x w) as [[y|e] w1]; simpl in *; [|by split].
    destruct IH with (w := w1) as [Hi2 _]; [intros; apply Hf; by right|done|].
    destruct (mapM f l w1) as [[ys|e] w2]; simpl in *; by split.
Qed.

End hoare.

(** ** The admin player page *)

Section players.

Import ManagePlayers.

Ltac split_run :=
  repeat (run;
    match goal with
    | |- context [match fails ?B ?n with _ => _ end] => destruct (fails B n) eqn:?
    | |- context [match ?d Players !! ?id with _ => _ end] =>
        destruct (d Players !! id) eqn:?
    | |- context [match editing_id ?f with _ => _ end] => destruct (editing_id f) eqn:?
    | |- context [match avatarFile ?f with _ => _ end] => destruct (avatarFile f) eqn:?
    end); run.

Lemma fetchPlayers_run B w :
  ∃ delta n,
    fetchPlayers B w = (Normal (), {| db := db w; trace := trace w ++ delta; tick := n |})
    ∧ ∀ f, Forall (writes_jersey f) delta.
Proof.
  unfold fetchPlayers. run.
  destruct (fails B (tick w)); run; rewrite <- ?app_assoc; simpl; do 2 eexists;
    (split; [reflexivity|]); intros f; repeat constructor.
Qed.

Ltac refresh :=
  match goal with
  | |- context [fetchPlayers ?B ?w1] =>
      let refresh := fresh "refresh" in
      let n := fresh "n" in
      let Hrun := fresh "Hrun" in
      destruct (fetchPlayers_run B w1) as (refresh & n & Hrun & Hreads);
      rewrite Hrun; clear Hrun
  end.

Lemma handleSubmit_writes B host f w :
  Forall (writes_jersey f) (effects_since w (handleSubmit B host f w).2).
Proof.
  unfold handleSubmit.
  split_run; try refresh; run; erewrite effects_since_app by trace_eq;
    repeat first [ apply Forall_app; split | apply List.Forall_cons | apply List.Forall_nil
                 | by apply Hreads ];
    simpl; done.
Qed.

Lemma handleSubmit_stores B host f w :
  (∀ n, fails B n = None) →
  (∀ id, editing_id f = Some id → is_Some (db w Players !! id)) →
  let k := (tick w + (if avatarFile f is Some _ then 1 else 0))%nat in
  ∃ data, db (handleSubmit B host f w).2 Players
          !! default (auto_id B k) (editing_id f) = Some data
    ∧ data !! "jersey_number" = Some (VNumber (parseInt (jerseyNumber f))).
Proof.
  intros Hok Hedit. unfold handleSubmit.
  destruct (editing_id f) as [id|] eqn:He.
  - destruct (Hedit id eq_refl) as [old Hold].
    destruct (avatarFile f); run; repeat (first [rewrite Hok | rewrite Hold]; run);
      refresh; run; rewrite fn_lookup_insert, lookup_insert_eq; eexists;
      (split; [reflexivity|]); by apply lookup_union_Some_l.
  - destruct (avatarFile f); run; repeat (rewrite Hok; run); refresh; run;
      rewrite ?Nat.add_1_r, ?Nat.add_0_r, fn_lookup_insert, lookup_insert_eq;
      eexists; (split; [reflexivity|]); reflexivity.
Qed.

(** C5. The save handler checks nothing: whatever the string entered,
    every player document it writes carries [parseInt] of it as
    [jersey_number], and when the backend fulfils the calls that is what
    the created or updated document holds.  [parseInt] is the one of the
    language: the numeral of any integer below 2^53, in the range 1-99
    or not, is stored as that integer, longer numerals are rounded to
    the nearest Number, and a text that starts with no digit is stored
    as NaN.  The range 1-99 is only what the attributes of the input
    say. *)
Theorem handleSubmit_stores_parseInt B host f w :
  let w' := (handleSubmit B host f w).2 in
  let k := (tick w + (if avatarFile f is Some _ then 1 else 0))%nat in
  Forall (writes_jersey f) (effects_since w w')
  ∧ ((∀ n, fails B n = None) →
     (∀ id, editing_id f = Some id → is_Some (db w Players !! id)) →
     ∃ data, db w' Players !! default (auto_id B k) (editing_id f) = Some data
       ∧ data !! "jersey_number" = Some (VNumber (parseInt (jerseyNumber f)))
       ∧ (∀ n, Z.abs n < 2 ^ 53 → jerseyNumber f = pretty n →
               data !! "jersey_number" = Some (VNumber (Num n))))
  ∧ (parseInt "0", parseInt "100", parseInt "-5", parseInt "99999999999999999999",
     parseInt "", parseInt "abc")
    = (Num 0, Num 100, Num (-5), Num 100000000000000000000, NaN, NaN)
  ∧ (input_min jerseyNumberInput, input_max jerseyNumberInput) = (Some "1", Some "99").
Proof.
  split; [apply handleSubmit_writes|]. split; [|split; [by vm_compute|reflexivity]].
  intros Hok Hedit.
  destruct (handleSubmit_stores B host f w Hok Hedit) as (data & Hdata & Hj).
  exists data. split; [done|]. split; [done|].
  intros n Hn Hs. by rewrite Hj, Hs, parseInt_safe.
Qed.

(** A new player entered with number 150 is stored with number 150,
    above the maximum the input declares. *)
Lemma handleSubmit_stores_parseInt_witness :
  ∃ data,
    db (handleSubmit Examples.backend Examples.host Examples.new_player Examples.world).2
      Players !! "p3" = Some data
    ∧ data !! "jersey_number" = Some (VNumber (Num 150)).
Proof.
  destruct (proj1 (proj2 (handleSubmit_stores_parseInt Examples.backend Examples.host
                            Examples.new_player Examples.world))
              (λ _, eq_refl) (λ id H, ltac:(discriminate)))
    as (data & Hdata & _ & Hn).
  exists data. split; [exact Hdata|]. apply (Hn 150); [done|reflexivity].
Defined.

(** *** deletePlayer: what can be removed, whatever the backend answers *)

Section removal.

Context (B : Backend) (host : Host) (id : string) (d0 : Firestore).

Lemma only_removed_refl : only_removed id d0 d0.
Proof. intros c k. by left. Qed.

(** A snapshot read under the invariant lists documents of [d0]. *)
Lemma getDocs_snapshot c :
  hoare (only_removed id d0) (getDocs B c)
    (λ p, ∀ snapshot, p = Normal snapshot →
          ∀ k data, (k, data) ∈ snapshot → d0 c !! k = Some data).
Proof.
  intros w Hw. rewrite getDocs_run. simpl. split; [done|].
  intros p [= <-] snapshot Hs k data Hin.
  destruct (fails B (tick w)); [done|]. injection Hs as <-.
  apply elem_of_map_to_list in Hin. destruct (Hw c k) as [E|[E _]]; congruence.
Qed.

Lemma deleteDoc_removes c k :
  (∀ data, d0 c !! k = Some data → belongs id c k data) →
  hoare (only_removed id d0) (deleteDoc B c k) (λ _, True).
Proof.
  intros Hk w Hw. rewrite deleteDoc_run. simpl. split; [|done].
  destruct (fails B (tick w)); [done|]. intros c' k'.
  destruct (decide (c' = c)) as [->|Hc].
  - rewrite fn_lookup_insert. destruct (decide (k' = k)) as [->|Hne].
    + rewrite lookup_delete_eq. destruct (d0 c !! k) as [data|] eqn:E; [right|by left].
      split; [done|]. exists data. auto.
    + rewrite lookup_delete_ne by done. apply Hw.
  - rewrite fn_lookup_insert_ne by done. apply Hw.
Qed.

Lemma cleanup_removes c snapshot :
  subcollection c →
  (∀ k data, (k, data) ∈ snapshot → d0 c !! k = Some data) →
  hoare (only_removed id d0) (cleanup B c id snapshot) (λ _, True).
Proof.
  intros Hc Hs. unfold cleanup. apply hoare_mapM. intros [k data] Hin.
  apply list_elem_of_filter in Hin as [Href Hin]. simpl in *.
  apply deleteDoc_removes. intros data' Hd. rewrite (Hs k data Hin) in Hd.
  injection Hd as <-. destruct c; done.
Qed.

Lemma cleanup_match_removes matchDoc :
  hoare (only_removed id d0) (cleanup_match B id matchDoc) (λ _, True).
Proof.
  unfold cleanup_match.
  eapply hoare_bind; [apply getDocs_snapshot|]. intros p1 H1.
  eapply hoare_bind; [apply hoare_await; intros a Ha; exact (H1 a Ha)|]. intros s1 Hs1.
  eapply hoare_bind; [by apply cleanup_removes|]. intros r1 _.
  eapply hoare_bind; [apply getDocs_snapshot|]. intros p2 H2.
  eapply hoare_bind; [apply hoare_await; intros a Ha; exact (H2 a Ha)|]. intros s2 Hs2.
  eapply hoare_bind; [by apply cleanup_removes|]. intros r2 _.
  apply hoare_ret_any.
Qed.

Lemma getDocs_orderBy_reads c field descending :
  hoare (only_removed id d0) (getDocs_orderBy B c field descending) (λ _, True).
Proof. intros w Hw. rewrite getDocs_orderBy_run. by split. Qed.

Lemma fetchPlayers_keeps : hoare (only_removed id d0) (fetchPlayers B) (λ _, True).
Proof.
  unfold fetchPlayers. apply hoare_try_finally; [|apply hoare_emit].
  apply hoare_try_catch; [|intros; apply hoare_emit].
  eapply hoare_bind; [apply getDocs_orderBy_reads|]. intros p _.
  eapply hoare_bind; [apply hoare_await_any|]. intros s _. simpl.
  apply hoare_emit.
Qed.

Lemma deletePlayer_removes p :
  player_id p = Some id → hoare (only_removed id d0) (deletePlayer B host p) (λ _, True).
Proof.
  intros Hid. unfold deletePlayer. rewrite Hid. simpl.
  destruct (String.eqb id ""); simpl. { apply hoare_ret_any. }
  unfold window_confirm.
  eapply hoare_bind.
  { eapply hoare_bind; [apply hoare_emit|]. intros _ _. apply hoare_ret_any. }
  intros confirmed _. destruct confirmed; simpl; [|apply hoare_ret_any].
  apply hoare_try_catch; [|intros; apply hoare_emit].
  eapply hoare_bind; [apply getDocs_snapshot|]. intros p1 _.
  eapply hoare_bind; [apply hoare_await_any|]. intros ms _.
  eapply hoare_bind; [apply hoare_mapM; intros; apply cleanup_match_removes|]. intros rs _.
  eapply hoare_bind; [apply hoare_await_any|]. intros _ _.
  eapply hoare_bind; [by apply deleteDoc_removes|]. intros r _.
  eapply hoare_bind; [apply hoare_await_any|]. intros _ _.
  eapply hoare_bind; [apply hoare_emit|]. intros _ _.
  eapply hoare_bind; [eapply hoare_start; apply fetchPlayers_keeps|]. intros _ _.
  apply hoare_ret_any.
Qed.

End removal.

(** *** deletePlayer: what is removed when every call is fulfilled *)

Section success.

Context (B : Backend) (host : Host) (id : string).
Hypothesis Hok : ∀ n, fails B n = None.

Lemma all_fulfilled_from n len : fulfilled_from B n len.
Proof. intros i _. apply Hok. Qed.

Lemma cleaned_lookup (docs : gmap string Doc) k :
  cleaned id docs !! k
  = match docs !! k with
    | Some data => if references id data then None else Some data
    | None => None
    end.
Proof.
  unfold cleaned. destruct (docs !! k) as [data|] eqn:E.
  - destruct (references id data) eqn:R.
    + apply map_lookup_filter_None. right. intros data' E'. simpl. congruence.
    + apply map_lookup_filter_Some. by split.
  - apply map_lookup_filter_None. by left.
Qed.

Lemma cleaned_idemp (docs : gmap string Doc) :
  cleaned id (cleaned id docs) = cleaned id docs.
Proof.
  apply map_eq. intros k. rewrite !cleaned_lookup.
  destruct (docs !! k) as [data|]; [|done].
  destruct (references id data) eqn:R; [done|]. by rewrite R.
Qed.

Lemma cleanup_ok c w :
  ∃ rs d n delta,
    cleanup B c id (map_to_list (db w c)) w
    = (Normal rs, {| db := d; trace := trace w ++ delta; tick := n |})
    ∧ all_fulfilled rs
    ∧ d c = cleaned id (db w c)
    ∧ (∀ c', c' ≠ c → d c' = db w c')
    ∧ Forall (λ e, ∃ k, e = DeleteDoc c k) delta.
Proof.
  unfold cleanup.
  destruct (delete_batch B c
              (filter (λ doc, references id doc.2 = true) (map_to_list (db w c))) w)
    as (rs & d & Hrun & Hother & Hsame & Hall & Hgone).
  exists rs, d. do 2 eexists. split; [exact Hrun|].
  split; [apply Hall, all_fulfilled_from|]. split; [|split; [done|]].
  - apply map_eq. intros k. rewrite cleaned_lookup.
    destruct (db w c !! k) as [data|] eqn:E.
    + destruct (references id data) eqn:R.
      * apply Hgone; [apply all_fulfilled_from|].
        apply list_elem_of_fmap. exists (k, data). split; [done|].
        apply list_elem_of_filter. split; [done|]. by apply elem_of_map_to_list.
      * destruct (Hsame k) as [E'|[_ Hin]]; [congruence|].
        apply list_elem_of_fmap in Hin as ([k' data'] & -> & Hin).
        apply list_elem_of_filter in Hin as [R' Hin]. apply elem_of_map_to_list in Hin.
        simpl in *. congruence.
    + destruct (Hsame k) as [E'|[E' _]]; congruence.
  - apply Forall_fmap. apply Forall_forall. intros k _. by eexists.
Qed.

Lemma cleanup_match_ok matchDoc w :
  ∃ rs w' delta,
    cleanup_match B id matchDoc w = (Normal rs, w')
    ∧ all_fulfilled rs
    ∧ db w' (Lineups matchDoc.1) = cleaned id (db w (Lineups matchDoc.1))
    ∧ db w' (Events matchDoc.1) = cleaned id (db w (Events matchDoc.1))
    ∧ (∀ c, c ≠ Lineups matchDoc.1 → c ≠ Events matchDoc.1 → db w' c = db w c)
    ∧ trace w' = trace w ++ delta
    ∧ Forall is_cleanup delta.
Proof.
  destruct matchDoc as [m data]. unfold cleanup_match. simpl. run. rewrite Hok. run.
  match goal with
  | |- context [cleanup B (Lineups m) id _ ?w1] =>
      destruct (cleanup_ok (Lineups m) w1)
        as (rs1 & d1 & n1 & delta1 & Hrun1 & Hall1 & Hd1 & Ho1 & Hf1)
  end.
  simpl in *. rewrite Hrun1. clear Hrun1. run. rewrite Hok. run.
  assert (E1 : d1 (Events m) = db w (Events m)) by by apply Ho1.
  rewrite E1.
  match goal with
  | |- context [cleanup B (Events m) id _ ?w2] =>
      destruct (cleanup_ok (Events m) w2)
        as (rs2 & d2 & n2 & delta2 & Hrun2 & Hall2 & Hd2 & Ho2 & Hf2)
  end.
  simpl in *. rewrite E1 in *. rewrite Hrun2. clear Hrun2. run.
  do 3 eexists. split; [reflexivity|]. simpl.
  split; [by apply all_fulfilled_app|].
  split; [by rewrite Ho2, Hd1|]. split; [done|]. split.
  - intros c Hc1 Hc2. by rewrite Ho2, Ho1.
  - split; [rewrite <- !app_assoc; reflexivity|].
    apply Forall_app. split; [by constructor|]. apply Forall_app. split.
    { eapply Forall_impl; [exact Hf1|]. intros e [k ->]. done. }
    apply Forall_app. split; [by constructor|].
    eapply Forall_impl; [exact Hf2|]. intros e [k ->]. done.
Qed.

Lemma cleanup_loop_ok (matches : list (string * Doc)) w :
  ∃ rss w' delta,
    mapM (cleanup_match B id) matches w = (Normal rss, w')
    ∧ all_fulfilled (List.concat rss)
    ∧ (∀ m, db w' (Lineups m)
            = if decide (m ∈ matches.*1) then cleaned id (db w (Lineups m))
              else db w (Lineups m))
    ∧ (∀ m, db w' (Events m)
            = if decide (m ∈ matches.*1) then cleaned id (db w (Events m))
              else db w (Events m))
    ∧ (∀ c, ¬ subcollection c → db w' c = db w c)
    ∧ trace w' = trace w ++ delta
    ∧ Forall is_cleanup delta.
Proof.
  revert w. induction matches as [|[m data] matches IH]; intros w.
  - exists [], w, []. rewrite app_nil_r. repeat split; try done. by eexists.
  - rewrite mapM_cons_run.
    destruct (cleanup_match_ok (m, data) w)
      as (rs & w1 & delta1 & Hrun1 & Hall1 & HL1 & HE1 & Ho1 & Ht1 & Hf1).
    rewrite Hrun1. clear Hrun1.
    destruct (IH w1) as (rss & w2 & delta2 & Hrun2 & Hall2 & HL2 & HE2 & Ho2 & Ht2 & Hf2).
    rewrite Hrun2. clear Hrun2. simpl in *.
    exists (rs :: rss), w2, (delta1 ++ delta2). split; [done|].
    split; [simpl; by apply all_fulfilled_app|].
    split; [|split; [|split; [|split]]].
    + intros m'. rewrite HL2. destruct (decide (m' = m)) as [->|Hne].
      * rewrite HL1. repeat case_decide; try done; [apply cleaned_idemp|..];
          exfalso; rewrite elem_of_cons in *; simpl in *; tauto.
      * rewrite Ho1 by congruence. repeat case_decide; try done;
          exfalso; rewrite elem_of_cons in *; simpl in *; tauto.
    + intros m'. rewrite HE2. destruct (decide (m' = m)) as [->|Hne].
      * rewrite HE1. repeat case_decide; try done; [apply cleaned_idemp|..];
          exfalso; rewrite elem_of_cons in *; simpl in *; tauto.
      * rewrite Ho1 by congruence. repeat case_decide; try done;
          exfalso; rewrite elem_of_cons in *; simpl in *; tauto.
    + intros c Hc. rewrite Ho2 by done. apply Ho1; intros ->; by apply Hc.
    + by rewrite Ht2, Ht1, app_assoc.
    + by apply Forall_app.
Qed.

End success.

(** C4. A confirmed [deletePlayer] on player [id] removes nothing but
    documents of that player, whatever the backend answers: every other
    document is left as it was.  When every call is fulfilled, the
    lineups and events of each match have lost exactly the entries whose
    [player_id] is [id], the player document is gone, the matches are
    untouched, and the deletion of the player document comes after the
    last read and deletion of the clean-up. *)
Theorem deletePlayer_cleanup B host p w id :
  player_id p = Some id → id ≠ "" →
  confirm_answer B (deleteConfirmation host p) = true →
  let w' := (deletePlayer B host p w).2 in
  only_removed id (db w) (db w')
  ∧ ((∀ n, fails B n = None) →
     (∀ m, db w' (Lineups m)
           = if decide (is_Some (db w Matches !! m)) then cleaned id (db w (Lineups m))
             else db w (Lineups m))
     ∧ (∀ m, db w' (Events m)
             = if decide (is_Some (db w Matches !! m)) then cleaned id (db w (Events m))
               else db w (Events m))
     ∧ db w' Players = delete id (db w Players)
     ∧ db w' Matches = db w Matches
     ∧ ∃ cleanups rest,
         effects_since w w'
         = Confirm (deleteConfirmation host p) :: GetDocs Matches
           :: cleanups ++ DeleteDoc Players id :: rest
         ∧ Forall is_cleanup cleanups).
Proof.
  intros Hid Hne Hconfirm. simpl. split.
  { apply (deletePlayer_removes B host id (db w) p Hid w). apply only_removed_refl. }
  intros Hok. unfold deletePlayer. rewrite Hid. simpl.
  apply String.eqb_neq in Hne. rewrite Hne. run. rewrite Hconfirm. run. rewrite Hok. run.
  match goal with
  | |- context [mapM (cleanup_match B id) _ ?w1] =>
      destruct (cleanup_loop_ok B id Hok (map_to_list (db w Matches)) w1)
        as (rss & w2 & delta & Hrun & Hall & HL & HE & Ho & Ht & Hf)
  end.
  rewrite Hrun. clear Hrun. run. destruct Hall as [l Hl]. rewrite Hl. run.
  rewrite Hok. run. refresh. run. simpl in *.
  assert (Hkeys : ∀ m, m ∈ (map_to_list (db w Matches)).*1 ↔ is_Some (db w Matches !! m)).
  { intros m. rewrite list_elem_of_fmap. split.
    - intros ([k data] & -> & Hin). apply elem_of_map_to_list in Hin. by eexists.
    - intros [data Hd]. exists (m, data). split; [done|]. by apply elem_of_map_to_list. }
  split; [|split; [|split; [|split]]].
  - intros m. rewrite fn_lookup_insert_ne by done. rewrite HL.
    repeat case_decide; try done; exfalso; rewrite Hkeys in *; tauto.
  - intros m. rewrite fn_lookup_insert_ne by done. rewrite HE.
    repeat case_decide; try done; exfalso; rewrite Hkeys in *; tauto.
  - rewrite fn_lookup_insert. by rewrite Ho by (simpl; tauto).
  - rewrite fn_lookup_insert_ne by done. by rewrite Ho by (simpl; tauto).
  - exists delta. eexists. split; [|done]. apply effects_since_app. simpl. rewrite Ht.
    rewrite <- !app_assoc. simpl. reflexivity.
Qed.

(** Deleting player p1 from the example store leaves the lineup entry of
    p2 and removes the player document. *)
Lemma deletePlayer_cleanup_witness :
  let w' := (deletePlayer Examples.backend Examples.host Examples.striker
               Examples.world).2 in
  db w' (Lineups "m1") = cleaned "p1" (Examples.store (Lineups "m1"))
  ∧ cleaned "p1" (Examples.store (Lineups "m1")) !! "l2" = Some (Examples.entry "p2")
  ∧ cleaned "p1" (Examples.store (Lineups "m1")) !! "l1" = None
  ∧ db w' Players = delete "p1" (Examples.store Players).
Proof.
  destruct (deletePlayer_cleanup Examples.backend Examples.host Examples.striker
              Examples.world "p1" eq_refl ltac:(discriminate) eq_refl) as [_ H].
  destruct (H (λ _, eq_refl)) as (HL & _ & HP & _).
  split; [exact (HL "m1")|]. split; [reflexivity|]. split; [reflexivity|]. exact HP.
Defined.

(** *** What a save, a switch and a deletion do to the store *)

#[local] Arguments playerData : simpl never.
#[local] Arguments resetForm : simpl never.

(** The refresh of the player list makes one read and leaves the store
    alone. *)
Lemma fetchPlayers_world B w :
  ∃ delta,
    fetchPlayers B w
    = (Normal (), {| db := db w; trace := trace w ++ delta; tick := S (tick w) |})
    ∧ toasts delta = [] ∧ backend_calls delta = [GetDocs Players].
Proof.
  unfold fetchPlayers. run.
  destruct (fails B (tick w)); run; rewrite <- ?app_assoc; simpl; eexists;
    (split; [reflexivity|]); split; reflexivity.
Qed.

Ltac refreshed :=
  match goal with
  | |- context [fetchPlayers ?B ?w1] =>
      let refresh := fresh "refresh" in
      let Hrun := fresh "Hrun" in
      let Hquiet := fresh "Hquiet" in
      let Hread := fresh "Hread" in
      destruct (fetchPlayers_world B w1) as (refresh & Hrun & Hquiet & Hread);
      rewrite Hrun; clear Hrun
  end.

(** X7. A save that fails changes nothing in the store and shows one
    destructive toast.  When it is the upload of the picture that fails,
    no write is attempted; when the picture was uploaded and the write
    fails, the picture stays uploaded, with no document pointing to it. *)
Theorem save_failure_keeps_store B host f w :
  save_rejected B f w →
  let r := handleSubmit B host f w in
  r.1 = Normal ()
  ∧ db r.2 = db w
  ∧ (∃ t, toasts (effects_since w r.2) = [ShowToast t] ∧ destructive t = true)
  ∧ (∀ file, avatarFile f = Some file →
       backend_calls (effects_since w r.2)
       = if fails B (tick w) is Some _ then [Upload file]
         else [Upload file;
               match editing_id f with
               | Some id =>
                   UpdateDoc Players id
                     (playerData host f (VString (upload_result B (tick w)).1)
                        (VString (upload_result B (tick w)).2))
               | None =>
                   AddDoc Players
                     (<["created_at" := VString (now_iso host)]>
                        (<["is_active" := VBool true]>
                           (playerData host f (VString (upload_result B (tick w)).1)
                              (VString (upload_result B (tick w)).2))))
               end]).
Proof.
  intros Hrej r. subst r. unfold handleSubmit, save_rejected in *.
  destruct (avatarFile f) as [file|] eqn:Hfile.
  - run. destruct (fails B (tick w)) as [e|] eqn:H1; run.
    + split; [done|]. split; [done|]. erewrite effects_since_app by trace_eq.
      split; [one_toast|]. intros ? [= <-]. reflexivity.
    + destruct (editing_id f) as [id|] eqn:Hid; run.
      * destruct (fails B (S (tick w))) as [e|] eqn:H2; run.
        { split; [done|]. split; [done|]. erewrite effects_since_app by trace_eq.
          split; [one_toast|]. intros ? [= <-]. reflexivity. }
        destruct (db w Players !! id) as [old|] eqn:Hold; run.
        { exfalso. destruct Hrej as [[?|?]|(id' & [= <-] & ?)]; congruence. }
        split; [done|]. split; [done|]. erewrite effects_since_app by trace_eq.
        split; [one_toast|]. intros ? [= <-]. reflexivity.
      * destruct (fails B (S (tick w))) as [e|] eqn:H2; run.
        { split; [done|]. split; [done|]. erewrite effects_since_app by trace_eq.
          split; [one_toast|]. intros ? [= <-]. reflexivity. }
        exfalso. destruct Hrej as [[?|?]|(id' & ? & ?)]; congruence.
  - run. destruct (editing_id f) as [id|] eqn:Hid; run.
    + destruct (fails B (tick w)) as [e|] eqn:H1; run.
      { split; [done|]. split; [done|]. erewrite effects_since_app by trace_eq.
        split; [one_toast|]. intros ? [=]. }
      destruct (db w Players !! id) as [old|] eqn:Hold; run.
      { exfalso. destruct Hrej as [?|(id' & [= <-] & ?)]; congruence. }
      split; [done|]. split; [done|]. erewrite effects_since_app by trace_eq.
      split; [one_toast|]. intros ? [=].
    + destruct (fails B (tick w)) as [e|] eqn:H1; run.
      { split; [done|]. split; [done|]. erewrite effects_since_app by trace_eq.
        split; [one_toast|]. intros ? [=]. }
      exfalso. destruct Hrej as [?|(id' & ? & ?)]; congruence.
Qed.

(** With the backend unreachable the save of the new player with a
    picture is rejected, and the store is as it was. *)
Lemma save_failure_keeps_store_witness :
  let r := handleSubmit Examples.offline Examples.host Examples.with_picture
             Examples.world in
  save_rejected Examples.offline Examples.with_picture Examples.world
  ∧ r.1 = Normal () ∧ db r.2 = db Examples.world.
Proof.
  assert (Hrej : save_rejected Examples.offline Examples.with_picture Examples.world).
  { left. left. discriminate. }
  split; [exact Hrej|].
  destruct (save_failure_keeps_store Examples.offline Examples.host Examples.with_picture
              Examples.world Hrej) as (H0 & H1 & _).
  exact (conj H0 H1).
Defined.

Lemma playerData_other host f a b k : k ∉ written → playerData host f a b !! k = None.
Proof.
  intros Hk. unfold playerData. apply not_elem_of_list_to_map. exact Hk.
Qed.

(** X8. What a fulfilled save does to the store.  Editing merges the seven
    form fields into the document of the player: every other field, in
    particular [is_active] and [created_at], and every other document is
    left as it is, and without a new picture the picture is the one the
    row had.  Adding stores the form under the id the backend gives, as
    an active player. *)
Theorem save_player_effect B host f w :
  let picture := if avatarFile f is Some _ then 1%nat else 0%nat in
  (∀ i, (i ≤ picture)%nat → fails B (tick w + i) = None) →
  let w' := (handleSubmit B host f w).2 in
  let avatar :=
    if avatarFile f is Some _
    then (VString (upload_result B (tick w)).1, VString (upload_result B (tick w)).2)
    else (opt_or_null (editingPlayer f ≫= avatar_url),
          opt_or_null (editingPlayer f ≫= image_public_id)) in
  let data := playerData host f avatar.1 avatar.2 in
  (∀ c, c ≠ Players → db w' c = db w c)
  ∧ (∀ id old, editing_id f = Some id → db w Players !! id = Some old →
       db w' Players = <[id := data ∪ old]> (db w Players)
       ∧ (∀ k, k ∉ written → (data ∪ old) !! k = old !! k)
       ∧ (data ∪ old) !! "avatar_url" = Some avatar.1)
  ∧ (editing_id f = None →
       ∃ new, db w' Players = <[auto_id B (tick w + picture) := new]> (db w Players)
              ∧ new !! "is_active" = Some (VBool true)
              ∧ new !! "created_at" = Some (VString (now_iso host))
              ∧ ∀ k, k ∈ written → new !! k = data !! k).
Proof.
  intros picture Hok w' avatar data. subst w' data avatar picture.
  unfold handleSubmit.
  destruct (avatarFile f) as [file|] eqn:Hfile.
  - pose proof (Hok 0%nat ltac:(lia)) as H0. pose proof (Hok 1%nat ltac:(lia)) as H1.
    rewrite Nat.add_0_r in H0. rewrite Nat.add_1_r in H1.
    run. rewrite H0. run.
    destruct (editing_id f) as [id|] eqn:Hid; run; rewrite H1; run.
    + destruct (db w Players !! id) as [old|] eqn:Hold; run.
      * refreshed. run. split; [intros c Hc; by rewrite fn_lookup_insert_ne|].
        split; [|done]. intros ? old' [= <-] Hold'. rewrite Hold in Hold'.
        injection Hold' as <-. rewrite fn_lookup_insert.
        split; [done|]. split; [|by apply lookup_union_Some_l].
        intros k Hk. rewrite lookup_union_r; [done|]. by apply playerData_other.
      * split; [done|]. split; [|done]. intros ? ? [= <-]. congruence.
    + refreshed. run. split; [intros c Hc; by rewrite fn_lookup_insert_ne|].
      split; [done|]. intros _. rewrite fn_lookup_insert, Nat.add_1_r.
      eexists. split; [reflexivity|]. split; [reflexivity|]. split; [reflexivity|].
      intros k Hk. unfold written in Hk. rewrite !elem_of_cons, elem_of_nil in Hk.
      destruct Hk as [->|[->|[->|[->|[->|[->|[->|[]]]]]]]]; reflexivity.
  - pose proof (Hok 0%nat ltac:(lia)) as H0. rewrite Nat.add_0_r in H0.
    run.
    destruct (editing_id f) as [id|] eqn:Hid; run; rewrite H0; run.
    + destruct (db w Players !! id) as [old|] eqn:Hold; run.
      * refreshed. run. split; [intros c Hc; by rewrite fn_lookup_insert_ne|].
        split; [|done]. intros ? old' [= <-] Hold'. rewrite Hold in Hold'.
        injection Hold' as <-. rewrite fn_lookup_insert.
        split; [done|]. split; [|by apply lookup_union_Some_l].
        intros k Hk. rewrite lookup_union_r; [done|]. by apply playerData_other.
      * split; [done|]. split; [|done]. intros ? ? [= <-]. congruence.
    + refreshed. run. split; [intros c Hc; by rewrite fn_lookup_insert_ne|].
      split; [done|]. intros _. rewrite fn_lookup_insert, Nat.add_0_r.
      eexists. split; [reflexivity|]. split; [reflexivity|]. split; [reflexivity|].
      intros k Hk. unfold written in Hk. rewrite !elem_of_cons, elem_of_nil in Hk.
      destruct Hk as [->|[->|[->|[->|[->|[->|[->|[]]]]]]]]; reflexivity.
Qed.

(** The new player is stored as an active one. *)
Lemma save_player_effect_witness :
  ∃ new,
    db (handleSubmit Examples.backend Examples.host Examples.new_player Examples.world).2
      Players
    = <["p3" := new]> (Examples.store Players)
    ∧ new !! "is_active" = Some (VBool true).
Proof.
  destruct (save_player_effect Examples.backend Examples.host Examples.new_player
              Examples.world (λ _ _, eq_refl)) as (_ & _ & H).
  destruct (H eq_refl) as (new & H1 & H2 & _).
  exists new. exact (conj H1 H2).
Defined.

(** X9. Switching a player on or off writes the opposite of the flag of the
    row into [is_active] of the player's document and touches nothing
    else; when the call is rejected or the document is gone the store is
    as it was and one destructive toast is shown; a row without id does
    nothing. *)
Theorem togglePlayerStatus_effect B host p w :
  let r := togglePlayerStatus B host p w in
  r.1 = Normal ()
  ∧ (no_id (player_id p) = true → r.2 = w)
  ∧ (∀ id, player_id p = Some id → id ≠ "" →
       (∀ c, c ≠ Players → db r.2 c = db w c)
       ∧ (∀ old, fails B (tick w) = None → db w Players !! id = Some old →
            db r.2 Players
            = <[id := <["is_active" := VBool (negb (is_active p))]> old]> (db w Players)
            ∧ ∃ t, toasts (effects_since w r.2) = [ShowToast t] ∧ destructive t = false)
       ∧ (fails B (tick w) ≠ None ∨ db w Players !! id = None →
            db r.2 Players = db w Players
            ∧ ∃ t, toasts (effects_since w r.2) = [ShowToast t] ∧ destructive t = true)).
Proof.
  intros r. subst r. unfold togglePlayerStatus.
  destruct (player_id p) as [id|] eqn:Hid; simpl; [|done].
  destruct (String.eqb id "") eqn:Hne.
  { split; [done|]. split; [done|]. intros ? [= <-] Hne'.
    apply String.eqb_eq in Hne. done. }
  run. destruct (fails B (tick w)) as [e|] eqn:Hf; run.
  { split; [done|]. split; [intros ?; discriminate|]. intros ? [= <-] _. split; [done|].
    split; [intros ? ?; discriminate|]. intros _. split; [done|].
    erewrite effects_since_app by trace_eq. one_toast. }
  destruct (db w Players !! id) as [old|] eqn:Hold; run.
  - refreshed. run. split; [done|]. split; [intros ?; discriminate|]. intros ? [= <-] _.
    split; [intros c Hc; by rewrite fn_lookup_insert_ne|].
    split.
    + intros old' _ Hold'. rewrite Hold in Hold'. injection Hold' as <-.
      rewrite fn_lookup_insert, <- insert_union_singleton_l. split; [reflexivity|].
      erewrite effects_since_app by trace_eq. shown. rewrite Hquiet.
      eexists. split; reflexivity.
    + intros [?|?]; congruence.
  - split; [done|]. split; [intros ?; discriminate|]. intros ? [= <-] _. split; [done|].
    split; [intros ? _ ?; congruence|]. intros _. split; [done|].
    erewrite effects_since_app by trace_eq. one_toast.
Qed.

(** X10. Opening the dialog on a player and saving without a change writes
    the player's own number back, when that number is NaN or an integer
    below 2^53: the text the dialog shows for it is read back by
    [parseInt] as the same number.  The same holds for the position, the
    picture and, up to [trim], the name. *)
Theorem edit_dialog_round_trip B host engine p d w id :
  player_id p = Some id → id ≠ "" → avatarFile (form d) = None →
  match jersey_number p with
  | Num z => Z.abs z < 2 ^ 53
  | NaN => True
  | Infinity _ => False
  end →
  let f := form (openEditDialog engine p d) in
  ∃ data rest,
    backend_calls (effects_since w (handleSubmit B host f w).2)
    = UpdateDoc Players id data :: rest
    ∧ data !! "jersey_number" = Some (VNumber (jersey_number p))
    ∧ data !! "position" = Some (VString (position p))
    ∧ data !! "full_name" = Some (VString (trim (full_name p)))
    ∧ data !! "avatar_url" = Some (opt_or_null (avatar_url p))
    ∧ data !! "image_public_id" = Some (opt_or_null (image_public_id p)).
Proof.
  intros Hid Hne Hfile Hn f.
  assert (He : editing_id f = Some id).
  { unfold editing_id, f. simpl. rewrite Hid. simpl.
    apply String.eqb_neq in Hne. by rewrite Hne. }
  assert (Hj : parseInt (jerseyNumber f) = jersey_number p).
  { unfold f. simpl. by apply parseInt_toString. }
  exists (playerData host f (opt_or_null (avatar_url p)) (opt_or_null (image_public_id p))).
  assert (Hf : avatarFile f = None) by exact Hfile.
  unfold handleSubmit. rewrite Hf, He. run.
  change (editingPlayer f) with (Some p). simpl.
  destruct (fails B (tick w)) as [e|] eqn:Hfail; run.
  - erewrite effects_since_app by trace_eq. calls. eexists. split; [reflexivity|].
    unfold playerData. rewrite Hj. repeat split; reflexivity.
  - destruct (db w Players !! id) as [old|] eqn:Hold; run.
    + refreshed. run. erewrite effects_since_app by trace_eq. calls.
      eexists. split; [reflexivity|].
      unfold playerData. rewrite Hj. repeat split; reflexivity.
    + erewrite effects_since_app by trace_eq. calls. eexists. split; [reflexivity|].
      unfold playerData. rewrite Hj. repeat split; reflexivity.
Qed.

(** Number 9 is written back as number 9. *)
Lemma edit_dialog_round_trip_witness :
  ∃ data rest,
    backend_calls
      (effects_since Examples.world
         (handleSubmit Examples.backend Examples.host
            (form (openEditDialog (λ _, "") Examples.striker Examples.closed_dialog))
            Examples.world).2)
    = UpdateDoc Players "p1" data :: rest
    ∧ data !! "jersey_number" = Some (VNumber (Num 9)).
Proof.
  destruct (edit_dialog_round_trip Examples.backend Examples.host (λ _, "")
              Examples.striker Examples.closed_dialog Examples.world "p1"
              eq_refl ltac:(discriminate) eq_refl ltac:(simpl; lia))
    as (data & rest & H1 & H2 & _).
  exists data, rest. exact (conj H1 H2).
Defined.

(** *** The clean-up shows nothing and leaves the players alone *)

Section report.

Context (B : Backend) (id : string).

Lemma silent_refl w : silent w w.
Proof. exists []. by rewrite app_nil_r. Qed.

Lemma silent_trans w1 w2 w3 : silent w1 w2 → silent w2 w3 → silent w1 w3.
Proof.
  intros (d1 & Ht1 & Hq1 & Hp1) (d2 & Ht2 & Hq2 & Hp2). exists (d1 ++ d2).
  rewrite Ht2, Ht1, app_assoc, toasts_app, Hq1, Hq2, Hp2, Hp1. done.
Qed.

Lemma getDocs_silent c w : silent w (getDocs B c w).2.
Proof. rewrite getDocs_run. simpl. by exists [GetDocs c]. Qed.

Lemma cleanup_silent c snapshot w :
  subcollection c →
  ∃ rs w', cleanup B c id snapshot w = (Normal rs, w') ∧ silent w w'.
Proof.
  intros Hc. unfold cleanup.
  destruct (delete_batch B c (filter (λ doc, references id doc.2 = true) snapshot) w)
    as (rs & d & Hrun & Hother & _). rewrite Hrun. do 2 eexists. split; [reflexivity|].
  eexists. split; [reflexivity|]. split; [apply toasts_deletions|].
  apply Hother. by destruct c.
Qed.

Lemma cleanup_match_silent matchDoc w : silent w (cleanup_match B id matchDoc w).2.
Proof.
  unfold cleanup_match. rewrite bind_run.
  pose proof (getDocs_silent (Lineups matchDoc.1) w) as H1.
  rewrite getDocs_run in *. simpl in H1. run.
  destruct (fails B (tick w)); run; [exact H1|].
  destruct (cleanup_silent (Lineups matchDoc.1) (map_to_list (db w (Lineups matchDoc.1)))
         {|
           db := db w;
           trace := trace w ++ [GetDocs (Lineups matchDoc.1)];
           tick := S (tick w)
         |} I) as (rs1 & w2 & Hrun & H2). rewrite Hrun; clear Hrun.
  run.
  pose proof (getDocs_silent (Events matchDoc.1) w2) as H3.
  rewrite getDocs_run in H3. simpl in H3.
  destruct (fails B (tick w2)); run.
  { eapply silent_trans; [exact H1|]. eapply silent_trans; [exact H2|]. exact H3. }
  match goal with
  | |- context [cleanup B ?c id ?s ?w1] =>
      destruct (cleanup_silent c s w1 I) as (rs2 & w4 & Hrun & H4); rewrite Hrun; clear Hrun
  end.
  run. eapply silent_trans; [exact H1|]. eapply silent_trans; [exact H2|].
  eapply silent_trans; [exact H3|]. exact H4.
Qed.

Lemma cleanup_loop_silent (matches : list (string * Doc)) w :
  silent w (mapM (cleanup_match B id) matches w).2.
Proof.
  revert w. induction matches as [|m matches IH]; intros w; [apply silent_refl|].
  rewrite mapM_cons_run.
  pose proof (cleanup_match_silent m w) as H1.
  destruct (cleanup_match B id m w) as [[rs|e] w1]; simpl in H1; [|exact H1].
  pose proof (IH w1) as H2.
  destruct (mapM (cleanup_match B id) matches w1) as [[rss|e] w2]; simpl in *;
    by eapply silent_trans.
Qed.

End report.


(** X11. Deleting a player is asked for and reported.  A row without
    id does nothing, and when the administrator declines only the
    question was asked.  Once confirmed, whatever the backend answers,
    the handler returns normally and shows exactly one toast.  When that
    toast is a destructive one the player document was not removed,
    although entries of the player may already be gone; when it is not,
    the player document is gone. *)
Theorem deletePlayer_reports B host p w :
  let r := deletePlayer B host p w in
  (no_id (player_id p) = true → r = (Normal (), w))
  ∧ (no_id (player_id p) = false →
     confirm_answer B (deleteConfirmation host p) = false →
     r = (Normal (),
          {| db := db w; trace := trace w ++ [Confirm (deleteConfirmation host p)];
             tick := tick w |}))
  ∧ (no_id (player_id p) = false →
     confirm_answer B (deleteConfirmation host p) = true →
     r.1 = Normal ()
     ∧ ∃ t, toasts (effects_since w r.2) = [ShowToast t]
            ∧ (destructive t = true → db r.2 Players = db w Players)
            ∧ (destructive t = false
               → db r.2 Players = delete (default "" (player_id p)) (db w Players))).
Proof.
  intros r. subst r. unfold deletePlayer. split; [|split].
  { intros ->. reflexivity. }
  { intros -> Hno. run. rewrite Hno. reflexivity. }
  intros -> Hconfirm. set (id := default "" (player_id p)).
  run. rewrite Hconfirm. run.
  destruct (fails B (tick w)) as [e|] eqn:Hf; run.
  { split; [done|]. erewrite effects_since_app by trace_eq. shown.
    eexists. split; [reflexivity|]. split; done. }
  match goal with
  | |- context [mapM (cleanup_match B id) ?ms ?w1] =>
      pose proof (cleanup_loop_silent B id ms w1) as (delta & Ht & Hq & Hp);
      destruct (mapM (cleanup_match B id) ms w1) as [[rss|e] w2]
  end; simpl in Ht, Hp, Hq; run.
  2:{ split; [done|]. rewrite Ht. erewrite effects_since_app by trace_eq. shown.
      rewrite Hq. simpl. eexists. split; [reflexivity|]. split; done. }
  destruct (Promise_all (List.concat rss)) as [l|e]; run.
  2:{ split; [done|]. rewrite Ht. erewrite effects_since_app by trace_eq. shown.
      rewrite Hq. simpl. eexists. split; [reflexivity|]. split; done. }
  destruct (fails B (tick w2)) as [e|] eqn:Hf2; run.
  { split; [done|]. rewrite Ht. erewrite effects_since_app by trace_eq. shown.
    rewrite Hq. simpl. eexists. split; [reflexivity|]. split; done. }
  refreshed. run. split; [done|]. rewrite Ht. erewrite effects_since_app by trace_eq.
  shown. rewrite Hq, Hquiet. simpl. eexists. split; [reflexivity|].
  split; [done|]. intros _. by rewrite fn_lookup_insert, Hp.
Qed.

End players.

(** ** The two admin pages on one store *)

Section admin.

Import ManagePlayers Admin.

Context (B : Backend) (host : Host).

(** *** Steps that leave the store alone keep any invariant *)

Section any.

Context (Inv : Firestore → Prop).

Lemma getDocs_keeps c : hoare Inv (getDocs B c) (λ _, True).
Proof. intros w Hw. rewrite getDocs_run. by split. Qed.

Lemma upload_keeps file : hoare Inv (uploadToCloudinary B file) (λ _, True).
Proof.
  intros w Hw. unfold uploadToCloudinary, call. destruct (fails B (tick w)); by split.
Qed.

Lemma fetchData_keeps : hoare Inv (ManageMatches.fetchData B host) (λ _, True).
Proof.
  intros w Hw. destruct (fetchData_world B host w) as (delta & -> & _). by split.
Qed.

Lemma fetchPlayers_keeps_any : hoare Inv (fetchPlayers B) (λ _, True).
Proof.
  intros w Hw. destruct (fetchPlayers_world B w) as (delta & -> & _). by split.
Qed.

Lemma hoare_seq {A R} (m : M World A) (k : M World R) Q :
  hoare Inv m (λ _, True) → hoare Inv k Q → hoare Inv (m ≫= λ _, k) Q.
Proof. intros Hm Hk. eapply hoare_bind; [exact Hm|]. intros _ _. exact Hk. Qed.

End any.

(** *** Writes that keep every document in place *)

Lemma integrity_grows d d' :
  (∀ m, is_Some (d Matches !! m) → is_Some (d' Matches !! m)) →
  (∀ player, is_Some (d Players !! player) → is_Some (d' Players !! player)) →
  (∀ c, subcollection c → d' c = d c) →
  integrity d → integrity d'.
Proof.
  intros Hm Hp Hs Hd m k data Hin. rewrite !Hs in Hin by done.
  destruct (Hd m k data Hin) as (Hmatch & player & Hfield & Hplayer).
  split; [by apply Hm|]. exists player. split; [done|]. by apply Hp.
Qed.

Lemma insert_grows (d : Firestore) c k data :
  ¬ subcollection c → integrity d → integrity (<[c := <[k := data]> (d c)]> d).
Proof.
  intros Hc. apply integrity_grows.
  - intros m Hm. destruct (decide (c = Matches)) as [->|Hne].
    + rewrite fn_lookup_insert. destruct (decide (m = k)) as [->|Hk].
      * rewrite lookup_insert_eq. by eexists.
      * by rewrite lookup_insert_ne.
    + by rewrite fn_lookup_insert_ne.
  - intros p Hp. destruct (decide (c = Players)) as [->|Hne].
    + rewrite fn_lookup_insert. destruct (decide (p = k)) as [->|Hk].
      * rewrite lookup_insert_eq. by eexists.
      * by rewrite lookup_insert_ne.
    + by rewrite fn_lookup_insert_ne.
  - intros c' Hc'. rewrite fn_lookup_insert_ne; [done|]. intros ->. done.
Qed.

Lemma addDoc_grows c data :
  ¬ subcollection c → hoare integrity (addDoc B c data) (λ _, True).
Proof.
  intros Hc w Hw. unfold addDoc, call. destruct (fails B (tick w)); simpl; [by split|].
  split; [|done]. by apply insert_grows.
Qed.

Lemma updateDoc_grows c id data :
  ¬ subcollection c → hoare integrity (updateDoc B c id data) (λ _, True).
Proof.
  intros Hc w Hw. unfold updateDoc, call. destruct (fails B (tick w)); simpl; [by split|].
  destruct (db w c !! id); simpl; [|by split]. split; [|done]. by apply insert_grows.
Qed.

Ltac quiet_steps :=
  repeat first
    [ apply hoare_emit
    | apply hoare_ret_any
    | apply hoare_await_any
    | apply hoare_seq
    | eapply hoare_start; first [apply fetchData_keeps | apply fetchPlayers_keeps_any] ].

Lemma schedule_keeps f :
  hoare integrity (ManageMatches.handleSubmit B host f) (λ _, True).
Proof.
  unfold ManageMatches.handleSubmit. apply hoare_seq; [apply hoare_emit|].
  apply hoare_try_finally; [|apply hoare_emit].
  apply hoare_try_catch; [|intros; apply hoare_emit]. cbv zeta.
  eapply hoare_bind; [apply hoare_await_any|]. intros match_date _.
  eapply hoare_bind; [apply addDoc_grows; intros []|]. intros added _.
  unfold ManageMatches.resetForm. quiet_steps.
Qed.

Lemma toggleVisibility_keeps m :
  hoare integrity (ManageMatches.toggleVisibility B host m) (λ _, True).
Proof.
  unfold ManageMatches.toggleVisibility.
  destruct (no_id (ManageMatches.match_id m)); [apply hoare_ret_any|].
  apply hoare_try_catch; [|intros; apply hoare_emit]. cbv zeta.
  eapply hoare_bind; [apply updateDoc_grows; intros []|]. intros updated _. quiet_steps.
Qed.

Lemma savePlayer_keeps f : hoare integrity (handleSubmit B host f) (λ _, True).
Proof.
  unfold handleSubmit. apply hoare_seq; [apply hoare_emit|].
  apply hoare_try_finally; [|apply hoare_emit].
  apply hoare_try_catch; [|intros; apply hoare_emit]. cbv zeta.
  eapply hoare_bind with (Q := λ _, True).
  { destruct (avatarFile f); [|apply hoare_ret_any].
    eapply hoare_bind; [apply upload_keeps|]. intros uploading _.
    eapply hoare_bind; [apply hoare_await_any|]. intros; apply hoare_ret_any. }
  intros avatar _. apply hoare_seq.
  { destruct (editing_id f).
    - eapply hoare_bind; [apply updateDoc_grows; intros []|]. intros; quiet_steps.
    - eapply hoare_bind; [apply addDoc_grows; intros []|]. intros; quiet_steps. }
  unfold resetForm. quiet_steps.
Qed.

Lemma togglePlayerStatus_keeps p :
  hoare integrity (togglePlayerStatus B host p) (λ _, True).
Proof.
  unfold togglePlayerStatus. destruct (no_id (player_id p)); [apply hoare_ret_any|].
  apply hoare_try_catch; [|intros; apply hoare_emit]. cbv zeta.
  eapply hoare_bind; [apply updateDoc_grows; intros []|]. intros updated _. quiet_steps.
Qed.

(** *** Deleting a match *)

Lemma only_match_removed_refl id d0 : ManageMatches.only_match_removed id d0 d0.
Proof. intros c k. by left. Qed.

Lemma deleteDoc_of_match id d0 c k :
  ManageMatches.of_match id c k →
  hoare (ManageMatches.only_match_removed id d0) (deleteDoc B c k) (λ _, True).
Proof.
  intros Hk w Hw. rewrite deleteDoc_run. simpl. split; [|done].
  destruct (fails B (tick w)); [done|]. intros c' k'.
  destruct (decide (c' = c)) as [->|Hc].
  - rewrite fn_lookup_insert. destruct (decide (k' = k)) as [->|Hne].
    + rewrite lookup_delete_eq. by right.
    + rewrite lookup_delete_ne by done. apply Hw.
  - rewrite fn_lookup_insert_ne by done. apply Hw.
Qed.

Lemma deleteMatch_removes d0 m :
  hoare (ManageMatches.only_match_removed (default "" (ManageMatches.match_id m)) d0)
    (ManageMatches.deleteMatch B host m) (λ _, True).
Proof.
  unfold ManageMatches.deleteMatch.
  destruct (no_id (ManageMatches.match_id m)); [apply hoare_ret_any|].
  eapply hoare_bind; [apply hoare_await_any|]. intros date _.
  eapply hoare_bind; [apply hoare_await_any|]. intros formatted _.
  eapply hoare_bind with (Q := λ _, True). { unfold window_confirm. quiet_steps. }
  intros confirmed _. destruct confirmed; simpl; [|apply hoare_ret_any].
  apply hoare_try_catch; [|intros; apply hoare_emit].
  eapply hoare_bind; [apply getDocs_keeps|]. intros p1 _.
  eapply hoare_bind; [apply getDocs_keeps|]. intros p2 _.
  eapply hoare_bind; [apply hoare_await_any|]. intros s1 _.
  eapply hoare_bind; [apply hoare_await_any|]. intros s2 _.
  eapply hoare_bind; [apply hoare_mapM; intros; by apply deleteDoc_of_match|]. intros r1 _.
  eapply hoare_bind; [apply hoare_mapM; intros; by apply deleteDoc_of_match|]. intros r2 _.
  eapply hoare_bind; [apply hoare_await_any|]. intros _ _.
  eapply hoare_bind; [by apply deleteDoc_of_match|]. intros deleted _.
  quiet_steps.
Qed.

(** X25. [deleteMatch] removes nothing but documents of the match,
    whatever the backend answers: every player, competition and other
    match, and every entry of another match, is left as it was, and no
    document is added or changed. *)
Theorem deleteMatch_removes_only m w :
  ManageMatches.only_match_removed (default "" (ManageMatches.match_id m)) (db w)
    (db (ManageMatches.deleteMatch B host m w).2).
Proof. apply deleteMatch_removes, only_match_removed_refl. Qed.

(** A match document that [deleteMatch] removed has no entries left. *)
Lemma deleteMatch_matches m w k :
  let d := db (ManageMatches.deleteMatch B host m w).2 in
  is_Some (db w Matches !! k) →
  is_Some (d Matches !! k) ∨ (d (Lineups k) = ∅ ∧ d (Events k) = ∅).
Proof.
  simpl. intros Hk.
  destruct (no_id (ManageMatches.match_id m)) eqn:Hno.
  { unfold ManageMatches.deleteMatch. rewrite Hno. by left. }
  destruct (toDate host (ManageMatches.match_date m)) as [date|e] eqn:Hdate.
  2:{ unfold ManageMatches.deleteMatch. rewrite Hno, Hdate. by left. }
  destruct (format host date) as [formatted|e] eqn:Hformat.
  2:{ unfold ManageMatches.deleteMatch. rewrite Hno, Hdate. run. rewrite Hformat. by left. }
  destruct (confirm_answer B (ManageMatches.confirmation m formatted)) eqn:Hconfirm.
  2:{ rewrite (deleteMatch_declined B host m w date formatted) by done. by left. }
  destruct (ManageMatches.match_id m) as [id|] eqn:Hid; [|done]. simpl in Hno.
  apply String.eqb_neq in Hno.
  destruct (deleteMatch_run B host m w id date formatted) as (w' & Hrun & Hout); try done.
  rewrite Hrun. simpl.
  destruct Hout as [t _ _ _ Hdb | t _ _ _ _ Hdb | t _ _ _ _ Hdb _ _
                   | t refresh _ _ _ _ _ Hdb HL HE].
  - left. by rewrite Hdb.
  - left. by rewrite Hdb.
  - left. by rewrite Hdb.
  - destruct (decide (k = id)) as [->|Hne]; [by right|].
    left. by rewrite Hdb, lookup_delete_ne.
Qed.

Lemma deleteMatch_keeps m w :
  integrity (db w) → integrity (db (ManageMatches.deleteMatch B host m w).2).
Proof.
  intros Hw.
  destruct (deleteMatch_removes (db w) m w (only_match_removed_refl _ _)) as [Hrem _].
  intros k0 k data Hin.
  assert (Hin0 : db w (Lineups k0) !! k = Some data ∨ db w (Events k0) !! k = Some data).
  { destruct Hin as [Hk|Hk]; [left|right].
    - destruct (Hrem (Lineups k0) k) as [E|[E _]]; congruence.
    - destruct (Hrem (Events k0) k) as [E|[E _]]; congruence. }
  destruct (Hw _ _ _ Hin0) as (Hm & player & Hfield & Hplayer). split.
  - destruct (deleteMatch_matches m w k0 Hm) as [?|[HL HE]]; [done|].
    rewrite HL, HE in Hin. destruct Hin as [H|H]; by rewrite lookup_empty in H.
  - exists player. split; [done|].
    destruct (Hrem Players player) as [E|[_ []]]. by rewrite E.
Qed.

(** *** Deleting a player *)

Section completeness.

Context (id : string).

Lemma cleanup_other c snapshot w c' :
  c' ≠ c → db (cleanup B c id snapshot w).2 c' = db w c'.
Proof.
  intros Hc. unfold cleanup.
  destruct (delete_batch B c (filter (λ doc, references id doc.2 = true) snapshot) w)
    as (rs & d & Hrun & Hother & _). rewrite Hrun. by apply Hother.
Qed.

(** When the deletions started for a snapshot of the whole
    subcollection are all fulfilled, no entry of the player is left. *)
Lemma cleanup_complete c w rs w' k data :
  cleanup B c id (map_to_list (db w c)) w = (Normal rs, w') → all_fulfilled rs →
  db w' c !! k = Some data → references id data = false.
Proof.
  unfold cleanup.
  destruct (delete_batch B c
              (filter (λ doc, references id doc.2 = true) (map_to_list (db w c))) w)
    as (rs0 & d & Hrun & Hother & Hsame & Hall & Hgone).
  rewrite Hrun. intros [= <- <-] Hf Hk. simpl in Hk.
  destruct (references id data) eqn:R; [|done]. exfalso.
  apply Hall in Hf. rewrite (Hgone Hf k) in Hk; [done|].
  apply list_elem_of_fmap. exists (k, data). split; [done|].
  apply list_elem_of_filter. split; [done|]. apply elem_of_map_to_list.
  destruct (Hsame k) as [E|[E _]]; congruence.
Qed.

Lemma cleanup_match_complete matchDoc w rs w' k data :
  cleanup_match B id matchDoc w = (Normal rs, w') → all_fulfilled rs →
  db w' (Lineups matchDoc.1) !! k = Some data ∨ db w' (Events matchDoc.1) !! k = Some data →
  references id data = false.
Proof.
  destruct matchDoc as [m doc]. unfold cleanup_match. simpl. run.
  destruct (fails B (tick w)); run; [discriminate|].
  match goal with
  | |- context [cleanup B ?c id ?s ?w1] =>
      pose proof (cleanup_complete c w1) as H1;
      destruct (cleanup B c id s w1) as [[rs1|e] w2] eqn:Hc1
  end; run; [|discriminate].
  destruct (fails B (tick w2)); run; [discriminate|].
  match goal with
  | |- context [cleanup B ?c id ?s ?w3] =>
      pose proof (cleanup_complete c w3) as H2;
      pose proof (cleanup_other c s w3 (Lineups m)) as Ho;
      destruct (cleanup B c id s w3) as [[rs2|e] w4] eqn:Hc2
  end; run; [|discriminate].
  simpl in *. intros [= <- <-] [Hf1 Hf2]%all_fulfilled_app [Hk|Hk].
  - rewrite Ho in Hk by done. by eapply H1.
  - by eapply H2.
Qed.

Lemma cleanup_loop_complete (matches : list (string * Doc)) w rss w' m k data :
  mapM (cleanup_match B id) matches w = (Normal rss, w') →
  all_fulfilled (List.concat rss) → m ∈ matches.*1 →
  db w' (Lineups m) !! k = Some data ∨ db w' (Events m) !! k = Some data →
  references id data = false.
Proof.
  revert w rss. induction matches as [|x matches IH]; intros w rss.
  { intros _ _ []%elem_of_nil. }
  rewrite mapM_cons_run.
  destruct (cleanup_match B id x w) as [[rs|e] w1] eqn:H1; [|discriminate].
  pose proof (hoare_mapM (only_removed id (db w1)) (cleanup_match B id) matches
                (λ y _, cleanup_match_removes B id (db w1) y) w1
                (only_removed_refl id (db w1))) as [Hrem _].
  destruct (mapM (cleanup_match B id) matches w1) as [[rss1|e] w2] eqn:H2; [|discriminate].
  simpl in Hrem. intros [= <- <-]. simpl.
  intros [Hf1 Hf2]%all_fulfilled_app [->|Hin]%elem_of_cons Hk.
  - eapply (cleanup_match_complete x w rs w1 k data H1 Hf1).
    destruct Hk as [Hk|Hk]; [left|right].
    + destruct (Hrem (Lineups x.1) k) as [E|[E _]]; congruence.
    + destruct (Hrem (Events x.1) k) as [E|[E _]]; congruence.
  - by eapply IH.
Qed.

End completeness.

(** Either the player document stays, or no entry of a listed match
    references the player any more. *)
Lemma deletePlayer_complete p w id :
  player_id p = Some id →
  let d := db (deletePlayer B host p w).2 in
  d Players = db w Players
  ∨ ∀ m k data, is_Some (db w Matches !! m) →
      d (Lineups m) !! k = Some data ∨ d (Events m) !! k = Some data →
      references id data = false.
Proof.
  intros Hid. unfold deletePlayer. rewrite Hid. simpl.
  destruct (String.eqb id ""); [by left|]. run.
  destruct (confirm_answer B (deleteConfirmation host p)); run; [|by left].
  destruct (fails B (tick w)); run; [by left|].
  match goal with
  | |- context [mapM (cleanup_match B id) ?ms ?w1] =>
      pose proof (cleanup_loop_silent B id ms w1) as (delta & _ & _ & Hp);
      pose proof (cleanup_loop_complete id ms w1) as Hdone;
      destruct (mapM (cleanup_match B id) ms w1) as [[rss|e] w2]
  end; simpl in Hp; run; [|by left].
  destruct (Promise_all (List.concat rss)) as [l|e] eqn:Hall; run; [|by left].
  destruct (fails B (tick w2)); run; [by left|].
  destruct (fetchPlayers_world B
              {| db := <[Players:=delete id (db w2 Players)]> (db w2);
                 trace := (trace w2 ++ [DeleteDoc Players id])
                          ++ [ShowToast
                                {| title := translate host "players.playerDeleted" [];
                                   description :=
                                     translate host "players.playerDeletedDesc"
                                       [("name", VString (full_name p))];
                                   destructive := false |}];
                 tick := S (tick w2) |}) as (refresh & Hrun & _).
  rewrite Hrun. run. right. intros m k data [doc Hm] Hk.
  rewrite !fn_lookup_insert_ne in Hk by done.
  eapply (Hdone rss w2 m k data eq_refl); [by eexists| |done].
  apply list_elem_of_fmap. exists (m, doc). split; [done|]. by apply elem_of_map_to_list.
Qed.

(** X26. Once [deletePlayer] has removed the player document, no lineup
    or event entry of a listed match references the player, whatever
    the backend answered to the calls that follow: the document is
    deleted only after every deletion of the clean-up was fulfilled. *)
Theorem deletePlayer_leaves_no_entry p w id :
  player_id p = Some id →
  let d := db (deletePlayer B host p w).2 in
  is_Some (db w Players !! id) → d Players !! id = None →
  ∀ m k data, is_Some (db w Matches !! m) →
    d (Lineups m) !! k = Some data ∨ d (Events m) !! k = Some data →
    references id data = false.
Proof.
  intros Hid d [old Hold] Hgone.
  destruct (deletePlayer_complete p w id Hid) as [E|Hclean]; [|exact Hclean].
  subst d. rewrite E in Hgone. congruence.
Qed.

Lemma deletePlayer_keeps p w :
  integrity (db w) → integrity (db (deletePlayer B host p w).2).
Proof.
  intros Hw. destruct (player_id p) as [id|] eqn:Hid.
  2:{ unfold deletePlayer. by rewrite Hid. }
  destruct (deletePlayer_removes B host id (db w) p Hid w (only_removed_refl id (db w)))
    as [Hrem _].
  pose proof (deletePlayer_complete p w id Hid) as Hdone. simpl in Hdone.
  intros m k data Hin.
  assert (Hin0 : db w (Lineups m) !! k = Some data ∨ db w (Events m) !! k = Some data).
  { destruct Hin as [Hk|Hk]; [left|right].
    - destruct (Hrem (Lineups m) k) as [E|[E _]]; congruence.
    - destruct (Hrem (Events m) k) as [E|[E _]]; congruence. }
  destruct (Hw _ _ _ Hin0) as (Hm & player & Hfield & Hplayer). split.
  - destruct (Hrem Matches m) as [E|[_ (? & _ & [])]]. by rewrite E.
  - exists player. split; [done|].
    destruct (Hrem Players player) as [E|[_ (? & _ & Hb)]]; [by rewrite E|].
    simpl in Hb. subst player. destruct Hdone as [E|Hclean]; [by rewrite E|].
    specialize (Hclean m k data Hm Hin). unfold references in Hclean.
    rewrite Hfield, String.eqb_refl in Hclean. done.
Qed.

(** X24. The two admin pages keep the references of the store, whatever
    the backend answers: when every lineup and event entry is of a match
    that exists and names a player that exists, the same holds after
    scheduling a match, toggling its visibility, deleting it, saving a
    player, toggling a player's status or deleting a player, also when
    the operation fails half way. *)
Theorem admin_keeps_integrity op w :
  integrity (db w) → integrity (db (perform B host op w).2).
Proof.
  intros Hw. destruct op as [[f|m|m]|f|p|p]; simpl.
  - by apply schedule_keeps.
  - by apply toggleVisibility_keeps.
  - by apply deleteMatch_keeps.
  - by apply savePlayer_keeps.
  - by apply togglePlayerStatus_keeps.
  - by apply deletePlayer_keeps.
Qed.

End admin.

Lemma store_subcollections m :
  m ≠ "m1" → Examples.store (Lineups m) = ∅ ∧ Examples.store (Events m) = ∅.
Proof.
  intros Hne. destruct m as [|[b0 b1 b2 b3 b4 b5 b6 b7] m]; [done|].
  destruct b0, b1, b2, b3, b4, b5, b6, b7; try done.
  destruct m as [|[b0 b1 b2 b3 b4 b5 b6 b7] m]; [done|].
  destruct b0, b1, b2, b3, b4, b5, b6, b7; try done.
  destruct m as [|a m]; done.
Qed.

Lemma store_integrity : Admin.integrity Examples.store.
Proof.
  intros m k data Hin. destruct (decide (m = "m1")) as [->|Hne].
  2:{ destruct (store_subcollections m Hne) as [HL HE]. rewrite HL, HE in Hin.
      destruct Hin as [H|H]; by rewrite lookup_empty in H. }
  split; [by eexists|].
  assert (Hdata : data = Examples.entry "p1" ∨ data = Examples.entry "p2").
  { destruct Hin as [H|H].
    - change (Examples.store (Lineups "m1"))
        with (<["l1" := Examples.entry "p1"]> {[ "l2" := Examples.entry "p2" ]}
              : gmap string Doc) in H.
      apply lookup_insert_Some in H as [[_ <-]|[_ H]]; [by left|].
      apply lookup_singleton_Some in H as [_ <-]. by right.
    - change (Examples.store (Events "m1"))
        with ({[ "e1" := Examples.entry "p1" ]} : gmap string Doc) in H.
      apply lookup_singleton_Some in H as [_ <-]. by left. }
  destruct Hdata as [-> | ->]; [exists "p1"|exists "p2"]; (split; [done|by eexists]).
Qed.

(** After player p1 was deleted from the example store, the lineup entry
    of p2 is still of a listed match and still names a player. *)
Lemma admin_keeps_integrity_witness :
  let d := db (Admin.perform Examples.backend Examples.host
                 (Admin.DeletePlayer Examples.striker) Examples.world).2 in
  is_Some (d Matches !! "m1")
  ∧ ∃ player, Examples.entry "p2" !! "player_id" = Some (VString player)
              ∧ is_Some (d Players !! player).
Proof.
  assert (Hentry :
    db (Admin.perform Examples.backend Examples.host
          (Admin.DeletePlayer Examples.striker) Examples.world).2 (Lineups "m1") !! "l2"
    = Some (Examples.entry "p2")) by (vm_compute; reflexivity).
  exact (admin_keeps_integrity Examples.backend Examples.host
           (Admin.DeletePlayer Examples.striker) Examples.world store_integrity
           "m1" "l2" (Examples.entry "p2") (or_introl Hentry)).
Defined.

(** Player p1 deleted from the example store: the document is gone and
    the lineup entry that is left is the one of p2. *)
Lemma deletePlayer_leaves_no_entry_witness :
  let d := db (ManagePlayers.deletePlayer Examples.backend Examples.host Examples.striker
                 Examples.world).2 in
  d Players !! "p1" = None
  ∧ d (Lineups "m1") !! "l2" = Some (Examples.entry "p2")
  ∧ ManagePlayers.references "p1" (Examples.entry "p2") = false.
Proof.
  assert (Hgone :
    db (ManagePlayers.deletePlayer Examples.backend Examples.host Examples.striker
          Examples.world).2 Players !! "p1" = None) by (vm_compute; reflexivity).
  assert (Hentry :
    db (ManagePlayers.deletePlayer Examples.backend Examples.host Examples.striker
          Examples.world).2 (Lineups "m1") !! "l2" = Some (Examples.entry "p2"))
    by (vm_compute; reflexivity).
  split; [exact Hgone|]. split; [exact Hentry|].
  exact (deletePlayer_leaves_no_entry Examples.backend Examples.host Examples.striker
           Examples.world "p1" eq_refl (ex_intro _ ∅ eq_refl) Hgone
           "m1" "l2" (Examples.entry "p2")
           (ex_intro _ {[ "opponent" := VString "Rivals" ]} eq_refl) (or_introl Hentry)).
Defined.

(** ** The create-user page *)

Section create_user.

Import CreateUser.

Ltac run_page :=
  repeat (unfold mbind, M_bind, mret, M_ret, try_catch, try_finally, start, await,
            throw, emit, toast, setState, call, lift, set, getIdToken, fetch_create_user,
            reauthenticateWithCredential; simpl).

Ltac split_page :=
  repeat (run_page;
    match goal with
    | |- context [match fails ?B ?n with _ => _ end] => destruct (fails B n) eqn:?
    | |- context [if auth_currentUser ?s then _ else _] =>
        destruct (auth_currentUser s) eqn:?
    | |- context [if negb (response_ok ?s) then _ else _] =>
        destruct (response_ok s) eqn:?
    | |- context [if String.eqb ?a ?b then _ else _] => destruct (String.eqb a b) eqn:?
    | |- context [match currentUser ?s with _ => _ end] =>
        destruct (currentUser s) eqn:?
    end); run_page.

Ltac each_effect :=
  refine (proj1 (Forall_forall _ _) _);
  repeat first [apply List.Forall_nil | apply List.Forall_cons];
  simpl; try (intros Hfalse; contradiction).

Lemma role_name_inj r1 r2 : role_name r1 = role_name r2 → r1 = r2.
Proof. destruct r1, r2; simpl; congruence. Qed.

Lemma dispatch_gated B host session ev s w :
  let p := dispatch B host session ev s w in
  gated B session {| before := s; trigger := ev; at_tick := tick w;
                     effects := trace (world p); after := next p |}.
Proof.
  unfold gated, dispatch; simpl. split; [|split].
  - destruct ev; simpl; run_page; try (destruct open; run_page);
      try (intros e []%elem_of_nil).
    + unfold handleSubmit. case_decide as Hr; run_page.
      * each_effect.
      * unfold proceedWithUserCreation. split_page; each_effect;
          intros Hc; apply (role_name_inj _ admin) in Hc; done.
    + unfold verifyCurrentPassword, proceedWithUserCreation. split_page; each_effect;
        intros Hc; apply (role_name_inj _ admin) in Hc; (split; [done|]); eauto.
  - intros -> Hr. simpl. unfold handleSubmit. rewrite decide_True by done. run_page.
    repeat constructor.
  - intros -> Hr. simpl. unfold handleSubmit. rewrite decide_False by done.
    unfold proceedWithUserCreation.
    split; [|split].
    + split_page; repeat constructor; simpl; tauto.
    + split_page; reflexivity.
    + intros Ha Hf Ht. run_page. rewrite Ha. run_page. rewrite Hf. run_page.
      apply String.eqb_neq in Ht. rewrite Ht. run_page. split_page; eexists; reflexivity.
Qed.

(** C2. In every session on the page, that is for every sequence of
    events, every initial state and every behaviour of the backend, each
    handler run keeps the gate: a request to create an administrator is
    only sent by a run that first re-authenticated the signed-in user
    with the password entered and saw that call fulfilled; submitting the
    form for the role user or player goes straight to the creation, with
    no re-authentication and no password dialog. *)
Theorem admin_creation_gated B host session evs s w :
  Forall (gated B session) (run B host session evs s w).
Proof.
  revert s w. induction evs as [|ev evs IH]; intros s w; simpl; constructor.
  - apply dispatch_gated.
  - apply IH.
Qed.

(** The gate at work: an administrator is requested after the password
    was verified, and not before. *)
Example admin_creation_session :
  effects <$> run Examples.backend Examples.host Examples.signed_in
                [ChangeRole admin; Submit; ChangeCurrentPassword "secret0"; Verify]
                Examples.blank Examples.world
  = [ [];
      [ConsoleLog "Creating admin user, requiring password verification"];
      [];
      [ Reauthenticate "admin@club.test" "secret0";
        ConsoleLog "Password verification successful for creating admin user";
        ShowToast {| title := "security.passwordVerified";
                     description := "security.canNowActionAdmin";
                     destructive := false |};
        GetIdToken;
        FetchCreateUser {| body_email := "new@club.test"; body_password := "secret1";
                           body_full_name := "New Member"; body_role := "admin";
                           body_idToken := "token" |};
        ShowToast {| title := "users.userCreatedSuccessfully";
                     description := "users.userAddedAsRole";
                     destructive := false |} ] ].
Proof. reflexivity. Qed.

(** *** The dialog, the creation and the state of the page *)

(** X12. Verifying without a password, or with nobody signed in, sends
    nothing: the page shows one error toast and stays as it is. *)
Theorem verify_needs_password B host session s w :
  currentUser session = None ∨ trim (currentPassword s) = "" →
  let p := dispatch B host session Verify s w in
  next p = s
  ∧ trace (world p)
    = [ShowToast {| title := translate host "common.error" [];
                    description := translate host "security.passwordRequired" [];
                    destructive := true |}]
  ∧ tick (world p) = tick w.
Proof.
  intros H p. subst p. unfold dispatch. simpl. unfold verifyCurrentPassword.
  destruct (currentUser session) as [user_email|]; [|by run_page].
  destruct H as [H|H]; [done|]. rewrite H. by run_page.
Qed.

(** Pressing the button with the password field empty. *)
Lemma verify_needs_password_witness :
  let p := dispatch Examples.backend Examples.host Examples.signed_in Verify Examples.blank
             Examples.world in
  next p = Examples.blank ∧ tick (world p) = 0%nat.
Proof.
  destruct (verify_needs_password Examples.backend Examples.host Examples.signed_in
              Examples.blank Examples.world (or_intror eq_refl)) as (H1 & _ & H2).
  exact (conj H1 H2).
Defined.

(** X13. A password that is not accepted: the run ends after the one
    reauthentication, with one destructive toast; no token is asked for
    and no user is created; the dialog stays open with the password
    entered, and the form is untouched. *)
Theorem verify_wrong_password B host session s w user_email :
  currentUser session = Some user_email → trim (currentPassword s) ≠ "" →
  auth_currentUser session = false ∨ fails B (tick w) ≠ None →
  let p := dispatch B host session Verify s w in
  next p = setIsVerifyingPassword false s
  ∧ backend_calls (trace (world p))
    = (if auth_currentUser session
       then [Reauthenticate (default "" user_email) (currentPassword s)] else [])
  ∧ toasts (trace (world p))
    = [ShowToast {| title := translate host "security.incorrectPassword" [];
                    description := translate host "security.incorrectPasswordMessage" [];
                    destructive := true |}].
Proof.
  intros Hu Hp Hf p. subst p. unfold dispatch. simpl. unfold verifyCurrentPassword.
  rewrite Hu. apply String.eqb_neq in Hp. rewrite Hp.
  run_page. destruct (auth_currentUser session) eqn:Ha.
  - destruct Hf as [Hf|Hf]; [done|]. run_page.
    destruct (fails B (tick w)) eqn:E; [|done]. run_page. done.
  - run_page. done.
Qed.

(** The reauthentication is rejected: the dialog stays open and only
    that one call was made. *)
Lemma verify_wrong_password_witness :
  let p := dispatch Examples.offline Examples.host Examples.signed_in Verify
             Examples.verifying Examples.world in
  next p = setIsVerifyingPassword false Examples.verifying
  ∧ toasts (trace (world p))
    = [ShowToast {| title := "security.incorrectPassword";
                    description := "security.incorrectPasswordMessage";
                    destructive := true |}].
Proof.
  assert (Hp : trim (currentPassword Examples.verifying) ≠ "").
  { vm_compute. discriminate. }
  assert (Hf : auth_currentUser Examples.signed_in = false
               ∨ fails Examples.offline (tick Examples.world) ≠ None).
  { right. discriminate. }
  destruct (verify_wrong_password Examples.offline Examples.host Examples.signed_in
              Examples.verifying Examples.world (Some "admin@club.test") eq_refl Hp Hf)
    as (H1 & _ & H2).
  exact (conj H1 H2).
Defined.

Ltac since :=
  unfold effects_since; simpl; rewrite <- ?app_assoc; rewrite drop_app_length; simpl.

(** X14. What becomes of a creation.  The handler never throws.  When the
    token is obtained and the function accepts the request, the created
    user is shown, one plain toast reports it and the form is emptied,
    the role back to user.  In every other case the form keeps what was
    entered, no created user is shown, and one destructive toast reports
    the failure.  Either way the page is no longer submitting. *)
Theorem proceedWithUserCreation_outcome B host session s p0 :
  let r := proceedWithUserCreation B host session s p0 in
  let n := tick (world p0) in
  let shown := toasts (effects_since (world p0) (world r.2)) in
  r.1 = Normal ()
  ∧ (accepted B session n →
       next r.2
       = {| email := ""; password := ""; fullName := ""; role := user; currentPassword := "";
            isPasswordDialogOpen := isPasswordDialogOpen (next p0); isSubmitting := false;
            isVerifyingPassword := isVerifyingPassword (next p0);
            createdUser := Some (data_user_email (response B (S n)),
                                 data_user_full_name (response B (S n)),
                                 data_user_role (response B (S n))) |}
       ∧ ∃ t, shown = [ShowToast t] ∧ destructive t = false)
  ∧ (¬ accepted B session n →
       next r.2 = setIsSubmitting false (setCreatedUser None (next p0))
       ∧ ∃ t, shown = [ShowToast t] ∧ destructive t = true).
Proof.
  intros r n shown. subst r n shown. unfold proceedWithUserCreation, accepted.
  split; [|split].
  - split_page; reflexivity.
  - intros (Ha & Hf & Ht & Hf' & Hok). run_page. rewrite Ha. run_page. rewrite Hf. run_page.
    apply String.eqb_neq in Ht. rewrite Ht. run_page. rewrite Hf'. run_page.
    rewrite Hok. run_page. split; [reflexivity|]. since. eexists. split; reflexivity.
  - intros Hn. split_page;
      try (exfalso; apply Hn; repeat split; try done; by apply String.eqb_neq);
      (split; [reflexivity|]); since; eexists; split; reflexivity.
Qed.

Lemma dispatch_quiet B host session ev s w :
  quiet s → quiet (next (dispatch B host session ev s w)).
Proof.
  intros [Hs Hv]. unfold quiet, dispatch. destruct ev; simpl; run_page; try done.
  - unfold handleSubmit. case_decide; run_page; [done|].
    unfold proceedWithUserCreation. split_page; done.
  - unfold verifyCurrentPassword, proceedWithUserCreation. split_page; done.
  - destruct open; run_page; done.
Qed.

(** X15. The page never stays busy: in a session that starts with the page
    neither submitting nor verifying, it is neither after every handler
    run, so the buttons are enabled again whatever the backend did. *)
Theorem never_left_busy B host session evs s w :
  quiet s → Forall (λ st, quiet (after st)) (run B host session evs s w).
Proof.
  revert s w. induction evs as [|ev evs IH]; intros s w Hq; simpl; constructor.
  - simpl. by apply dispatch_quiet.
  - apply IH. by apply dispatch_quiet.
Qed.

(** A session with the backend unreachable: after each of the three
    events the page is idle again. *)
Lemma never_left_busy_witness :
  Forall (λ st, quiet (after st))
    (run Examples.offline Examples.host Examples.signed_in
       [Submit; ChangeRole admin; Verify] Examples.blank Examples.world).
Proof.
  exact (never_left_busy Examples.offline Examples.host Examples.signed_in
           [Submit; ChangeRole admin; Verify] Examples.blank Examples.world
           (conj eq_refl eq_refl)).
Defined.

Lemma dispatch_well_formed B host session ev s w :
  let p := dispatch B host session ev s w in
  well_formed_request session
    {| before := s; trigger := ev; at_tick := tick w; effects := trace (world p);
       after := next p |}.
Proof.
  unfold well_formed_request, dispatch; simpl.
  destruct ev; simpl; run_page; try (destruct open; run_page);
    try (intros e []%elem_of_nil).
  - unfold handleSubmit. case_decide as Hr; run_page.
    + intros body Hin. rewrite !elem_of_cons, elem_of_nil in Hin. intuition discriminate.
    + unfold proceedWithUserCreation. split_page; intros body Hin;
        rewrite ?elem_of_cons, ?elem_of_nil in Hin;
        repeat (destruct Hin as [Hin|Hin]; try discriminate; try done);
        inversion Hin; subst; simpl; (split; [done|]); (split; [by apply String.eqb_neq|done]).
  - unfold verifyCurrentPassword, proceedWithUserCreation. split_page; intros body Hin;
        rewrite ?elem_of_cons, ?elem_of_nil in Hin;
        repeat (destruct Hin as [Hin|Hin]; try discriminate; try done);
        inversion Hin; subst; simpl; (split; [done|]); (split; [by apply String.eqb_neq|done]).
Qed.

(** X16. No request without a token: in every session, a request to the
    create-user function is only sent with somebody signed in, carries a
    token that is not empty, and carries the form as it was when the
    handler started. *)
Theorem requests_carry_token B host session evs s w :
  Forall (well_formed_request session) (run B host session evs s w).
Proof.
  revert s w. induction evs as [|ev evs IH]; intros s w; simpl; constructor.
  - apply dispatch_well_formed.
  - apply IH.
Qed.

(** X17. How long the password entered in the dialog is kept.  Closing the
    dialog, by its button or otherwise, clears it.  A verification that
    succeeds closes the dialog and goes on to the creation: the password
    is cleared when the user is created, and is still in the state of the
    closed dialog when the creation fails. *)
Theorem dialog_password_lifetime B host session s w :
  (∀ ev, ev = Cancel ∨ ev = DialogOpenChange false →
     let p := dispatch B host session ev s w in
     isPasswordDialogOpen (next p) = false ∧ currentPassword (next p) = "")
  ∧ (∀ user_email, currentUser session = Some user_email →
       trim (currentPassword s) ≠ "" → auth_currentUser session = true →
       fails B (tick w) = None →
       let p := dispatch B host session Verify s w in
       isPasswordDialogOpen (next p) = false
       ∧ (accepted B session (S (tick w)) → currentPassword (next p) = "")
       ∧ (¬ accepted B session (S (tick w)) →
          currentPassword (next p) = currentPassword s)).
Proof.
  split.
  - intros ev [->| ->]; unfold dispatch; simpl; run_page; done.
  - intros user_email Hu Hp Ha Hf p. subst p. unfold dispatch. simpl.
    unfold verifyCurrentPassword. rewrite Hu. apply String.eqb_neq in Hp. rewrite Hp.
    run_page. rewrite Ha. run_page. rewrite Hf. run_page.
    unfold proceedWithUserCreation, accepted.
    split_page; (split; [reflexivity|]);
      (split;
       [ intros (Ha' & Hf' & Ht' & Hf'' & Hok'); try reflexivity; exfalso;
         repeat match goal with
                | H : (_ =? _)%string = true |- _ => apply String.eqb_eq in H
                end;
         congruence
       | intros Hn; try reflexivity;
         exfalso; apply Hn; repeat split; try done; by apply String.eqb_neq ]).
Qed.

End create_user.

(** ** The bootstrap-admin function *)

Section bootstrap.

Import BootstrapAdmin.

Ltac run_server :=
  repeat (unfold mbind, M_bind, mret, M_ret, try_catch, await, throw, handle,
            select_admins, createUser, insert_profile, insert_role, request, respond,
            console_error; simpl).

(** The query with [limit(1)] finds a row exactly when an admin exists. *)
Lemma admin_found w :
  bool_decide (0 < List.length (take 1 (filter (λ r, role r = "admin") (user_roles w))))%nat
  = bool_decide (admin_exists w).
Proof.
  unfold admin_exists. apply bool_decide_ext.
  induction (user_roles w) as [|r l IH]; simpl.
  - split; [lia|]. intros H; inversion H.
  - rewrite filter_cons. case_decide; simpl.
    + split; [intros; by constructor|lia].
    + rewrite IH. split; [by constructor 2|]. inversion 1; subst; done.
Qed.

(** C3, as stated, fails at four requests: a preflight request is
    answered 200 although an admin exists; a complete request with no
    admin is answered 400 when the creation of the user is rejected; any
    request is answered 500 when the admin query fails; and a request
    whose body is the JSON [null], in which the three fields are missing,
    is answered 500. *)
Lemma bootstrap_status_counterexample :
  (admin_exists Examples.server_with_admin
   ∧ (handle Examples.service Examples.preflight Examples.server_with_admin).1
     = Normal {| status := 200; body := VNull |})
  ∧ (¬ admin_exists Examples.fresh_server
     ∧ all_present Examples.first_admin = true
     ∧ (handle Examples.service_rejecting_user Examples.post Examples.fresh_server).1
       = Normal {| status := 400;
                   body := json_error
                     "A user with this email address has already been registered" |})
  ∧ (admin_exists Examples.server_with_admin
     ∧ (handle Examples.service_down Examples.post Examples.server_with_admin).1
       = Normal {| status := 500; body := json_error "Failed to check existing admins" |})
  ∧ (handle Examples.service Examples.null_body Examples.fresh_server).1
    = Normal {| status := 500; body := json_error "Internal server error" |}.
Proof.
  split; [split; [repeat constructor|reflexivity]|].
  split; [|split; [split; [repeat constructor|reflexivity]|reflexivity]].
  split; [|split; reflexivity]. intros H. inversion H.
Qed.

(** C3, amended.  A preflight request is answered 200 with no body and
    nothing else happens.  Any other request is answered 500 when the
    function is not configured or the admin query fails.  When the query
    is answered: if an admin exists the answer is 403 with the error and
    no table changes; otherwise a body that is not JSON, or is the JSON
    [null], is answered 500; with any other body, if one of email,
    password and full_name is missing or empty the answer is 400, and if
    all three are there the auth user is created and the answer is 200,
    unless the creation is rejected, in which case the answer is 400 with
    the error of the creation.  No table changes in any case but the
    last 200. *)
Theorem bootstrap_responses (service : Service) (req : Request) (w : Server) :
  let r := handle service req w in
  (method req = "OPTIONS" → r = (Normal {| status := 200; body := VNull |}, w))
  ∧ (method req ≠ "OPTIONS" →
     if configured service then
       match fails service (tick w) with
       | Some _ =>
           r.1 = Normal {| status := 500;
                           body := json_error "Failed to check existing admins" |}
           ∧ same_tables w r.2
       | None =>
           (admin_exists w → r.1 = Normal already_exists ∧ same_tables w r.2)
           ∧ (¬ admin_exists w →
              match body_fields (json req) with
              | None => r.1 = Normal internal_error ∧ same_tables w r.2
              | Some fields =>
                  if all_present fields then
                    match fails service (S (tick w)) with
                    | None =>
                        (∃ b, r.1 = Normal {| status := 200; body := b |})
                        ∧ ∃ rest,
                            auth_users r.2
                            = auth_users w
                              ++ {| auth_id := new_user_id service (S (tick w));
                                    auth_email := field "email" fields |} :: rest
                    | Some e => r.1 = Normal {| status := 400; body := json_error e |}
                                ∧ same_tables w r.2
                    end
                  else r.1 = Normal missing_fields ∧ same_tables w r.2
              end)
       end
     else r.1 = Normal internal_error ∧ same_tables w r.2).
Proof.
  intros r. subst r. split.
  { intros Hm. unfold handle. by rewrite Hm. }
  intros Hm. apply String.eqb_neq in Hm.
  destruct (configured service) eqn:Hc.
  2: { unfold handle. rewrite Hm, Hc. run_server. done. }
  destruct (fails service (tick w)) as [e|] eqn:Hf.
  { unfold handle. rewrite Hm, Hc. run_server. rewrite Hf. run_server. done. }
  split.
  - intros Ha. unfold handle. rewrite Hm, Hc. run_server. rewrite Hf. run_server.
    rewrite (admin_found w), bool_decide_true by done. done.
  - intros Ha. unfold handle. rewrite Hm, Hc. run_server. rewrite Hf. run_server.
    rewrite (admin_found w), bool_decide_false by done.
    destruct (json req) as [body|e]; run_server; [|done].
    destruct body as [| |b|n|s|sec nano|fields]; run_server; try done.
    unfold all_present, field.
    destruct (truthy (default VUndefined (assoc "email" fields))); run_server; [|done].
    destruct (truthy (default VUndefined (assoc "password" fields))); run_server; [|done].
    destruct (truthy (default VUndefined (assoc "full_name" fields))); run_server; [|done].
    destruct (fails service (S (tick w))); run_server; [done|].
    destruct (fails service (S (S (tick w)))); run_server;
      destruct (fails service (S (S (S (tick w))))); run_server;
      (split; [eexists; reflexivity | exists []; reflexivity]).
Qed.

(** The first administrator of a fresh installation is created. *)
Lemma bootstrap_responses_witness :
  let r := handle Examples.service Examples.post Examples.fresh_server in
  ¬ admin_exists Examples.fresh_server
  ∧ (∃ b, r.1 = Normal {| status := 200; body := b |})
  ∧ ∃ rest, auth_users r.2
            = {| auth_id := "u1"; auth_email := VString "owner@club.test" |} :: rest.
Proof.
  assert (Hnone : ¬ admin_exists Examples.fresh_server) by (intros H; inversion H).
  split; [exact Hnone|].
  exact (proj2 (proj2 (bootstrap_responses Examples.service Examples.post
                         Examples.fresh_server)
                  ltac:(discriminate))
           Hnone).
Defined.
(** C9. When the auth user is created, the answer is 200 with
    [success: true] whatever becomes of the two inserts: a rejected
    profile insert leaves the profiles as they were and is only logged,
    and a rejected role insert leaves the roles as they were, so that no
    admin exists after the successful answer, and is only logged. *)
Theorem bootstrap_not_atomic (service : Service) (req : Request) (w : Server) fields :
  method req ≠ "OPTIONS" → configured service = true → fails service (tick w) = None →
  ¬ admin_exists w → json req = Normal (VObject fields) → all_present fields = true →
  fails service (S (tick w)) = None →
  let r := handle service req w in
  let id := new_user_id service (S (tick w)) in
  r.1 = Normal {| status := 200;
                  body := success id (field "email" fields) (field "full_name" fields) |}
  ∧ (fails service (S (S (tick w))) ≠ None →
       profiles r.2 = profiles w ∧ "Error creating profile:" ∈ console r.2)
  ∧ (fails service (S (S (S (tick w)))) ≠ None →
       user_roles r.2 = user_roles w ∧ ¬ admin_exists r.2
       ∧ "Error assigning role:" ∈ console r.2).
Proof.
  intros Hm Hc Hf Ha Hj Hp Hu r id. subst r id.
  apply String.eqb_neq in Hm.
  unfold handle. rewrite Hm, Hc. run_server. rewrite Hf. run_server.
  rewrite (admin_found w), bool_decide_false by done. rewrite Hj. run_server.
  unfold all_present, field in Hp.
  apply andb_prop in Hp as [Hp H3]. apply andb_prop in Hp as [H1 H2].
  rewrite H1, H2, H3. run_server. rewrite Hu. run_server.
  destruct (fails service (S (S (tick w)))); run_server;
    destruct (fails service (S (S (S (tick w))))); run_server;
    (split; [reflexivity|]); split; intros; try done; repeat split; try done;
    rewrite ?elem_of_app, ?elem_of_cons; auto.
Qed.

(** Both inserts rejected: the answer is still the successful one, and
    there is neither a profile nor an admin. *)
Lemma bootstrap_not_atomic_witness :
  let r := handle Examples.service_rejecting_inserts Examples.post Examples.fresh_server in
  r.1 = Normal {| status := 200;
                  body := success "u1" (VString "owner@club.test")
                            (VString "Club Owner") |}
  ∧ profiles r.2 = [] ∧ user_roles r.2 = [] ∧ ¬ admin_exists r.2.
Proof.
  destruct (bootstrap_not_atomic Examples.service_rejecting_inserts Examples.post
              Examples.fresh_server Examples.first_admin
              ltac:(discriminate) eq_refl eq_refl ltac:(intros H; inversion H)
              eq_refl eq_refl eq_refl) as (Hr & Hp & Hu).
  destruct (Hp ltac:(discriminate)) as [Hp' _].
  destruct (Hu ltac:(discriminate)) as (Hu' & Hn & _).
  exact (conj Hr (conj Hp' (conj Hu' Hn))).
Defined.

(** *** Every request, and the second one *)

Ltac split_server :=
  repeat (run_server;
    match goal with
    | |- context [match fails ?s ?n with _ => _ end] => destruct (fails s n) eqn:?
    | |- context [if configured ?s then _ else _] => destruct (configured s) eqn:?
    | |- context [if negb (configured ?s) then _ else _] => destruct (configured s) eqn:?
    | |- context [if String.eqb ?a ?b then _ else _] => destruct (String.eqb a b) eqn:?
    | |- context [if bool_decide ?P then _ else _] => destruct (bool_decide P) eqn:?
    | |- context [match json ?r with _ => _ end] => destruct (json r) as [[]|] eqn:?
    | |- context [truthy ?v] => destruct (truthy v) eqn:?
    end); run_server.

(** With an admin in place the function refuses. *)
Lemma refused (service : Service) (req : Request) (w : Server) :
  method req ≠ "OPTIONS" → configured service = true → fails service (tick w) = None →
  admin_exists w →
  (handle service req w).1 = Normal already_exists ∧ same_tables w (handle service req w).2.
Proof.
  intros Hm Hc Hf Ha. apply String.eqb_neq in Hm.
  unfold handle. rewrite Hm, Hc. run_server. rewrite Hf. run_server.
  rewrite (admin_found w), bool_decide_true by done. done.
Qed.

(** X18. The function answers every request, whatever Supabase does: it
    never rejects, the status is one of 200, 400, 403 and 500, every
    answer other than 200 leaves the three tables as they were, and every
    500 is logged. *)
Theorem handle_always_answers (service : Service) (req : Request) (w : Server) :
  ∃ r, (handle service req w).1 = Normal r
       ∧ status r ∈ [200; 400; 403; 500]
       ∧ (status r ≠ 200 → same_tables w (handle service req w).2)
       ∧ (status r = 500 → ∃ line, console (handle service req w).2 = console w ++ [line]).
Proof.
  split_server; eexists; (split; [reflexivity|]); simpl;
    (split; [rewrite !elem_of_cons; auto|]);
    (split; [try done; intros _; by repeat split|]); try discriminate; intros _; eauto.
Qed.

(** X19. A request that cannot be served is answered 500 with the same
    message for every cause.  Without the two environment variables no
    call to Supabase is made.  With no admin, a body that is not JSON and
    the JSON body [null] end there too, while a JSON number, string or
    boolean is answered like an object without fields, with 400.  Nothing
    is created in any of these cases. *)
Theorem bootstrap_internal_error (service : Service) (req : Request) (w : Server) :
  method req ≠ "OPTIONS" →
  let r := handle service req w in
  let internal := {| status := 500; body := json_error "Internal server error" |} in
  (configured service = false →
     r.1 = Normal internal ∧ same_tables w r.2 ∧ tick r.2 = tick w
     ∧ console r.2 = console w ++ ["Error in bootstrap-admin function:"])
  ∧ (configured service = true → fails service (tick w) = None → ¬ admin_exists w →
       ((json req = Normal VNull ∨ ∃ e, json req = Throw e) →
          r.1 = Normal internal ∧ same_tables w r.2
          ∧ console r.2 = console w ++ ["Error in bootstrap-admin function:"])
       ∧ (∀ v, json req = Normal v → typeof v ∈ ["number"; "string"; "boolean"] →
          r.1 = Normal missing_fields ∧ same_tables w r.2)).
Proof.
  intros Hm r internal. subst r internal. apply String.eqb_neq in Hm.
  split.
  - intros Hc. unfold handle. rewrite Hm, Hc. run_server. by repeat split.
  - intros Hc Hf Ha. unfold handle. rewrite Hm, Hc. run_server. rewrite Hf. run_server.
    rewrite (admin_found w), bool_decide_false by done.
    split.
    + intros [Hj|[e Hj]]; rewrite Hj; run_server; by repeat split.
    + intros v Hj Hv. rewrite Hj. rewrite !elem_of_cons, elem_of_nil in Hv.
      destruct v; simpl in Hv; try (exfalso; intuition discriminate);
        run_server; by repeat split.
Qed.

(** A body that is not JSON, sent to a fresh installation. *)
Lemma bootstrap_internal_error_witness :
  let r := handle Examples.service Examples.garbled Examples.fresh_server in
  r.1 = Normal {| status := 500; body := json_error "Internal server error" |}
  ∧ same_tables Examples.fresh_server r.2.
Proof.
  assert (Hnone : ¬ admin_exists Examples.fresh_server) by (intros H; inversion H).
  destruct (bootstrap_internal_error Examples.service Examples.garbled Examples.fresh_server
              ltac:(discriminate)) as [_ H].
  destruct (H eq_refl eq_refl Hnone) as [H' _].
  destruct (H' (or_intror (ex_intro _ _ eq_refl))) as (H1 & H2 & _).
  exact (conj H1 H2).
Defined.

(** X20. The first administrator can be created once.  When the four calls
    of a complete request are fulfilled, the user has a profile and the
    role admin afterwards, and from then on every request is answered 403
    and creates nothing. *)
Theorem bootstrap_only_once (service : Service) (req : Request) (w : Server) fields :
  method req ≠ "OPTIONS" → configured service = true → ¬ admin_exists w →
  json req = Normal (VObject fields) → all_present fields = true →
  (∀ i, (i < 4)%nat → fails service (tick w + i) = None) →
  let w1 := (handle service req w).2 in
  let id := new_user_id service (S (tick w)) in
  user_roles w1 = user_roles w ++ [{| role_user_id := id; role := "admin" |}]
  ∧ profiles w1
    = profiles w ++ [{| profile_user_id := id; profile_full_name := field "full_name" fields;
                        profile_email := field "email" fields |}]
  ∧ auth_users w1 = auth_users w ++ [{| auth_id := id; auth_email := field "email" fields |}]
  ∧ ∀ req', method req' ≠ "OPTIONS" → fails service (tick w1) = None →
      (handle service req' w1).1 = Normal already_exists
      ∧ same_tables w1 (handle service req' w1).2.
Proof.
  intros Hm Hc Ha Hj Hp Hf w1 id.
  assert (H0 : fails service (tick w) = None).
  { rewrite <- (Nat.add_0_r (tick w)). apply Hf. lia. }
  assert (H1 : fails service (S (tick w)) = None).
  { replace (S (tick w)) with (tick w + 1)%nat by lia. apply Hf. lia. }
  assert (H2 : fails service (S (S (tick w))) = None).
  { replace (S (S (tick w))) with (tick w + 2)%nat by lia. apply Hf. lia. }
  assert (H3 : fails service (S (S (S (tick w)))) = None).
  { replace (S (S (S (tick w)))) with (tick w + 3)%nat by lia. apply Hf. lia. }
  assert (Hw1 : w1 = {| user_roles := user_roles w ++ [{| role_user_id := id; role := "admin" |}];
                        profiles := profiles w ++ [{| profile_user_id := id;
                                       profile_full_name := field "full_name" fields;
                                       profile_email := field "email" fields |}];
                        auth_users := auth_users w ++ [{| auth_id := id;
                                       auth_email := field "email" fields |}];
                        console := console w;
                        tick := S (S (S (S (tick w)))) |}).
  { subst w1 id. apply String.eqb_neq in Hm.
    unfold handle. rewrite Hm, Hc. run_server. rewrite H0. run_server.
    rewrite (admin_found w), bool_decide_false by done. rewrite Hj. run_server.
    unfold all_present, field in Hp.
    apply andb_prop in Hp as [Hp Hp3]. apply andb_prop in Hp as [Hp1 Hp2].
    rewrite Hp1, Hp2, Hp3. run_server. rewrite H1. run_server. rewrite H2. run_server.
    rewrite H3. run_server. reflexivity. }
  split; [by rewrite Hw1|]. split; [by rewrite Hw1|]. split; [by rewrite Hw1|].
  intros req' Hm' Hf'. apply refused; try done.
  rewrite Hw1. unfold admin_exists. simpl. apply Exists_app. right. by constructor.
Qed.

(** The owner is created on the fresh installation; the same request
    sent again is refused. *)
Lemma bootstrap_only_once_witness :
  let w1 := (handle Examples.service Examples.post Examples.fresh_server).2 in
  user_roles w1 = [{| role_user_id := "u1"; role := "admin" |}]
  ∧ (handle Examples.service Examples.post w1).1 = Normal already_exists.
Proof.
  assert (Hnone : ¬ admin_exists Examples.fresh_server) by (intros H; inversion H).
  destruct (bootstrap_only_once Examples.service Examples.post Examples.fresh_server
              Examples.first_admin ltac:(discriminate) eq_refl Hnone eq_refl eq_refl
              (λ _ _, eq_refl)) as (H1 & _ & _ & H2).
  destruct (H2 Examples.post ltac:(discriminate) eq_refl) as [H3 _].
  exact (conj H1 H3).
Defined.

End bootstrap.

(** ** The match-details page *)

Section match_details.

Import MatchDetails.

Section sort_facts.

Context {A : Type} (compare : A → A → Z) (key : A → Z).
Hypothesis compare_key : ∀ a b, compare a b = key a - key b.

Lemma insert_sorted_perm x l : insert_sorted compare x l ≡ₚ x :: l.
Proof.
  induction l as [|y l IH]; simpl; [done|].
  destruct (0 <? compare x y); [|done].
  rewrite IH. apply Permutation_swap.
Qed.

Lemma sort_perm l : sort compare l ≡ₚ l.
Proof.
  induction l as [|x l IH]; simpl; [done|].
  unfold sort in *. simpl. rewrite insert_sorted_perm. by rewrite IH.
Qed.

Lemma insert_sorted_sorted x l :
  StronglySorted (λ a b, key a ≤ key b) l →
  StronglySorted (λ a b, key a ≤ key b) (insert_sorted compare x l).
Proof.
  induction 1 as [|y l Hs IH Hall]; simpl.
  - repeat constructor.
  - rewrite compare_key. destruct (0 <? key x - key y) eqn:E.
    + apply Z.ltb_lt in E. constructor; [done|].
      rewrite insert_sorted_perm. constructor; [lia|done].
    + apply Z.ltb_ge in E. constructor.
      * by constructor.
      * constructor; [lia|]. eapply Forall_impl; [exact Hall|]. simpl. intros; lia.
Qed.

Lemma sort_sorted l : StronglySorted (λ a b, key a ≤ key b) (sort compare l).
Proof.
  induction l as [|x l IH]; [constructor|].
  unfold sort in *. simpl. by apply insert_sorted_sorted.
Qed.

Lemma insert_sorted_filter (k : Z) x l :
  StronglySorted (λ a b, key a ≤ key b) l →
  filter (λ a, key a = k) (insert_sorted compare x l) = filter (λ a, key a = k) (x :: l).
Proof.
  induction 1 as [|y l Hs IH Hall]; simpl; [done|].
  rewrite compare_key. destruct (0 <? key x - key y) eqn:E; [|done].
  apply Z.ltb_lt in E.
  rewrite !filter_cons. rewrite IH. rewrite !filter_cons.
  destruct (decide (key y = k)), (decide (key x = k)); try done. lia.
Qed.

(** The sort is stable: entries with the same key keep their order. *)
Lemma sort_stable (k : Z) l :
  filter (λ a, key a = k) (sort compare l) = filter (λ a, key a = k) l.
Proof.
  induction l as [|x l IH]; [done|].
  unfold sort in *. simpl. rewrite insert_sorted_filter by apply sort_sorted.
  rewrite !filter_cons. unfold sort. by rewrite IH.
Qed.

End sort_facts.

(** C6. Each of the three sections holds exactly the entries of its
    lineup type, as many times as the fetched list does, ordered by the
    place of the position played in goalkeeper, defender, midfielder,
    forward. *)
Theorem lineup_sections (lineups : list MatchLineupWithPlayer) :
  Forall (λ section : (list MatchLineupWithPlayer → list MatchLineupWithPlayer) * string,
            section.1 lineups ≡ₚ filter (λ l, lineup_type l = section.2) lineups
            ∧ StronglySorted in_position_order (section.1 lineups))
    [ (firstHalfLineup, "first_half"); (secondHalfLineup, "second_half");
      (fullTimeLineup, "full_time") ]
  ∧ indexOf "goalkeeper" positionOrder < indexOf "defender" positionOrder
    < indexOf "midfielder" positionOrder
  ∧ indexOf "midfielder" positionOrder < indexOf "forward" positionOrder.
Proof.
  split; [|done].
  repeat constructor; simpl;
    unfold firstHalfLineup, secondHalfLineup, fullTimeLineup, lineup_of;
    try apply sort_perm; apply (sort_sorted by_position rank); reflexivity.
Qed.

(** Two defenders keep the order in which they were fetched. *)
Example lineup_example :
  lineup_id <$> firstHalfLineup
    [ {| lineup_id := "a"; player_id := "p4"; lineup_type := "first_half";
         position_played := "forward" |};
      {| lineup_id := "b"; player_id := "p2"; lineup_type := "first_half";
         position_played := "defender" |};
      {| lineup_id := "c"; player_id := "p9"; lineup_type := "second_half";
         position_played := "goalkeeper" |};
      {| lineup_id := "d"; player_id := "p1"; lineup_type := "first_half";
         position_played := "goalkeeper" |};
      {| lineup_id := "e"; player_id := "p3"; lineup_type := "first_half";
         position_played := "defender" |} ]
  = ["d"; "b"; "e"; "a"].
Proof. reflexivity. Qed.

(** *** The layout of a section *)

(** The rank of an entry says which position it has. *)
Lemma rank_cases (a : MatchLineupWithPlayer) :
  (rank a = -1 ∧ position_played a ∉ positionOrder)
  ∨ (rank a = 0 ∧ position_played a = "goalkeeper")
  ∨ (rank a = 1 ∧ position_played a = "defender")
  ∨ (rank a = 2 ∧ position_played a = "midfielder")
  ∨ (rank a = 3 ∧ position_played a = "forward").
Proof.
  unfold rank, positionOrder. simpl.
  destruct (String.eqb_spec (position_played a) "goalkeeper") as [->|H0]; [auto|].
  destruct (String.eqb_spec (position_played a) "defender") as [->|H1]; [auto 6|].
  destruct (String.eqb_spec (position_played a) "midfielder") as [->|H2]; [auto 6|].
  destruct (String.eqb_spec (position_played a) "forward") as [->|H3]; [auto 8|].
  left. split; [done|]. rewrite !elem_of_cons, elem_of_nil. tauto.
Qed.

Lemma filter_rank_position (k : Z) (pos : string) (l : list MatchLineupWithPlayer) :
  (k, pos) ∈ [(0, "goalkeeper"); (1, "defender"); (2, "midfielder"); (3, "forward")] →
  filter (λ a, rank a = k) l = filter (λ a, position_played a = pos) l.
Proof.
  intros Hk. apply list_filter_iff. intros a.
  rewrite !elem_of_cons, elem_of_nil in Hk.
  destruct (rank_cases a) as [[E H]|[[E H]|[[E H]|[[E H]|[E H]]]]]; rewrite E;
    destruct Hk as [[= -> ->]|[[= -> ->]|[[= -> ->]|[[= -> ->]|[]]]]];
    try rewrite H; split; try done; try lia;
    intros Hp; exfalso; apply H; rewrite Hp; unfold positionOrder;
    rewrite !elem_of_cons; auto.
Qed.

Lemma filter_rank_unknown (l : list MatchLineupWithPlayer) :
  filter (λ a, rank a = -1) l = filter (λ a, position_played a ∉ positionOrder) l.
Proof.
  apply list_filter_iff. intros a.
  destruct (rank_cases a) as [[E H]|[[E H]|[[E H]|[[E H]|[E H]]]]]; rewrite E;
    split; try done; try lia;
    intros Hn; exfalso; apply Hn; rewrite H; unfold positionOrder;
    rewrite !elem_of_cons; auto.
Qed.

Lemma filter_rank_nil (j : Z) (x : MatchLineupWithPlayer) l :
  Forall (λ y, rank x ≤ rank y) l → j < rank x → filter (λ a, rank a = j) l = [].
Proof.
  intros Hall Hj. induction Hall as [|y l Hy _ IH]; [done|].
  rewrite filter_cons_False by lia. exact IH.
Qed.

(** A list in the order of the ranks is its five groups, one after the
    other. *)
Lemma sorted_by_rank (l : list MatchLineupWithPlayer) :
  StronglySorted (λ a b, rank a ≤ rank b) l →
  l = filter (λ a, rank a = -1) l ++ filter (λ a, rank a = 0) l
      ++ filter (λ a, rank a = 1) l ++ filter (λ a, rank a = 2) l
      ++ filter (λ a, rank a = 3) l.
Proof.
  induction 1 as [|x l Hs IH Hall]; [done|].
  destruct (rank_cases x) as [[E _]|[[E _]|[[E _]|[[E _]|[E _]]]]].
  - rewrite (filter_cons_True (λ a, rank a = -1)) by done.
    rewrite !(filter_cons_False _ x) by lia. simpl. by rewrite <- IH.
  - rewrite (filter_cons_True (λ a, rank a = 0)) by done.
    rewrite !(filter_cons_False _ x) by lia.
    rewrite (filter_rank_nil (-1) x) by (done || lia). simpl. f_equal.
    rewrite IH at 1. by rewrite (filter_rank_nil (-1) x) by (done || lia).
  - rewrite (filter_cons_True (λ a, rank a = 1)) by done.
    rewrite !(filter_cons_False _ x) by lia.
    rewrite (filter_rank_nil (-1) x), (filter_rank_nil 0 x) by (done || lia). simpl. f_equal.
    rewrite IH at 1.
    by rewrite (filter_rank_nil (-1) x), (filter_rank_nil 0 x) by (done || lia).
  - rewrite (filter_cons_True (λ a, rank a = 2)) by done.
    rewrite !(filter_cons_False _ x) by lia.
    rewrite (filter_rank_nil (-1) x), (filter_rank_nil 0 x), (filter_rank_nil 1 x)
      by (done || lia). simpl. f_equal.
    rewrite IH at 1.
    by rewrite (filter_rank_nil (-1) x), (filter_rank_nil 0 x), (filter_rank_nil 1 x)
      by (done || lia).
  - rewrite (filter_cons_True (λ a, rank a = 3)) by done.
    rewrite !(filter_cons_False _ x) by lia.
    rewrite (filter_rank_nil (-1) x), (filter_rank_nil 0 x), (filter_rank_nil 1 x),
      (filter_rank_nil 2 x) by (done || lia). simpl. f_equal.
    rewrite IH at 1.
    by rewrite (filter_rank_nil (-1) x), (filter_rank_nil 0 x), (filter_rank_nil 1 x),
      (filter_rank_nil 2 x) by (done || lia).
Qed.

(** X21. A section of the lineup, entry by entry: the entries of its lineup
    type whose position is none of the four come first, then the
    goalkeepers, the defenders, the midfielders and the forwards, each
    group in the order in which the entries were fetched. *)
Theorem lineup_section_layout (type : string) (lineups : list MatchLineupWithPlayer) :
  let entries := filter (λ l, lineup_type l = type) lineups in
  let played pos := filter (λ l, position_played l = pos) entries in
  lineup_of type lineups
  = filter (λ l, position_played l ∉ positionOrder) entries
    ++ played "goalkeeper" ++ played "defender" ++ played "midfielder" ++ played "forward".
Proof.
  intros entries played. unfold lineup_of. fold entries.
  rewrite (sorted_by_rank (sort by_position entries))
    by (apply (sort_sorted by_position rank); reflexivity).
  rewrite !(sort_stable by_position rank) by reflexivity.
  rewrite filter_rank_unknown. unfold played.
  rewrite (filter_rank_position 0 "goalkeeper"), (filter_rank_position 1 "defender"),
    (filter_rank_position 2 "midfielder"), (filter_rank_position 3 "forward")
    by (rewrite !elem_of_cons; auto 6).
  reflexivity.
Qed.

End match_details.

(** ** The squad page *)

Section squad.

Import Squad.

Lemma group_lookup players pos :
  pos ∈ positionOrder → group players pos = filter (λ p, position p = pos) players.
Proof.
  unfold positionOrder. rewrite !elem_of_cons, elem_of_nil.
  intros [->|[->|[->|[->|[]]]]]; reflexivity.
Qed.

Lemma group_unknown players pos : pos ∉ positionOrder → group players pos = [].
Proof.
  unfold positionOrder. rewrite !not_elem_of_cons. intros (H1 & H2 & H3 & H4 & _).
  unfold group, groupedPlayers. simpl. by rewrite !lookup_insert_ne by done.
Qed.

(** C7, as stated, fails on a fetched list with a row whose position is
    none of the four, which the unchecked cast of the listener lets
    through: the row is in no group, and the groups together hold fewer
    players than the list. *)
Lemma groupedPlayers_counterexample :
  let players := [Examples.coach; Examples.striker] in
  Examples.coach ∈ players
  ∧ Forall (λ pos, Examples.coach ∉ group players pos) positionOrder
  ∧ List.concat (group players <$> positionOrder) = [Examples.striker].
Proof.
  split; [by left|]. split; [|reflexivity].
  rewrite Forall_forall. intros pos Hpos. rewrite group_lookup by done.
  rewrite list_elem_of_filter. intros [Hp _]. simpl in Hp. subst pos. revert Hpos.
  unfold positionOrder. rewrite !elem_of_cons, elem_of_nil. intuition discriminate.
Qed.

(** C7, amended.  The positions of the four groups are pairwise
    different.  A player of the fetched list is in the group of a
    position exactly when it is the player's position: in one group when
    the position is one of the four, in none otherwise.  The four groups
    together are the players of the list whose position is one of the
    four, each as many times as there: the whole list when every
    position is. *)
Theorem groupedPlayers_partition (players : list Player) :
  NoDup positionOrder
  ∧ (∀ p pos, p ∈ players → pos ∈ positionOrder →
              (p ∈ group players pos ↔ pos = position p))
  ∧ (∀ p, p ∈ players → position p ∉ positionOrder →
          ∀ pos, p ∉ group players pos)
  ∧ List.concat (group players <$> positionOrder)
    ≡ₚ filter (λ p, position p ∈ positionOrder) players
  ∧ (Forall known_position players →
     players ≡ₚ List.concat (group players <$> positionOrder)).
Proof.
  assert (Hgroups : List.concat (group players <$> positionOrder)
                    ≡ₚ filter (λ p, position p ∈ positionOrder) players).
  { simpl. rewrite !group_lookup by (unfold positionOrder; rewrite !elem_of_cons; auto).
    rewrite app_nil_r. induction players as [|p l IH]; [done|].
    rewrite !filter_cons.
    destruct (decide (position p ∈ positionOrder)) as [Hp|Hp].
    - unfold positionOrder in Hp. rewrite !elem_of_cons, elem_of_nil in Hp.
      destruct Hp as [E|[E|[E|[E|[]]]]]; rewrite E; simpl;
        repeat (case_decide; try discriminate); simpl; rewrite <- IH.
      + done.
      + by rewrite <- Permutation_middle.
      + rewrite !app_assoc. rewrite <- Permutation_middle. by rewrite <- !app_assoc.
      + rewrite !app_assoc. rewrite <- Permutation_middle. by rewrite <- !app_assoc.
    - unfold positionOrder in Hp. rewrite !not_elem_of_cons in Hp.
      destruct Hp as (H1 & H2 & H3 & H4 & _).
      rewrite !decide_False by done. exact IH. }
  split; [|split; [|split; [|split]]].
  - unfold positionOrder.
    repeat (apply NoDup_cons_2;
            [rewrite ?elem_of_cons, ?elem_of_nil; intuition discriminate|]).
    apply NoDup_nil_2.
  - intros p pos Hp Hpos. rewrite group_lookup by done. rewrite list_elem_of_filter.
    split; [by intros [-> _] | by intros ->].
  - intros p Hp Hunknown pos.
    destruct (decide (pos ∈ positionOrder)) as [Hpos|Hpos].
    + rewrite group_lookup by done. rewrite list_elem_of_filter. intros [E _].
      by rewrite E in Hunknown.
    + rewrite group_unknown by done. apply not_elem_of_nil.
  - exact Hgroups.
  - intros Hk. rewrite Hgroups. symmetry. clear Hgroups.
    induction Hk as [|p l Hp Hl IH]; [done|].
    rewrite filter_cons. unfold known_position in Hp. rewrite decide_True by done.
    by rewrite IH.
Qed.

End squad.

(** ** The result of a match *)

Section match_result.

Import MatchResult.

Lemma win_excludes_draw (m : Match) : isWin m = true → isDraw m = false.
Proof.
  unfold isWin, isDraw. destruct (isCompleted m); [simpl|done].
  destruct (goals_scored m) as [| |[|a|s]], (goals_conceded m) as [| |[|b|t]]; simpl;
    try done.
  - destruct (a =? 0) eqn:Ea, (b =? 0) eqn:Eb; simpl; intros Hgt; lia.
  - by destruct s, t.
Qed.

Lemma displayed_by_tests (m : Match) :
  isCompleted m = true →
  displayed m (if isWin m then Won else if isDraw m then Drawn else Lost).
Proof.
  intros Hc. unfold displayed, scoreClasses, headerClasses. rewrite Hc.
  destruct (isWin m) eqn:Hw.
  - rewrite (win_excludes_draw m Hw). split; reflexivity.
  - destruct (isDraw m); split; reflexivity.
Qed.

(** X22. A completed match is shown with exactly one of the three outcomes,
    the same on both pages.  With both scores numbers it is the
    comparison of the scores.  With a number on one side only it is
    never a draw, not even against 0: a win if the one number favours the
    club, a loss otherwise.  With no number at all it is a draw, unless
    one score is [null] and the other not there. *)
Theorem completed_match_outcome (m : Match) :
  isCompleted m = true →
  (∃ o, displayed m o)
  ∧ (∀ a b, goals_scored m = number (Num a) → goals_conceded m = number (Num b) →
       displayed m (if decide (b < a) then Won else if decide (a = b) then Drawn else Lost))
  ∧ (∀ a, goals_scored m = number (Num a) → is_number (goals_conceded m) = false →
       displayed m (if decide (0 < a) then Won else Lost))
  ∧ (∀ b, is_number (goals_scored m) = false → goals_conceded m = number (Num b) →
       displayed m (if decide (b < 0) then Won else Lost))
  ∧ (is_number (goals_scored m) = false → is_number (goals_conceded m) = false →
       displayed m (if strict_eq (goals_scored m) (goals_conceded m) then Drawn else Lost)).
Proof.
  intros Hc. pose proof (displayed_by_tests m Hc) as H. revert H.
  generalize (displayed m). intros P. unfold isWin, isDraw. rewrite Hc. simpl.
  intros H. split; [by eexists|].
  assert (Hzero : ∀ z, (if z =? 0 then Num 0 else Num z) = Num z).
  { intros z. destruct (Z.eqb_spec z 0) as [->|?]; reflexivity. }
  split; [|split; [|split]].
  - intros a b Ha Hb. rewrite Ha, Hb in H. unfold or_zero in H. rewrite !Hzero in H.
    simpl in H.
    destruct (Z.ltb_spec b a), (Z.eqb_spec a b); repeat case_decide; try lia; exact H.
  - intros a Ha Hb. rewrite Ha in H. unfold or_zero in H. rewrite Hzero in H.
    destruct (goals_conceded m) as [| |[|b|t]]; try discriminate; simpl in H;
      destruct (Z.ltb_spec 0 a); case_decide; try lia; exact H.
  - intros b Ha Hb. rewrite Hb in H. unfold or_zero in H. rewrite Hzero in H.
    destruct (goals_scored m) as [| |[|a|s]]; try discriminate; simpl in H;
      destruct (Z.ltb_spec b 0); case_decide; try lia; exact H.
  - intros Ha Hb.
    destruct (goals_scored m) as [| |[|a|s]], (goals_conceded m) as [| |[|b|t]];
      try discriminate; exact H.
Qed.

(** Two goals scored and the other score never entered: a win. *)
Lemma completed_match_outcome_witness : displayed Examples.half_recorded Won.
Proof.
  destruct (completed_match_outcome Examples.half_recorded eq_refl) as (_ & _ & H & _).
  exact (H 2 eq_refl eq_refl).
Defined.

End match_result.

(** ** The initials of a name *)

Section initials.

Import Initials.

Example initials_examples :
  initials <$> ["Abebe Bikila"; "Haile"; "a b c"; "  Derartu   Tulu "; ""; "   "]
  = ["AB"; "H"; "ab"; "DT"; ""; ""].
Proof. reflexivity. Qed.

Lemma split_cons sep s : ∃ piece pieces, split sep s = piece :: pieces.
Proof.
  induction s as [|c s (piece & pieces & IH)]; simpl; [by eexists _, _|].
  destruct (Ascii.eqb c sep); [by eexists _, _|]. rewrite IH. by eexists _, _.
Qed.

Lemma join_split s :
  join (first <$> split " " s) = letters false s
  ∧ join (first <$> match split " " s with _ :: pieces => pieces | [] => [] end)
    = letters true s.
Proof.
  induction s as [|c s [IH1 IH2]]; [done|]. simpl.
  destruct (Ascii.eqb c " ") eqn:E; simpl.
  - split; exact IH1.
  - destruct (split_cons " " s) as (piece & pieces & Hs). rewrite Hs in *. simpl.
    split; [|exact IH2]. simpl in IH2. change (list_fmap string (option ascii) first pieces)
      with (first <$> pieces). by rewrite IH2.
Qed.

Lemma letters_word inside w s :
  no_space w = true → letters inside (w +:+ s)
  = if inside then letters true s
    else match w with String c _ => String c (letters true s) | EmptyString => letters false s end.
Proof.
  revert inside. induction w as [|c w IH]; intros inside Hw; [by destruct inside|].
  simpl in *. apply andb_prop in Hw as [Hc Hw]. apply negb_true_iff in Hc. rewrite Hc.
  destruct inside; rewrite IH by done; reflexivity.
Qed.

Lemma letters_spaces inside sp s :
  spaces sp = true → sp ≠ "" → letters inside (sp +:+ s) = letters false s.
Proof.
  revert inside. induction sp as [|c sp IH]; intros inside Hs Hne; [done|].
  simpl in *. apply andb_prop in Hs as [Hc Hs]. rewrite Hc.
  destruct sp as [|c' sp']; [done|]. by apply IH.
Qed.

Lemma substring_0_length n s : (String.length (String.substring 0 n s) ≤ n)%nat.
Proof.
  revert s. induction n as [|n IH]; intros [|c s]; simpl; try lia.
  specialize (IH s). lia.
Qed.

Lemma letters_only_spaces inside sp : spaces sp = true → letters inside sp = "".
Proof.
  revert inside. induction sp as [|c sp IH]; intros inside Hs; [done|].
  simpl in *. apply andb_prop in Hs as [-> Hs]. by apply IH.
Qed.

Lemma letters_after_spaces sp s :
  spaces sp = true → letters false (sp +:+ s) = letters false s.
Proof. intros Hs. destruct sp as [|c sp]; [done|]. by apply letters_spaces. Qed.

Lemma substring_0_0 s : String.substring 0 0 s = "".
Proof. by destruct s. Qed.

(** X23. The initials are at most two characters: the first letter of the
    first word and the first letter of the second.  A name of one word
    gives one letter, a name without a word none; spaces before, after
    and between the words, however many, make no difference. *)
Theorem initials_of_name :
  (∀ name, (String.length (initials name) ≤ 2)%nat)
  ∧ (∀ sp, spaces sp = true → initials sp = "")
  ∧ (∀ sp0 w1 sp1, spaces sp0 = true → word w1 = true → spaces sp1 = true →
       initials (sp0 +:+ w1 +:+ sp1) = String.substring 0 1 w1)
  ∧ (∀ sp0 w1 sp1 w2 rest, spaces sp0 = true → word w1 = true → spaces sp1 = true →
       sp1 ≠ "" → word w2 = true →
       initials (sp0 +:+ w1 +:+ sp1 +:+ w2 +:+ rest)
       = String.substring 0 1 w1 +:+ String.substring 0 1 w2).
Proof.
  split; [intros name; apply substring_0_length|].
  unfold initials, word.
  split; [|split].
  - intros sp Hs. by rewrite (proj1 (join_split _)), letters_only_spaces.
  - intros sp0 w1 sp1 H0 [Hne Hw]%andb_prop H1.
    rewrite (proj1 (join_split _)), letters_after_spaces, letters_word by done.
    destruct w1 as [|c w1]; [done|].
    rewrite letters_only_spaces by done. simpl. by rewrite substring_0_0.
  - intros sp0 w1 sp1 w2 rest H0 [Hne1 Hw1]%andb_prop H1 Hsp [Hne2 Hw2]%andb_prop.
    rewrite (proj1 (join_split _)), letters_after_spaces, letters_word by done.
    destruct w1 as [|c1 w1]; [done|].
    rewrite letters_spaces, letters_word by done.
    destruct w2 as [|c2 w2]; [done|].
    simpl. by rewrite !substring_0_0.
Qed.

End initials.

(** ** toDate *)





